(** * Scheduling and dispatch core of the social-media automation service

    A shallow embedding of [app/tasks/posting_tasks.py],
    [app/api/scheduling.py], [app/tasks/scheduling_tasks.py] and
    [app/models/models.py], and the properties of the recurrence
    calculator, the content-queue cursor, the schedule tick and the
    multi-platform dispatcher.

    Conventions of the embedding:
    - Python [int] is [Z]; [str] is the [string] of its UTF-8 encoding; a
      JSON column holding a list is a [list], one holding an object is a
      [gmap] keyed by strings; a nullable column is an [option].
    - a raised exception is the [Raise] case of [result]; statements are
      sequenced with the bind of that monad.
    - [datetime.now()] is a read of the wall clock: every function that
      calls it takes the instant read as an explicit argument, one argument
      per call site; the two recurrence calculators are given a second
      time in [Clocked], with the clock as a state they read.
    - the SQLAlchemy session is an explicit database value threaded through
      the tasks; [db.commit()] is the point where the threaded value becomes
      the returned database, and a task that raises returns the database as
      of its last commit. *)

From Stdlib Require Import ZArith Lia Permutation Ascii String.
From stdpp Require Import gmap strings list pretty.

Local Open Scope Z_scope.

(** ** Python runtime: exceptions and results *)

Inductive exn : Type :=
| ValueError
| TypeError
| AttributeError
| IndexError
| OverflowError
| Exception (msg : string).

Inductive result (A : Type) : Type :=
| Ok (a : A)
| Raise (e : exn).

Arguments Ok {A} a.
Arguments Raise {A} e.

#[global] Instance result_ret : MRet result := fun A a => Ok a.
#[global] Instance result_bind : MBind result :=
  fun A B f m => match m with Ok a => f a | Raise e => Raise e end.

Definition is_ok {A} (r : result A) : bool :=
  match r with Ok _ => true | Raise _ => false end.

(** ** [str.split] and [int] on text *)

(** [s.split(sep)] for a one-character separator: every occurrence cuts,
    empty pieces are kept, the empty string gives one empty piece. *)
Fixpoint split (sep : ascii) (s : string) : list string :=
  match s with
  | EmptyString => [EmptyString]
  | String c s' =>
      if Ascii.eqb c sep then EmptyString :: split sep s'
      else match split sep s' with
           | w :: ws => String c w :: ws
           | [] => [String c EmptyString]
           end
  end.

(** A [str] is a [string] holding its UTF-8 encoding. [int] works on
    code points: it replaces every white-space character by a space and
    every decimal digit of any script by its ASCII digit, and then reads
    ASCII. *)

(** The code points of a UTF-8 text, or [None] for bytes that are the
    encoding of no text. [need] continuation bytes are still to come for
    the code point accumulated in [acc], which has to reach [low]. *)
Fixpoint utf8_decode (need : nat) (acc low : Z) (l : list Z)
    : option (list Z) :=
  match l with
  | [] => match need with O => Some [] | S _ => None end
  | b :: l' =>
      match need with
      | O =>
          if b <? 128 then cons b <$> utf8_decode 0 0 0 l'
          else if (194 <=? b) && (b <=? 223)
          then utf8_decode 1 (b - 192) 128 l'
          else if (224 <=? b) && (b <=? 239)
          then utf8_decode 2 (b - 224) 2048 l'
          else if (240 <=? b) && (b <=? 244)
          then utf8_decode 3 (b - 240) 65536 l'
          else None
      | S k =>
          if (128 <=? b) && (b <=? 191) then
            let acc := acc * 64 + (b - 128) in
            match k with
            | O =>
                if (low <=? acc) && (acc <=? 1114111)
                   && negb ((55296 <=? acc) && (acc <=? 57343))
                then cons acc <$> utf8_decode 0 0 0 l'
                else None
            | S _ => utf8_decode k acc low l'
            end
          else None
      end
  end.

Definition code_points (s : string) : option (list Z) :=
  utf8_decode 0 0 0 ((fun c => Z.of_nat (nat_of_ascii c))
                       <$> list_ascii_of_string s).

(** White space outside ASCII ([str.isspace]): U+0085, U+00A0, U+1680,
    U+2000..U+200A, U+2028, U+2029, U+202F, U+205F, U+3000. *)
Definition is_unicode_space (c : Z) : bool :=
  (c =? 133) || (c =? 160) || (c =? 5760)
  || ((8192 <=? c) && (c <=? 8202))
  || (c =? 8232) || (c =? 8233) || (c =? 8239) || (c =? 8287)
  || (c =? 12288).

(** The digit zero of every script with decimal digits outside ASCII
    (Unicode 14.0, the character database of CPython 3.11); the digits of
    a script are the ten code points from its zero on. *)
Definition decimal_zeros : list Z :=
  [1632; 1776; 1984; 2406; 2534; 2662; 2790; 2918; 3046; 3174; 3302;
    3430; 3558; 3664; 3792; 3872; 4160; 4240; 6112; 6160; 6470; 6608;
    6784; 6800; 6992; 7088; 7232; 7248; 42528; 43216; 43264; 43472;
    43504; 43600; 44016; 65296; 66720; 68912; 69734; 69872; 69942; 70096;
    70384; 70736; 70864; 71248; 71360; 71472; 71904; 72016; 72784; 73040;
    73120; 92768; 92864; 93008; 120782; 120792; 120802; 120812; 120822;
    123200; 123632; 125264; 130032 ].

Definition decimal_of (c : Z) : option Z :=
  (fun z => c - z)
    <$> List.find (fun z => (z <=? c) && (c <=? z + 9)) decimal_zeros.

(** What [int] makes of one character before it reads the text: a code
    point below 127 stays, white space becomes a space, a decimal digit
    its ASCII digit; any other character makes the text no number. *)
Definition to_ascii (c : Z) : option ascii :=
  if c <? 127 then Some (ascii_of_nat (Z.to_nat c))
  else if is_unicode_space c then Some " "%char
  else (fun d => ascii_of_nat (Z.to_nat (48 + d))) <$> decimal_of c.

(** White space that [int] strips from the ASCII text. *)
Definition is_space (c : ascii) : bool :=
  let n := Z.of_nat (nat_of_ascii c) in
  ((9 <=? n) && (n <=? 13)) || (n =? 32).

Definition digit_of (c : ascii) : option Z :=
  let n := Z.of_nat (nat_of_ascii c) in
  if (48 <=? n) && (n <=? 57) then Some (n - 48) else None.

Fixpoint lstrip (l : list ascii) : list ascii :=
  match l with
  | c :: l' => if is_space c then lstrip l' else l
  | [] => []
  end.

Definition strip (l : list ascii) : list ascii :=
  rev (lstrip (rev (lstrip l))).

(** Decimal digits, where single underscores may separate digits.
    [after_digit] tells whether the previous character was a digit. *)
Fixpoint digits (acc : Z) (after_digit : bool) (l : list ascii) : option Z :=
  match l with
  | [] => if after_digit then Some acc else None
  | c :: l' =>
      match digit_of c with
      | Some d => digits (acc * 10 + d) true l'
      | None =>
          if Ascii.eqb c "_" && after_digit then digits acc false l'
          else None
      end
  end.

(** [sys.int_info.default_max_str_digits]: the longest text, counted in
    digits, that [int] converts. *)
Definition max_str_digits : nat := 4300.

Definition digit_count (l : list ascii) : nat :=
  length (List.filter (fun c => bool_decide (is_Some (digit_of c))) l).

(** [int(s)] for a [str]: surrounding white space, an optional sign,
    decimal digits, at most [max_str_digits] of them. Anything else is a
    [ValueError]. *)
Definition py_int (s : string) : result Z :=
  match code_points s ≫= mapM to_ascii with
  | None => Raise ValueError
  | Some text =>
    let body := strip text in
    let parsed :=
      match body with
      | c :: rest =>
          if Ascii.eqb c "-" then Z.opp <$> digits 0 false rest
          else if Ascii.eqb c "+" then digits 0 false rest
          else digits 0 false body
      | [] => None
      end in
    match parsed with
    | Some z =>
        if (max_str_digits <? digit_count body)%nat then Raise ValueError
        else Ok z
    | None => Raise ValueError
    end
  end.

(** [hour, minute = map(int, time_str.split(":"))]: exactly two pieces,
    both integers; a wrong number of pieces or a piece that is not an
    integer is a [ValueError] either way. *)
Definition unpack_hour_minute (time_str : string) : result (Z * Z) :=
  match split ":" time_str with
  | [a; b] =>
      hour ← py_int a;
      minute ← py_int b;
      Ok (hour, minute)
  | _ => Raise ValueError
  end.

(** ** [datetime]: naive instants of the proleptic Gregorian calendar *)

Record datetime : Type := mk_datetime {
  year : Z;
  month : Z;
  day : Z;
  hour : Z;
  minute : Z;
  second : Z;
  microsecond : Z
}.

Definition MINYEAR : Z := 1.
Definition MAXYEAR : Z := 9999.

Definition is_leap (y : Z) : bool :=
  (y mod 4 =? 0) && (negb (y mod 100 =? 0) || (y mod 400 =? 0)).

Definition days_in_month (y m : Z) : Z :=
  if m =? 2 then (if is_leap y then 29 else 28)
  else if (m =? 4) || (m =? 6) || (m =? 9) || (m =? 11) then 30
  else 31.

Definition check_date_fields (y m d : Z) : bool :=
  (MINYEAR <=? y) && (y <=? MAXYEAR) &&
  (1 <=? m) && (m <=? 12) &&
  (1 <=? d) && (d <=? days_in_month y m).

Definition check_time_fields (h mi s us : Z) : bool :=
  (0 <=? h) && (h <=? 23) &&
  (0 <=? mi) && (mi <=? 59) &&
  (0 <=? s) && (s <=? 59) &&
  (0 <=? us) && (us <=? 999999).

(** The instants a [datetime] object can hold. *)
Definition well_formed (t : datetime) : bool :=
  check_date_fields (year t) (month t) (day t) &&
  check_time_fields (hour t) (minute t) (second t) (microsecond t).

(** An argument of [replace] is converted to a C [int] first. *)
Definition fits_c_int (v : option Z) : bool :=
  match v with
  | Some z => (-2147483648 <=? z) && (z <=? 2147483647)
  | None => true
  end.

(** [t.replace(year=.., month=.., ...)]: an argument that does not fit a C
    [int] is an [OverflowError]; else the fields given replace the old
    ones, the others are kept, and the new object is validated like a
    constructor call, a field out of range being a [ValueError]. *)
Definition replace (t : datetime)
    (year' month' day' hour' minute' second' microsecond' : option Z)
    : result datetime :=
  let t' := {| year := default (year t) year';
               month := default (month t) month';
               day := default (day t) day';
               hour := default (hour t) hour';
               minute := default (minute t) minute';
               second := default (second t) second';
               microsecond := default (microsecond t) microsecond' |} in
  if fits_c_int year' && fits_c_int month' && fits_c_int day'
     && fits_c_int hour' && fits_c_int minute' && fits_c_int second'
     && fits_c_int microsecond'
  then if well_formed t' then Ok t' else Raise ValueError
  else Raise OverflowError.

(** Comparison of naive datetimes: lexicographic on the seven fields. *)
Definition dt_compare (a b : datetime) : comparison :=
  match year a ?= year b with
  | Eq =>
    match month a ?= month b with
    | Eq =>
      match day a ?= day b with
      | Eq =>
        match hour a ?= hour b with
        | Eq =>
          match minute a ?= minute b with
          | Eq =>
            match second a ?= second b with
            | Eq => microsecond a ?= microsecond b
            | c => c
            end
          | c => c
          end
        | c => c
        end
      | c => c
      end
    | c => c
    end
  | c => c
  end.

(** [a <= b] and [a < b] on datetimes. *)
Definition dt_leb (a b : datetime) : bool :=
  match dt_compare a b with Gt => false | _ => true end.

Definition dt_ltb (a b : datetime) : bool :=
  match dt_compare a b with Lt => true | _ => false end.

(** Days before January 1st of year [y], and before the first of month [m]. *)
Definition days_before_year (y : Z) : Z :=
  let y' := y - 1 in y' * 365 + y' / 4 - y' / 100 + y' / 400.

Fixpoint days_before_month_aux (y : Z) (months : nat) : Z :=
  match months with
  | O => 0
  | S k => days_before_month_aux y k + days_in_month y (Z.of_nat (S k))
  end.

Definition days_before_month (y m : Z) : Z :=
  days_before_month_aux y (Z.to_nat (m - 1)).

(** [t.toordinal()]: 0001-01-01 is day 1. *)
Definition toordinal (t : datetime) : Z :=
  days_before_year (year t) + days_before_month (year t) (month t) + day t.

(** [t.weekday()]: Monday is 0 and Sunday is 6. *)
Definition weekday (t : datetime) : Z := (toordinal t + 6) mod 7.

(** The same wall-clock time on the next and on the previous calendar day;
    leaving the years [MINYEAR..MAXYEAR] is an [OverflowError]. *)
Definition next_day (t : datetime) : result datetime :=
  let with_date y m d :=
    {| year := y; month := m; day := d; hour := hour t; minute := minute t;
       second := second t; microsecond := microsecond t |} in
  if day t <? days_in_month (year t) (month t)
  then Ok (with_date (year t) (month t) (day t + 1))
  else if month t <? 12 then Ok (with_date (year t) (month t + 1) 1)
  else if year t <? MAXYEAR then Ok (with_date (year t + 1) 1 1)
  else Raise OverflowError.

Definition prev_day (t : datetime) : result datetime :=
  let with_date y m d :=
    {| year := y; month := m; day := d; hour := hour t; minute := minute t;
       second := second t; microsecond := microsecond t |} in
  if 1 <? day t then Ok (with_date (year t) (month t) (day t - 1))
  else if 1 <? month t
  then Ok (with_date (year t) (month t - 1)
                     (days_in_month (year t) (month t - 1)))
  else if MINYEAR <? year t then Ok (with_date (year t - 1) 12 31)
  else Raise OverflowError.

Fixpoint iterate (f : datetime -> result datetime) (n : nat) (t : datetime)
    : result datetime :=
  match n with
  | O => Ok t
  | S k => t' ← f t; iterate f k t'
  end.

(** [t + timedelta(days=n)]: a [timedelta] holds at most 999999999 days,
    and the sum has to stay within the calendar. *)
Definition add_days (t : datetime) (n : Z) : result datetime :=
  if 999999999 <? Z.abs n then Raise OverflowError
  else if 0 <=? n then iterate next_day (Z.to_nat n) t
  else iterate prev_day (Z.to_nat (- n)) t.

(** [t + timedelta(hours=n)]. *)
Definition add_hours (t : datetime) (n : Z) : result datetime :=
  let total := hour t + n in
  t' ← add_days t (total / 24);
  Ok {| year := year t'; month := month t'; day := day t';
        hour := total mod 24; minute := minute t';
        second := second t'; microsecond := microsecond t' |}.

(** ** JSON values and dictionaries *)

(** The values a JSON column holds under the keys the schedulers read:
    [null], an integer, a string. *)
Inductive jval : Type :=
| JNull
| JInt (z : Z)
| JStr (s : string).

(** [d.get(key, dflt)] *)
Definition get (d : gmap string jval) (key : string) (dflt : jval) : jval :=
  default dflt (d !! key).

(** [map(int, time_str.split(":"))] on the value found under ["time"]:
    only a [str] has [split]. *)
Definition hour_minute (time_str : jval) : result (Z * Z) :=
  match time_str with
  | JStr s => unpack_hour_minute s
  | _ => Raise AttributeError
  end.

(** Use of a JSON value where the interpreter needs an integer
    (subtraction of an [int], the [day] argument of [replace]). *)
Definition as_int (v : jval) : result Z :=
  match v with
  | JInt z => Ok z
  | _ => Raise TypeError
  end.

(** ** app/models/models.py *)

(** A row is the record of the columns the tasks and endpoints read and
    assign. The columns they never name are left out: the tokens of an
    account, [thumbnail_path], [description] of a schedule, and the
    timestamps [created_at] and [updated_at], which the database fills in
    by itself ([server_default], [onupdate]). Equality of two rows is
    equality of the columns held, and says nothing about [updated_at]. *)

Module SocialAccount.
Record t : Type := mk {
  id : Z;
  user_id : Z;
  platform : string;
  account_name : string;
  is_active : bool
}.
End SocialAccount.

(** What is stored under ['error']: a literal text, or [str(e)] of the
    exception caught. *)
Inductive error_detail : Type :=
| ErrorText (s : string)
| ErrorOf (e : exn).

(** One entry of [results] in [post_to_multiple_platforms]. *)
Record posting_result : Type := mk_posting_result {
  r_platform : string;
  r_status : string;
  r_platform_post_id : option string;
  r_result : option (gmap string string);
  r_error : option error_detail
}.

(** The shapes stored in [Post.platform_data]. *)
Inductive platform_json : Type :=
| Platforms (caption : option string) (hashtags : option (list string))
            (platforms : list string)
| PostingResults (posting_results : list posting_result)
| ServiceResult (data : gmap string string).

Module Post.
Record t : Type := mk {
  id : Z;
  user_id : Z;
  social_account_id : option Z;
  title : string;
  description : string;
  file_path : string;
  file_type : string;
  scheduled_time : option datetime;
  posted_at : option datetime;
  status : string;
  platform_post_id : option string;
  platform_data : option platform_json
}.

Definition set_id (v : Z) (p : t) : t :=
  mk v (user_id p) (social_account_id p) (title p) (description p)
     (file_path p) (file_type p) (scheduled_time p) (posted_at p)
     (status p) (platform_post_id p) (platform_data p).
Definition set_status (v : string) (p : t) : t :=
  mk (id p) (user_id p) (social_account_id p) (title p) (description p)
     (file_path p) (file_type p) (scheduled_time p) (posted_at p)
     v (platform_post_id p) (platform_data p).
Definition set_posted_at (v : option datetime) (p : t) : t :=
  mk (id p) (user_id p) (social_account_id p) (title p) (description p)
     (file_path p) (file_type p) (scheduled_time p) v
     (status p) (platform_post_id p) (platform_data p).
Definition set_platform_data (v : option platform_json) (p : t) : t :=
  mk (id p) (user_id p) (social_account_id p) (title p) (description p)
     (file_path p) (file_type p) (scheduled_time p) (posted_at p)
     (status p) (platform_post_id p) v.
End Post.

Module Schedule.
Record t : Type := mk {
  id : Z;
  user_id : Z;
  name : string;
  is_active : bool;
  schedule_type : string;
  schedule_data : option (gmap string jval);
  content_queue : option (list (gmap string string));
  current_index : Z;
  target_platforms : option (list string);
  last_executed : option datetime;
  next_execution : option datetime
}.

Definition set_is_active (v : bool) (s : t) : t :=
  mk (id s) (user_id s) (name s) v (schedule_type s) (schedule_data s)
     (content_queue s) (current_index s) (target_platforms s)
     (last_executed s) (next_execution s).
Definition set_current_index (v : Z) (s : t) : t :=
  mk (id s) (user_id s) (name s) (is_active s) (schedule_type s)
     (schedule_data s) (content_queue s) v (target_platforms s)
     (last_executed s) (next_execution s).
Definition set_last_executed (v : option datetime) (s : t) : t :=
  mk (id s) (user_id s) (name s) (is_active s) (schedule_type s)
     (schedule_data s) (content_queue s) (current_index s)
     (target_platforms s) v (next_execution s).
Definition set_next_execution (v : option datetime) (s : t) : t :=
  mk (id s) (user_id s) (name s) (is_active s) (schedule_type s)
     (schedule_data s) (content_queue s) (current_index s)
     (target_platforms s) (last_executed s) v.
End Schedule.

(** ** app/api/scheduling.py: [calculate_next_execution] *)

Section api_scheduling.

(** [datetime.fromisoformat], the standard library's parser of ISO 8601
    text; a text it rejects is a [ValueError]. *)
Variable fromisoformat : string -> result datetime.

(** [now] is the instant read by [datetime.now()] on entry. *)
Definition calculate_next_execution
    (schedule_type : string) (schedule_data : gmap string jval)
    (now : datetime) : result datetime :=
  if String.eqb schedule_type "once" then
    match schedule_data !! "datetime" with
    | Some (JStr s) => fromisoformat s
    | _ => Raise TypeError
    end
  else if String.eqb schedule_type "daily" then
    let time_str := get schedule_data "time" (JStr "09:00") in
    '(hour, minute) ← hour_minute time_str;
    next_run ← replace now None None None
                       (Some hour) (Some minute) (Some 0) (Some 0);
    if dt_leb next_run now then add_days next_run 1 else Ok next_run
  else if String.eqb schedule_type "weekly" then
    let day_of_week := get schedule_data "day_of_week" (JInt 1) in
    let time_str := get schedule_data "time" (JStr "09:00") in
    '(hour, minute) ← hour_minute time_str;
    day_of_week ← as_int day_of_week;
    let days_ahead := day_of_week - weekday now in
    let days_ahead := if days_ahead <=? 0 then days_ahead + 7
                      else days_ahead in
    next_run ← add_days now days_ahead;
    replace next_run None None None
            (Some hour) (Some minute) (Some 0) (Some 0)
  else if String.eqb schedule_type "monthly" then
    let day_of_month := get schedule_data "day_of_month" (JInt 1) in
    let time_str := get schedule_data "time" (JStr "09:00") in
    '(hour, minute) ← hour_minute time_str;
    day_of_month ← as_int day_of_month;
    next_run ← replace now None None (Some day_of_month)
                       (Some hour) (Some minute) (Some 0) (Some 0);
    if dt_leb next_run now then
      if month now =? 12
      then replace next_run (Some (year now + 1)) (Some 1)
                   None None None None None
      else replace next_run None (Some (month now + 1))
                   None None None None None
    else Ok next_run
  else
    add_hours now 1.

End api_scheduling.

(** ** app/tasks/posting_tasks.py: [calculate_next_execution_time] *)

(** [now] is the instant read by [datetime.now()] on entry. *)
Definition calculate_next_execution_time
    (schedule : Schedule.t) (now : datetime) : result datetime :=
  let schedule_data := default ∅ (Schedule.schedule_data schedule) in
  if String.eqb (Schedule.schedule_type schedule) "daily" then
    let time_str := get schedule_data "time" (JStr "09:00") in
    '(hour, minute) ← hour_minute time_str;
    next_run ← replace now None None None
                       (Some hour) (Some minute) (Some 0) (Some 0);
    if dt_leb next_run now then add_days next_run 1 else Ok next_run
  else if String.eqb (Schedule.schedule_type schedule) "weekly" then
    let day_of_week := get schedule_data "day_of_week" (JInt 1) in
    let time_str := get schedule_data "time" (JStr "09:00") in
    '(hour, minute) ← hour_minute time_str;
    day_of_week ← as_int day_of_week;
    let days_ahead := day_of_week - weekday now in
    let days_ahead := if days_ahead <=? 0 then days_ahead + 7
                      else days_ahead in
    next_run ← add_days now days_ahead;
    replace next_run None None None
            (Some hour) (Some minute) (Some 0) (Some 0)
  else if String.eqb (Schedule.schedule_type schedule) "monthly" then
    let day_of_month := get schedule_data "day_of_month" (JInt 1) in
    let time_str := get schedule_data "time" (JStr "09:00") in
    '(hour, minute) ← hour_minute time_str;
    day_of_month ← as_int day_of_month;
    next_run ← replace now None None (Some day_of_month)
                       (Some hour) (Some minute) (Some 0) (Some 0);
    if dt_leb next_run now then
      if month now =? 12
      then replace next_run (Some (year now + 1)) (Some 1)
                   None None None None None
      else replace next_run None (Some (month now + 1))
                   None None None None None
    else Ok next_run
  else
    add_hours now 1.

(** ** The wall clock of the calculators *)

(** The state of the wall clock: the instants [datetime.now()] returns,
    call after call, and the number of calls made so far. *)
Record Clock : Type := mk_clock {
  readings : nat -> datetime;
  reads : nat
}.

(** [datetime.now()] *)
Definition datetime_now (c : Clock) : datetime * Clock :=
  (readings c (reads c), mk_clock (readings c) (S (reads c))).

(** The two calculators with the signatures the source gives them: no
    instant is passed in, the first statement of each is
    [now = datetime.now()]. *)
Module Clocked.

Definition calculate_next_execution
    (fromisoformat : string -> result datetime)
    (schedule_type : string) (schedule_data : gmap string jval)
    (c : Clock) : result datetime * Clock :=
  let '(now, c) := datetime_now c in
  (calculate_next_execution fromisoformat schedule_type schedule_data now,
   c).

Definition calculate_next_execution_time (schedule : Schedule.t)
    (c : Clock) : result datetime * Clock :=
  let '(now, c) := datetime_now c in
  (calculate_next_execution_time schedule now, c).

End Clocked.

(** ** The database session and the task broker *)

(** A message put on the Celery broker with [task.delay(...)]. *)
Inductive task : Type :=
| ExecuteSchedule (schedule_id : Z)
| PostToMultiplePlatforms (post_id : Z) (platform_ids : list string).

(** The tables the tasks read and write, as lists of rows in insertion
    order, and the broker's queue of pending messages. *)
Record World : Type := mk_world {
  schedules : list Schedule.t;
  posts : list Post.t;
  social_accounts : list SocialAccount.t;
  queue : list task
}.

(** [task.delay(...)] *)
Definition delay (m : task) (w : World) : World :=
  mk_world (schedules w) (posts w) (social_accounts w) (queue w ++ [m]).

(** The key an auto-increment primary key column gives the next row. *)
Definition next_post_id (rows : list Post.t) : Z :=
  1 + foldr Z.max 0 (Post.id <$> rows).

(** [db.add(post); db.commit(); db.refresh(post)]: the row is inserted
    under a fresh key, which the object then carries. *)
Definition add_post (post : Post.t) (w : World) : Post.t * World :=
  let post := Post.set_id (next_post_id (posts w)) post in
  (post, mk_world (schedules w) (posts w ++ [post]) (social_accounts w)
                  (queue w)).

(** [db.commit()] with a modified [Post] or [Schedule] object in the
    session: the row with the object's key is overwritten, in the columns
    the model holds (the database also sets [updated_at] of a row it
    updates). *)
Definition commit_post (post : Post.t) (w : World) : World :=
  mk_world (schedules w)
           ((fun p => if Post.id p =? Post.id post then post else p)
              <$> posts w)
           (social_accounts w) (queue w).

Definition commit_schedule (schedule : Schedule.t) (w : World) : World :=
  mk_world ((fun s => if Schedule.id s =? Schedule.id schedule
                      then schedule else s) <$> schedules w)
           (posts w) (social_accounts w) (queue w).

(** [l[i]] on a Python list: a negative index counts from the end, an
    index outside [-len(l) .. len(l)-1] is an [IndexError]. *)
Definition getitem {A} (l : list A) (i : Z) : result A :=
  let j := if i <? 0 then i + Z.of_nat (length l) else i in
  if j <? 0 then Raise IndexError
  else match l !! Z.to_nat j with
       | Some x => Ok x
       | None => Raise IndexError
       end.

(** ** app/tasks/posting_tasks.py: [execute_schedule] *)

(** The value a run of [execute_schedule] returns. *)
Inductive schedule_run : Type :=
| Skipped (reason : string)
| Executed (schedule_id post_id content_index : Z)
           (next_execution : datetime).

(** [Post(user_id=..., title=current_content.get('title', ''), ...,
    scheduled_time=datetime.now(), status="scheduled")] *)
Definition new_post (schedule : Schedule.t)
    (current_content : gmap string string) (now : datetime) : Post.t :=
  {| Post.id := 0;
     Post.user_id := Schedule.user_id schedule;
     Post.social_account_id := None;
     Post.title := default "" (current_content !! "title");
     Post.description := default "" (current_content !! "description");
     Post.file_path := default "" (current_content !! "file_path");
     Post.file_type := default "image" (current_content !! "file_type");
     Post.scheduled_time := Some now;
     Post.posted_at := None;
     Post.status := "scheduled";
     Post.platform_post_id := None;
     Post.platform_data := None |}.

(** [now_post], [now_executed] and [now_next] are the three reads of
    [datetime.now()], in program order: for the post's [scheduled_time],
    for [last_executed], and inside [calculate_next_execution_time].
    An exception leaves the database as of the last commit: the post
    inserted before it stays, the schedule's pending changes are lost. *)
Definition execute_schedule (w : World) (schedule_id : Z)
    (now_post now_executed now_next : datetime)
    : World * result schedule_run :=
  match List.find (fun s => Schedule.id s =? schedule_id) (schedules w) with
  | None => (w, Ok (Skipped "Schedule not found or inactive"))
  | Some schedule =>
    if negb (Schedule.is_active schedule)
    then (w, Ok (Skipped "Schedule not found or inactive"))
    else
      let content_queue := default [] (Schedule.content_queue schedule) in
      match content_queue with
      | [] => (w, Ok (Skipped "No content in queue"))
      | _ :: _ =>
        let len := Z.of_nat (length content_queue) in
        let current_index := Schedule.current_index schedule in
        let current_index :=
          if len <=? current_index then 0 else current_index in
        match getitem content_queue current_index with
        | Raise e => (w, Raise e)
        | Ok current_content =>
          let '(post, w) :=
            add_post (new_post schedule current_content now_post) w in
          let target_platforms :=
            default [] (Schedule.target_platforms schedule) in
          let w :=
            match target_platforms with
            | [] => w
            | _ :: _ =>
                delay (PostToMultiplePlatforms (Post.id post)
                                               target_platforms) w
            end in
          let schedule :=
            Schedule.set_current_index ((current_index + 1) mod len)
                                       schedule in
          let schedule :=
            Schedule.set_last_executed (Some now_executed) schedule in
          match calculate_next_execution_time schedule now_next with
          | Raise e => (w, Raise e)
          | Ok next =>
            let schedule :=
              Schedule.set_next_execution (Some next) schedule in
            (commit_schedule schedule w,
             Ok (Executed schedule_id (Post.id post) current_index next))
          end
        end
      end
  end.

(** ** app/tasks/scheduling_tasks.py: [check_and_execute_schedules] *)

(** The filter [Schedule.is_active == True, Schedule.next_execution <= now];
    a [NULL] [next_execution] satisfies no comparison. *)
Definition is_due (now : datetime) (s : Schedule.t) : bool :=
  Schedule.is_active s &&
  match Schedule.next_execution s with
  | Some t => dt_leb t now
  | None => false
  end.

(** Returns the world with one [execute_schedule] message per due
    schedule, and [executed_count]. *)
Definition check_and_execute_schedules (w : World) (now : datetime)
    : World * nat :=
  let due_schedules := List.filter (is_due now) (schedules w) in
  (foldl (fun w schedule => delay (ExecuteSchedule (Schedule.id schedule)) w)
         w due_schedules,
   length due_schedules).

(** ** app/tasks/posting_tasks.py: [post_to_multiple_platforms] *)

(** The value a run of [post_to_multiple_platforms] returns. *)
Record dispatch_summary : Type := mk_dispatch_summary {
  d_post_id : Z;
  d_results : list posting_result;
  d_success_count : nat;
  d_total_platforms : nat
}.

Section dispatch.

(** The platform clients of [app/services]: [post_content platform
    social_account file_path caption title] is the call
    [service.post_content(file_path=.., caption=.., title=..)] on the
    client of that platform, which answers with a dictionary or raises. *)
Variable post_content :
  string -> SocialAccount.t -> string -> string -> string ->
  result (gmap string string).

Definition services : list string :=
  ["instagram"; "facebook"; "twitter"; "youtube"; "tiktok"].

(** [get_platform_service]: the client, or [None] for an unknown
    platform. *)
Definition get_platform_service (platform : string)
    (social_account : SocialAccount.t)
    : option (string -> string -> string -> result (gmap string string)) :=
  if bool_decide (platform ∈ services)
  then Some (post_content platform social_account)
  else None.

Definition failed (platform : string) (error : error_detail)
    : posting_result :=
  {| r_platform := platform; r_status := "failed";
     r_platform_post_id := None; r_result := None;
     r_error := Some error |}.

(** The body of the loop over [platform_ids]: the entry appended to
    [results] for one platform. Every path appends exactly one entry;
    any exception is caught and becomes a ['failed'] entry. *)
Definition post_to_one (w : World) (post : Post.t) (platform : string)
    : posting_result :=
  match List.find (fun a => (SocialAccount.user_id a =? Post.user_id post)
                            && String.eqb (SocialAccount.platform a) platform
                            && SocialAccount.is_active a)
                  (social_accounts w) with
  | None => failed platform (ErrorText "No active social account found")
  | Some social_account =>
    match get_platform_service platform social_account with
    | None => failed platform (ErrorOf AttributeError)
    | Some service =>
      match service (Post.file_path post) (Post.description post)
                    (Post.title post) with
      | Raise e => failed platform (ErrorOf e)
      | Ok result =>
        {| r_platform := platform; r_status := "success";
           r_platform_post_id := result !! "post_id";
           r_result := Some result; r_error := None |}
      end
    end
  end.

(** [sum(1 for r in results if r['status'] == 'success')] *)
Definition count_success (results : list posting_result) : nat :=
  length (List.filter (fun r => String.eqb (r_status r) "success")
                      results).

(** Lines 156-162: the post's status from the results. [now] is the
    instant read by [datetime.now()] when a success is recorded. *)
Definition update_status (results : list posting_result)
    (total_platforms : nat) (now : datetime) (post : Post.t) : Post.t :=
  let success_count := count_success results in
  if (0 <? success_count)%nat then
    Post.set_posted_at (Some now)
      (Post.set_status (if (success_count =? total_platforms)%nat
                        then "posted" else "partially_posted") post)
  else Post.set_status "failed" post.

Definition post_to_multiple_platforms (w : World) (post_id : Z)
    (platform_ids : list string) (now : datetime)
    : World * result dispatch_summary :=
  match List.find (fun p => Post.id p =? post_id) (posts w) with
  | None => (w, Raise (Exception "Post not found"))
  | Some post =>
    let total_platforms := length platform_ids in
    let results :=
      foldl (fun results platform => results ++ [post_to_one w post platform])
            [] platform_ids in
    let success_count := count_success results in
    let post := update_status results total_platforms now post in
    let post :=
      Post.set_platform_data
        (Some (PostingResults results)) post in
    (commit_post post w,
     Ok (mk_dispatch_summary post_id results success_count
                             total_platforms))
  end.

End dispatch.


(** ** Vocabulary of the properties *)

#[global] Instance exn_eq_dec : EqDecision exn.
Proof. solve_decision. Defined.

#[global] Instance datetime_eq_dec : EqDecision datetime.
Proof. solve_decision. Defined.

(** Position of an instant on one integer axis; it orders well-formed
    instants like [dt_compare] does. *)
Definition date_key (t : datetime) : Z :=
  (year t * 13 + month t) * 32 + day t.

Definition instant_key (t : datetime) : Z :=
  (((date_key t * 24 + hour t) * 60 + minute t) * 60 + second t) * 1000000
  + microsecond t.

(** The recurrence kinds that repeat. *)
Definition recurring (kind : string) : Prop :=
  kind = "daily" \/ kind = "weekly" \/ kind = "monthly".

(** Valid recurrence parameters: a time of day ["HH:MM"] within the day
    (["09:00"] when absent), [day_of_week] in 1..7 for a weekly schedule,
    [day_of_month] in 1..31 for a monthly one (1 when absent). *)
Definition valid_time_of_day (sd : gmap string jval) : bool :=
  match hour_minute (get sd "time" (JStr "09:00")) with
  | Ok (h, mi) => (0 <=? h) && (h <=? 23) && (0 <=? mi) && (mi <=? 59)
  | Raise _ => false
  end.

Definition valid_day_of_week (sd : gmap string jval) : bool :=
  match get sd "day_of_week" (JInt 1) with
  | JInt d => (1 <=? d) && (d <=? 7)
  | _ => false
  end.

Definition valid_day_of_month (sd : gmap string jval) : bool :=
  match get sd "day_of_month" (JInt 1) with
  | JInt d => (1 <=? d) && (d <=? 31)
  | _ => false
  end.

Definition valid_params (kind : string) (sd : gmap string jval) : bool :=
  valid_time_of_day sd
  && (if String.eqb kind "weekly" then valid_day_of_week sd else true)
  && (if String.eqb kind "monthly" then valid_day_of_month sd else true).

(** ** Sample data *)

(** 2025-01-01 was a Wednesday. *)
Definition wednesday_9 : datetime := mk_datetime 2025 1 1 9 0 0 0.
Definition wednesday_10 : datetime := mk_datetime 2025 1 1 10 0 0 0.
Definition thursday_9 : datetime := mk_datetime 2025 1 2 9 0 0 0.
Definition next_wednesday_9 : datetime := mk_datetime 2025 1 8 9 0 0 0.
Definition february_10 : datetime := mk_datetime 2025 2 10 10 0 0 0.
Definition january_31 : datetime := mk_datetime 2025 1 31 10 0 0 0.
Definition january_30 : datetime := mk_datetime 2025 1 30 10 0 0 0.
Definition march_30 : datetime := mk_datetime 2025 3 30 10 0 0 0.
Definition april_30_9 : datetime := mk_datetime 2025 4 30 9 0 0 0.
Definition thursday_10 : datetime := mk_datetime 2025 1 2 10 0 0 0.
Definition friday_9 : datetime := mk_datetime 2025 1 3 9 0 0 0.

Definition three_items : list (gmap string string) :=
  [ {[ "title" := "first" ]}; {[ "title" := "second" ]};
    {[ "title" := "third" ]} ].

(** An active schedule of user 7 under key 1, targeting two platforms. *)
Definition sample_schedule (kind : string) (data : gmap string jval)
    (queue : list (gmap string string)) (cursor : Z)
    (next : option datetime) : Schedule.t :=
  {| Schedule.id := 1; Schedule.user_id := 7; Schedule.name := "sample";
     Schedule.is_active := true; Schedule.schedule_type := kind;
     Schedule.schedule_data := Some data;
     Schedule.content_queue := Some queue;
     Schedule.current_index := cursor;
     Schedule.target_platforms := Some ["twitter"; "facebook"];
     Schedule.last_executed := None;
     Schedule.next_execution := next |}.

Definition weekly_wednesday : Schedule.t :=
  sample_schedule "weekly"
    {[ "day_of_week" := JInt 3; "time" := JStr "09:00" ]}
    three_items 0 (Some wednesday_9).

Definition monthly_31 : Schedule.t :=
  sample_schedule "monthly"
    {[ "day_of_month" := JInt 31; "time" := JStr "09:00" ]}
    three_items 0 None.

Definition monthly_30 : Schedule.t :=
  sample_schedule "monthly"
    {[ "day_of_month" := JInt 30; "time" := JStr "09:00" ]}
    three_items 0 None.

Definition monthly_29 : Schedule.t :=
  sample_schedule "monthly"
    {[ "day_of_month" := JInt 29; "time" := JStr "09:00" ]}
    three_items 0 None.

Definition daily_9 : Schedule.t :=
  sample_schedule "daily" {[ "time" := JStr "09:00" ]} three_items 0 None.

(** A clock that reads Wednesday 10:00 at the first call and Thursday
    10:00 at every later one, and a clock that reads Wednesday 10:00 at
    its fourth call and Wednesday 09:00 otherwise. *)
Definition wednesday_then_thursday : Clock :=
  mk_clock (fun n => match n with O => wednesday_10 | S _ => thursday_10 end)
           0.

Definition wednesday_at_fourth_read : Clock :=
  mk_clock (fun n => if (n =? 3)%nat then wednesday_10 else wednesday_9) 3.

Definition custom_unparsable : Schedule.t :=
  sample_schedule "custom" {[ "cron" := JStr "not a cron expression" ]}
    three_items 0 None.

Definition once_schedule : Schedule.t :=
  sample_schedule "once" {[ "datetime" := JStr "2025-01-01T09:00:00" ]}
    three_items 0 (Some wednesday_9).

Definition sample_accounts : list SocialAccount.t :=
  [ SocialAccount.mk 1 7 "twitter" "tw" true;
    SocialAccount.mk 2 7 "facebook" "fb" true;
    SocialAccount.mk 3 7 "youtube" "yt" true ].

(** A database holding one schedule and no post yet. *)
Definition world_of (schedule : Schedule.t) : World :=
  mk_world [schedule] [] sample_accounts [].

(** A platform client for the examples: Facebook is rate limited,
    the other platforms accept the post. *)
Definition sample_post_content (platform : string) (_ : SocialAccount.t)
    (_ _ _ : string) : result (gmap string string) :=
  if String.eqb platform "facebook"
  then Raise (Exception "Rate limited. Retry after 60 seconds")
  else Ok {[ "post_id" := "42" ]}.

(** A parser for the examples that knows one text. *)
Definition sample_fromisoformat (s : string) : result datetime :=
  if String.eqb s "2025-01-01T09:00:00" then Ok wednesday_9
  else Raise ValueError.

(** The posts a run has added to the table. *)
Definition materialized (before after : World) : list Post.t :=
  drop (length (posts before)) (posts after).

(** The cursor step as the code performs it within [execute_schedule]:
    an index at or past the end restarts at 0, an index in
    [-len .. len-1] is taken modulo the length; the next cursor is the
    successor modulo the length. [None] stands for the empty queue. *)
Definition advance {A} (queue : list A) (cursor : Z) : option (A * Z) :=
  let len := Z.of_nat (length queue) in
  let start := if len <=? cursor then 0 else cursor mod len in
  match queue !! Z.to_nat start with
  | Some item => Some (item, (start + 1) mod len)
  | None => None
  end.

(** The cursor step as the specification words it:
    [item = queue[cursor mod len]], [next_cursor = (cursor + 1) mod len]. *)
Definition advance_modulo {A} (queue : list A) (cursor : Z)
    : option (A * Z) :=
  let len := Z.of_nat (length queue) in
  match queue !! Z.to_nat (cursor mod len) with
  | Some item => Some (item, (cursor + 1) mod len)
  | None => None
  end.

(** A schedule with a given queue and cursor, for the examples. *)
Definition rotating (queue : list (gmap string string)) (cursor : Z)
    : Schedule.t :=
  sample_schedule "daily" {[ "time" := JStr "09:00" ]} queue cursor
                  (Some wednesday_9).

(** A scheduled post of user 7 under key 1, and a database holding it. *)
Definition scheduled_post : Post.t :=
  Post.set_id 1 (new_post once_schedule {[ "title" := "first" ]} wednesday_9).

Definition world_with_post : World :=
  mk_world [] [scheduled_post] sample_accounts [].

Definition succeeded (r : posting_result) : Prop := r_status r = "success".
Definition has_failed (r : posting_result) : Prop := r_status r = "failed".

(** * Further operations of the scheduler *)

(** ** More [datetime] arithmetic *)

(** [t + timedelta(minutes=n)]. *)
Definition add_minutes (t : datetime) (n : Z) : result datetime :=
  let total := hour t * 60 + minute t + n in
  t' ← add_days t (total / 1440);
  Ok {| year := year t'; month := month t'; day := day t';
        hour := (total mod 1440) / 60; minute := (total mod 1440) mod 60;
        second := second t'; microsecond := microsecond t' |}.

(** Microseconds since the start of 0001-01-01; [(a - b).total_seconds()]
    is the difference of these, divided by 10^6. *)
Definition microseconds (t : datetime) : Z :=
  ((((toordinal t - 1) * 24 + hour t) * 60 + minute t) * 60 + second t)
  * 1000000 + microsecond t.

(** A comparison in a query filter with a nullable column on the left:
    [NULL] satisfies no comparison. *)
Definition sql_leb (a : option datetime) (b : datetime) : bool :=
  match a with Some t => dt_leb t b | None => false end.

Definition sql_ltb (a : option datetime) (b : datetime) : bool :=
  match a with Some t => dt_ltb t b | None => false end.

Definition sql_geb (a : option datetime) (b : datetime) : bool :=
  match a with Some t => dt_leb b t | None => false end.

(** ** Setters and rows used by the further operations *)

Definition set_content_queue (v : option (list (gmap string string)))
    (s : Schedule.t) : Schedule.t :=
  Schedule.mk (Schedule.id s) (Schedule.user_id s) (Schedule.name s)
              (Schedule.is_active s) (Schedule.schedule_type s)
              (Schedule.schedule_data s) v (Schedule.current_index s)
              (Schedule.target_platforms s) (Schedule.last_executed s)
              (Schedule.next_execution s).

Definition set_scheduled_time (v : option datetime) (p : Post.t) : Post.t :=
  Post.mk (Post.id p) (Post.user_id p) (Post.social_account_id p)
          (Post.title p) (Post.description p) (Post.file_path p)
          (Post.file_type p) v (Post.posted_at p) (Post.status p)
          (Post.platform_post_id p) (Post.platform_data p).

Definition set_platform_post_id (v : option string) (p : Post.t) : Post.t :=
  Post.mk (Post.id p) (Post.user_id p) (Post.social_account_id p)
          (Post.title p) (Post.description p) (Post.file_path p)
          (Post.file_type p) (Post.scheduled_time p) (Post.posted_at p)
          (Post.status p) v (Post.platform_data p).

Definition set_social_account_id (v : option Z) (p : Post.t) : Post.t :=
  Post.mk (Post.id p) (Post.user_id p) v
          (Post.title p) (Post.description p) (Post.file_path p)
          (Post.file_type p) (Post.scheduled_time p) (Post.posted_at p)
          (Post.status p) (Post.platform_post_id p) (Post.platform_data p).

(** [db.delete(schedule); db.commit()]: the row with the object's key
    goes. *)
Definition delete_schedule_row (schedule : Schedule.t) (w : World) : World :=
  mk_world (List.filter (fun s => negb (Schedule.id s =? Schedule.id schedule))
                        (schedules w))
           (posts w) (social_accounts w) (queue w).


(** ** The beat schedule and the messages of the further tasks *)

(** The arguments of a call of Celery's [crontab]; ["*"] where the call
    gives none. *)
Module Crontab.
Record t : Type := mk {
  minute : jval;
  hour : jval;
  day_of_week : jval;
  day_of_month : jval
}.
End Crontab.

(** An entry of [celery_app.conf.beat_schedule]. *)
Record beat_entry : Type := mk_beat_entry {
  beat_task : string;
  beat_crontab : Crontab.t;
  beat_args : list Z
}.

(** Messages and calls the further operations send: a task put on the
    broker with [delay] or with [apply_async(eta=...)], a function handed
    to FastAPI's [background_tasks.add_task], and the broadcast
    [celery_app.control.add_consumer]. *)
Inductive message : Type :=
| PostToPlatform (post_id : Z) (platform : string) (social_account_id : Z)
| PostToMultiplePlatformsAt (eta : datetime) (post_id : Z)
                            (platform_ids : list string)
| SchedulePostTask (post_id : Z) (platform_ids : list string)
                   (scheduled_time : datetime)
| CreateRecurringSchedule (schedule_id : Z)
| AddConsumer (queue_name : string).

(** The database and broker of [World], the messages above in the order
    sent, and the beat schedule of the process. *)
Record Runtime : Type := mk_runtime {
  world : World;
  sent : list message;
  beat_schedule : gmap string beat_entry
}.

Definition with_world (w : World) (rt : Runtime) : Runtime :=
  mk_runtime w (sent rt) (beat_schedule rt).

Definition send (m : message) (rt : Runtime) : Runtime :=
  mk_runtime (world rt) (sent rt ++ [m]) (beat_schedule rt).

Definition with_beat_schedule (b : gmap string beat_entry) (rt : Runtime)
    : Runtime :=
  mk_runtime (world rt) (sent rt) b.

(** app/tasks/celery_app.py: the periodic tasks configured at start. *)
Definition any : jval := JStr "*".

Definition initial_beat_schedule : gmap string beat_entry :=
  {[ "sync-analytics-hourly" :=
       mk_beat_entry "app.tasks.analytics_tasks.sync_all_analytics"
                     (Crontab.mk (JInt 0) any any any) [];
     "process-scheduled-posts" :=
       mk_beat_entry "app.tasks.posting_tasks.process_scheduled_posts"
                     (Crontab.mk any any any any) [];
     "cleanup-old-files" :=
       mk_beat_entry "app.tasks.file_tasks.cleanup_old_files"
                     (Crontab.mk (JInt 0) (JInt 2) any any) [];
     "daily-analytics-report" :=
       mk_beat_entry "app.tasks.analytics_tasks.generate_daily_report"
                     (Crontab.mk (JInt 0) (JInt 8) any any) [] ]}.

(** [f"schedule_{schedule_id}"] *)
Definition task_name (schedule_id : Z) : string :=
  "schedule_" +:+ pretty schedule_id.

(** ** app/tasks/scheduling_tasks.py: the queue, pause and resume *)

Record queue_update : Type := mk_queue_update {
  qu_schedule_id : Z;
  qu_content_count : nat;
  qu_current_index : Z
}.

(** [update_schedule_queue]: a missing schedule raises, and the rollback
    leaves the database as it was. *)
Definition update_schedule_queue (w : World) (schedule_id : Z)
    (new_content : list (gmap string string))
    : World * result queue_update :=
  match List.find (fun s => Schedule.id s =? schedule_id) (schedules w) with
  | None => (w, Raise (Exception "Schedule not found"))
  | Some schedule =>
    let schedule := set_content_queue (Some new_content) schedule in
    let schedule :=
      if Z.of_nat (length new_content) <=? Schedule.current_index schedule
      then Schedule.set_current_index 0 schedule
      else schedule in
    (commit_schedule schedule w,
     Ok (mk_queue_update schedule_id (length new_content)
                         (Schedule.current_index schedule)))
  end.

(** [pause_schedule]: the schedule is deactivated and committed, then its
    entry, if any, leaves the beat schedule. Returns the schedule's key. *)
Definition pause_schedule (rt : Runtime) (schedule_id : Z)
    : Runtime * result Z :=
  match List.find (fun s => Schedule.id s =? schedule_id)
                  (schedules (world rt)) with
  | None => (rt, Raise (Exception "Schedule not found"))
  | Some schedule =>
    let schedule := Schedule.set_is_active false schedule in
    let rt := with_world (commit_schedule schedule (world rt)) rt in
    let rt :=
      match beat_schedule rt !! task_name schedule_id with
      | Some _ =>
          with_beat_schedule (delete (task_name schedule_id)
                                     (beat_schedule rt)) rt
      | None => rt
      end in
    (rt, Ok schedule_id)
  end.

(** [resume_schedule]: the schedule is reactivated and gets a new
    [next_execution]; the commit comes after the calculation, so an
    exception of the calculator leaves the schedule paused. Then
    [create_recurring_schedule] is put on the broker. Returns the new
    [next_execution]. [now] is the instant the calculator reads. *)
Definition resume_schedule (rt : Runtime) (schedule_id : Z) (now : datetime)
    : Runtime * result datetime :=
  match List.find (fun s => Schedule.id s =? schedule_id)
                  (schedules (world rt)) with
  | None => (rt, Raise (Exception "Schedule not found"))
  | Some schedule =>
    let schedule := Schedule.set_is_active true schedule in
    match calculate_next_execution_time schedule now with
    | Raise e => (rt, Raise e)
    | Ok next =>
      let schedule := Schedule.set_next_execution (Some next) schedule in
      let rt := with_world (commit_schedule schedule (world rt)) rt in
      (send (CreateRecurringSchedule schedule_id) rt, Ok next)
    end
  end.

(** ** app/tasks/scheduling_tasks.py: [create_recurring_schedule] *)

Section beat.

(** Celery's [crontab] validates its arguments: [crontab_raises c] is the
    exception it raises for the arguments [c], if it raises. *)
Variable crontab_raises : Crontab.t -> option exn.

Definition crontab (c : Crontab.t) : result Crontab.t :=
  match crontab_raises c with
  | Some e => Raise e
  | None => Ok c
  end.

(** [schedule.schedule_data.get(key, dflt)]: there is no [or {}] here, a
    [NULL] column has no [get]. *)
Definition data_get (schedule : Schedule.t) (key : string) (dflt : jval)
    : result jval :=
  match Schedule.schedule_data schedule with
  | Some d => Ok (get d key dflt)
  | None => Raise AttributeError
  end.

(** Registers the periodic task of a daily, weekly or monthly schedule
    under [task_name]; for any other kind nothing is registered. The
    broadcast [add_consumer] follows in every case. Returns the task
    name. *)
Definition create_recurring_schedule (rt : Runtime) (schedule_id : Z)
    : Runtime * result string :=
  match List.find (fun s => Schedule.id s =? schedule_id)
                  (schedules (world rt)) with
  | None => (rt, Raise (Exception "Schedule not found"))
  | Some schedule =>
    let entry (c : Crontab.t) :=
      mk_beat_entry "app.tasks.posting_tasks.execute_schedule" c
                    [schedule_id] in
    let registered : result Runtime :=
      if String.eqb (Schedule.schedule_type schedule) "daily" then
        time_str ← data_get schedule "time" (JStr "09:00");
        '(hour, minute) ← hour_minute time_str;
        c ← crontab (Crontab.mk (JInt minute) (JInt hour) any any);
        Ok (with_beat_schedule
              (<[task_name schedule_id := entry c]> (beat_schedule rt)) rt)
      else if String.eqb (Schedule.schedule_type schedule) "weekly" then
        day_of_week ← data_get schedule "day_of_week" (JInt 1);
        time_str ← data_get schedule "time" (JStr "09:00");
        '(hour, minute) ← hour_minute time_str;
        c ← crontab (Crontab.mk (JInt minute) (JInt hour) day_of_week any);
        Ok (with_beat_schedule
              (<[task_name schedule_id := entry c]> (beat_schedule rt)) rt)
      else if String.eqb (Schedule.schedule_type schedule) "monthly" then
        day_of_month ← data_get schedule "day_of_month" (JInt 1);
        time_str ← data_get schedule "time" (JStr "09:00");
        '(hour, minute) ← hour_minute time_str;
        c ← crontab (Crontab.mk (JInt minute) (JInt hour) any day_of_month);
        Ok (with_beat_schedule
              (<[task_name schedule_id := entry c]> (beat_schedule rt)) rt)
      else Ok rt in
    match registered with
    | Raise e => (rt, Raise e)
    | Ok rt =>
        (send (AddConsumer (task_name schedule_id)) rt,
         Ok (task_name schedule_id))
    end
  end.

End beat.

(** ** app/tasks/scheduling_tasks.py: [cleanup_completed_schedules] *)

(** The filter [schedule_type == "once", next_execution < now - 1 hour,
    last_executed IS NOT NULL]. *)
Definition is_completed (threshold : datetime) (s : Schedule.t) : bool :=
  String.eqb (Schedule.schedule_type s) "once"
  && sql_ltb (Schedule.next_execution s) threshold
  && match Schedule.last_executed s with Some _ => true | None => false end.

(** Returns [deleted_count]. *)
Definition cleanup_completed_schedules (rt : Runtime) (now : datetime)
    : Runtime * result nat :=
  match add_hours now (-1) with
  | Raise e => (rt, Raise e)
  | Ok threshold =>
    let completed_schedules :=
      List.filter (is_completed threshold) (schedules (world rt)) in
    let rt :=
      foldl (fun rt schedule =>
               let rt :=
                 match beat_schedule rt !! task_name (Schedule.id schedule) with
                 | Some _ =>
                     with_beat_schedule
                       (delete (task_name (Schedule.id schedule))
                               (beat_schedule rt)) rt
                 | None => rt
                 end in
               with_world (delete_schedule_row schedule (world rt)) rt)
            rt completed_schedules in
    (rt, Ok (length completed_schedules))
  end.

(** ** app/tasks/scheduling_tasks.py: [schedule_post_task] *)

Inductive post_scheduling : Type :=
| PostedImmediately (post_id : Z) (scheduled_time : datetime)
| Scheduled (post_id : Z) (scheduled_time : datetime)
            (delay_microseconds : Z).

(** A time that has come is dispatched at once and the post is not
    touched; a future time is dispatched with [eta] and the post is marked
    [scheduled]. [now] is the instant read by [datetime.now()]. *)
Definition schedule_post_task (rt : Runtime) (post_id : Z)
    (platform_ids : list string) (scheduled_time now : datetime)
    : Runtime * result post_scheduling :=
  match List.find (fun p => Post.id p =? post_id) (posts (world rt)) with
  | None => (rt, Raise (Exception "Post not found"))
  | Some post =>
    if dt_leb scheduled_time now then
      (with_world (delay (PostToMultiplePlatforms post_id platform_ids)
                         (world rt)) rt,
       Ok (PostedImmediately post_id scheduled_time))
    else
      let delay_microseconds :=
        microseconds scheduled_time - microseconds now in
      let rt :=
        send (PostToMultiplePlatformsAt scheduled_time post_id platform_ids)
             rt in
      let post := Post.set_status "scheduled" post in
      let post := set_scheduled_time (Some scheduled_time) post in
      (with_world (commit_post post (world rt)) rt,
       Ok (Scheduled post_id scheduled_time delay_microseconds))
  end.

(** ** app/tasks/posting_tasks.py: [process_scheduled_posts] *)

(** The characters of a [str], one by one: what iterating it gives. In
    the UTF-8 encoding a character is a byte that is no continuation byte
    (128..191) with the continuation bytes after it. *)
Fixpoint characters_of (l : list ascii) : string * list string :=
  match l with
  | [] => (EmptyString, [])
  | c :: l' =>
      let '(continuation, chars) := characters_of l' in
      let n := Z.of_nat (nat_of_ascii c) in
      if (128 <=? n) && (n <=? 191) then (String c continuation, chars)
      else (EmptyString, String c continuation :: chars)
  end.

Definition characters (s : string) : list string :=
  snd (characters_of (list_ascii_of_string s)).

(** [(post.platform_data or {}).get('platforms', [])], as the list the
    receiving task iterates. *)
Definition requested_platforms (post : Post.t) : list string :=
  match Post.platform_data post with
  | Some (Platforms _ _ platforms) => platforms
  | Some (ServiceResult data) =>
      match data !! "platforms" with
      | Some s => characters s
      | None => []
      end
  | Some (PostingResults _) => []
  | None => []
  end.

(** The filter [status == "scheduled", scheduled_time <= now + 1 minute,
    scheduled_time >= now - 5 minutes]. *)
Definition in_window (not_before buffer_time : datetime) (p : Post.t) : bool :=
  String.eqb (Post.status p) "scheduled"
  && sql_leb (Post.scheduled_time p) buffer_time
  && sql_geb (Post.scheduled_time p) not_before.

(** The body of the loop: one post is handed to the task that posts it. *)
Definition process_one (rt : Runtime) (post : Post.t) : Runtime :=
  match requested_platforms post with
  | (_ :: _) as platforms =>
      with_world (delay (PostToMultiplePlatforms (Post.id post) platforms)
                        (world rt)) rt
  | [] =>
      match List.find (fun a => (SocialAccount.user_id a =? Post.user_id post)
                                && SocialAccount.is_active a)
                      (social_accounts (world rt)) with
      | Some social_account =>
          send (PostToPlatform (Post.id post)
                               (SocialAccount.platform social_account)
                               (SocialAccount.id social_account)) rt
      | None => rt
      end
  end.

(** Returns [processed_count]. *)
Definition process_scheduled_posts (rt : Runtime) (now : datetime)
    : Runtime * result nat :=
  match add_minutes now 1 with
  | Raise e => (rt, Raise e)
  | Ok buffer_time =>
    match add_minutes now (-5) with
    | Raise e => (rt, Raise e)
    | Ok not_before =>
      let scheduled_posts :=
        List.filter (in_window not_before buffer_time) (posts (world rt)) in
      (foldl process_one rt scheduled_posts, Ok (length scheduled_posts))
    end
  end.

(** ** app/tasks/posting_tasks.py: [post_to_platform] *)

Record platform_posting : Type := mk_platform_posting {
  pp_post_id : Z;
  pp_platform : string;
  pp_platform_post_id : option string;
  pp_posted_at : datetime
}.

(** [if post.platform_data:] -- [None] and the empty dictionary are
    false. *)
Definition has_platform_data (post : Post.t) : bool :=
  match Post.platform_data post with
  | None => false
  | Some (ServiceResult data) => negb (bool_decide (data = ∅))
  | Some _ => true
  end.

Section single_platform.

Variable post_content :
  string -> SocialAccount.t -> string -> string -> string ->
  result (gmap string string).

(** What the column holds once [post.platform_data.update(result)] has
    been committed. *)
Variable updated : platform_json -> gmap string string -> platform_json.

(** The [try] block up to the call of the platform client. *)
Definition post_content_of (post : option Post.t)
    (social_account : option SocialAccount.t) (platform : string)
    : result (gmap string string) :=
  match post, social_account with
  | Some post, Some social_account =>
      match get_platform_service post_content platform social_account with
      | None =>
          Raise (Exception ("Service not available for platform: "
                            +:+ platform))
      | Some service =>
          service (Post.file_path post) (Post.description post)
                  (Post.title post)
      end
  | _, _ => Raise (Exception "Post or social account not found")
  end.

(** The handler runs [post.status = "failed"] whenever the name [post] is
    bound, also when it is bound to [None]: then the assignment itself
    raises [AttributeError], which replaces the exception being handled.
    [now] is the instant read for [posted_at]. *)
Definition post_to_platform (w : World) (post_id : Z) (platform : string)
    (social_account_id : Z) (now : datetime)
    : World * result platform_posting :=
  let post := List.find (fun p => Post.id p =? post_id) (posts w) in
  let social_account :=
    List.find (fun a => SocialAccount.id a =? social_account_id)
              (social_accounts w) in
  match post_content_of post social_account platform, post with
  | Ok result, Some post =>
      let post := set_platform_post_id (result !! "post_id") post in
      let post := Post.set_posted_at (Some now) post in
      let post := Post.set_status "posted" post in
      let post := set_social_account_id (Some social_account_id) post in
      let post :=
        Post.set_platform_data
          (Some (match Post.platform_data post with
                 | Some data =>
                     if has_platform_data post then updated data result
                     else ServiceResult result
                 | None => ServiceResult result
                 end)) post in
      (commit_post post w,
       Ok (mk_platform_posting post_id platform (result !! "post_id") now))
  | Raise e, Some post =>
      (commit_post (Post.set_status "failed" post) w, Raise e)
  | _, None => (w, Raise AttributeError)
  end.

End single_platform.

(** ** app/api/scheduling.py: the endpoints *)

(** What an endpoint answers: a body, an [HTTPException], or an exception
    that nothing catches. *)
Inductive response (A : Type) : Type :=
| Respond (body : A)
| HTTPException (status_code : Z) (detail : string)
| Uncaught (e : exn).

Arguments Respond {A} body.
Arguments HTTPException {A} status_code detail.
Arguments Uncaught {A} e.


(** The request body [PostScheduleRequest]. *)
Record PostScheduleRequest : Type := mk_post_schedule_request {
  ps_post_id : Z;
  ps_platform_ids : list string;
  ps_scheduled_time : datetime;
  ps_caption : option string;
  ps_hashtags : option (list string)
}.


Section api_endpoints.

Variable fromisoformat : string -> result datetime.


End api_endpoints.

(** The query [Schedule.id == schedule_id, Schedule.user_id == user_id]. *)
Definition owned_schedule (w : World) (schedule_id user_id : Z)
    : option Schedule.t :=
  List.find (fun s => (Schedule.id s =? schedule_id)
                      && (Schedule.user_id s =? user_id)) (schedules w).

(** [toggle_schedule]: answers the new value of [is_active]. *)
Definition toggle_schedule (w : World) (schedule_id user_id : Z)
    : World * response bool :=
  match owned_schedule w schedule_id user_id with
  | None => (w, HTTPException 404 "Schedule not found")
  | Some schedule =>
    let schedule :=
      Schedule.set_is_active (negb (Schedule.is_active schedule)) schedule in
    (commit_schedule schedule w, Respond (Schedule.is_active schedule))
  end.

(** [delete_schedule] *)
Definition delete_schedule (w : World) (schedule_id user_id : Z)
    : World * response string :=
  match owned_schedule w schedule_id user_id with
  | None => (w, HTTPException 404 "Schedule not found")
  | Some schedule =>
    (delete_schedule_row schedule w, Respond "Schedule deleted successfully")
  end.

(** [schedule_single_post]: the post is marked [scheduled] with the
    platforms requested, and [schedule_post_task] is handed to the
    background tasks. *)
Definition schedule_single_post (rt : Runtime) (request : PostScheduleRequest)
    (user_id : Z) : Runtime * response Z :=
  match List.find (fun p => (Post.id p =? ps_post_id request)
                            && (Post.user_id p =? user_id))
                  (posts (world rt)) with
  | None => (rt, HTTPException 404 "Post not found")
  | Some post =>
    let post := set_scheduled_time (Some (ps_scheduled_time request)) post in
    let post := Post.set_status "scheduled" post in
    let post :=
      Post.set_platform_data
        (Some (Platforms (ps_caption request) (ps_hashtags request)
                         (ps_platform_ids request))) post in
    let rt := with_world (commit_post post (world rt)) rt in
    (send (SchedulePostTask (Post.id post) (ps_platform_ids request)
                            (ps_scheduled_time request)) rt,
     Respond (Post.id post))
  end.

(** ** app/api/scheduling.py: [generate_schedule_preview] *)

Record preview_item : Type := mk_preview_item {
  pv_scheduled_time : datetime;
  pv_content : gmap string string;
  pv_platforms : option (list string)
}.

(** The step after each previewed post: a day, a week, thirty days for a
    monthly schedule, nothing for the other kinds. *)
Definition preview_step (schedule_type : string) (current_time : datetime)
    : result datetime :=
  if String.eqb schedule_type "daily" then add_days current_time 1
  else if String.eqb schedule_type "weekly" then add_days current_time 7
  else if String.eqb schedule_type "monthly" then add_days current_time 30
  else Ok current_time.

(** The loop [for i in range(...)], from index [i], with [remaining]
    rounds to go. *)
Fixpoint preview_loop (schedule : Schedule.t)
    (content_queue : list (gmap string string)) (remaining : nat) (i : Z)
    (current_time : datetime) (preview : list preview_item)
    : result (list preview_item) :=
  match remaining with
  | O => Ok preview
  | S remaining =>
    content_item ←
      getitem content_queue
              ((Schedule.current_index schedule + i)
               mod Z.of_nat (length content_queue));
    let preview :=
      preview ++ [mk_preview_item current_time content_item
                                  (Schedule.target_platforms schedule)] in
    current_time ← preview_step (Schedule.schedule_type schedule) current_time;
    preview_loop schedule content_queue remaining (i + 1) current_time preview
  end.

(** [now] is read only when the schedule has no [next_execution]. *)
Definition generate_schedule_preview (schedule : Schedule.t) (days : Z)
    (now : datetime) : result (list preview_item) :=
  let current_time := default now (Schedule.next_execution schedule) in
  let content_queue := default [] (Schedule.content_queue schedule) in
  preview_loop schedule content_queue
               (Z.to_nat (Z.min days (Z.of_nat (length content_queue))))
               0 current_time [].

(** ** Vocabulary of the further properties *)

(** The cursor is an index of the queue, or 0 when the queue is empty. *)
Definition cursor_in_range (s : Schedule.t) : Prop :=
  0 <= Schedule.current_index s
  < Z.max 1 (Z.of_nat (length (default [] (Schedule.content_queue s)))).

(** The messages a run has put on the broker's queue. *)
Definition enqueued (before after : World) : list task :=
  drop (length (queue before)) (queue after).

(** A process that has just started, on a given database. *)
Definition runtime_of (w : World) : Runtime :=
  mk_runtime w [] initial_beat_schedule.

(** No two rows of the schedule table share a primary key. *)
Definition unique_schedule_ids (w : World) : Prop :=
  NoDup (Schedule.id <$> schedules w).

(** A post of user 7 scheduled through the API for Wednesday 10:00, on
    two platforms. *)
Definition api_scheduled_post : Post.t :=
  Post.set_platform_data
    (Some (Platforms None None ["twitter"; "facebook"]))
    (set_scheduled_time (Some wednesday_10) scheduled_post).

Definition runtime_with_post : Runtime :=
  runtime_of (mk_world [] [api_scheduled_post] sample_accounts []).

(** The days [generate_schedule_preview] puts between two previewed
    posts. *)
Definition preview_period (schedule_type : string) : Z :=
  if String.eqb schedule_type "daily" then 1
  else if String.eqb schedule_type "weekly" then 7
  else if String.eqb schedule_type "monthly" then 30
  else 0.

(** ** app/tasks/scheduling_tasks.py: [bulk_schedule_posts] *)

(** The dictionary [schedule_config], by the three keys read;
    [interval_minutes] is taken to be an [int]. *)
Record bulk_config : Type := mk_bulk_config {
  bc_start_time : option string;
  bc_interval_minutes : option Z;
  bc_platforms : option (list string)
}.

Record scheduled_entry : Type := mk_scheduled_entry {
  se_post_id : Z;
  se_scheduled_time : datetime;
  se_platforms : list string
}.

Record failed_entry : Type := mk_failed_entry {
  fe_post_id : Z;
  fe_error : error_detail
}.

Record bulk_scheduling : Type := mk_bulk_scheduling {
  b_scheduled_posts : list scheduled_entry;
  b_failed_posts : list failed_entry;
  b_success_count : nat;
  b_failure_count : nat
}.

(** The loop [for i, post_id in enumerate(post_ids)], from index [i] on:
    an exception of the time computation is caught and recorded for that
    post, and the loop goes on. *)
Fixpoint bulk_loop (base_time : datetime) (interval_minutes : Z)
    (platforms : list string) (i : Z) (post_ids : list Z) (rt : Runtime)
    (scheduled_posts : list scheduled_entry)
    (failed_posts : list failed_entry)
    : Runtime * list scheduled_entry * list failed_entry :=
  match post_ids with
  | [] => (rt, scheduled_posts, failed_posts)
  | post_id :: post_ids =>
    match add_minutes base_time (i * interval_minutes) with
    | Ok scheduled_time =>
        bulk_loop base_time interval_minutes platforms (i + 1) post_ids
          (send (SchedulePostTask post_id platforms scheduled_time) rt)
          (scheduled_posts
             ++ [mk_scheduled_entry post_id scheduled_time platforms])
          failed_posts
    | Raise e =>
        bulk_loop base_time interval_minutes platforms (i + 1) post_ids rt
          scheduled_posts
          (failed_posts ++ [mk_failed_entry post_id (ErrorOf e)])
    end
  end.

Section bulk.

Variable fromisoformat : string -> result datetime.

(** [datetime.fromisoformat(schedule_config.get('start_time'))]: without
    the key the argument is [None], a [TypeError]. *)
Definition base_time_of (schedule_config : bulk_config) : result datetime :=
  match bc_start_time schedule_config with
  | Some s => fromisoformat s
  | None => Raise TypeError
  end.

Definition bulk_schedule_posts (rt : Runtime) (post_ids : list Z)
    (schedule_config : bulk_config) : Runtime * result bulk_scheduling :=
  match base_time_of schedule_config with
  | Raise e => (rt, Raise e)
  | Ok base_time =>
    let interval_minutes := default 60 (bc_interval_minutes schedule_config) in
    let platforms := default [] (bc_platforms schedule_config) in
    let '(rt, scheduled_posts, failed_posts) :=
      bulk_loop base_time interval_minutes platforms 0 post_ids rt [] [] in
    (rt, Ok (mk_bulk_scheduling scheduled_posts failed_posts
                                (length scheduled_posts)
                                (length failed_posts)))
  end.

End bulk.

(** The message [schedule_post_task.delay] sends for an entry. *)
Definition message_of (entry : scheduled_entry) : message :=
  SchedulePostTask (se_post_id entry) (se_platforms entry)
                   (se_scheduled_time entry).

(** * Properties *)

(** ** Calendar facts *)

Lemma days_in_month_bounds y m : 28 <= days_in_month y m <= 31.
Proof.
  unfold days_in_month.
  repeat match goal with |- context [if ?b then _ else _] => destruct b end;
    lia.
Qed.

Lemma well_formed_bounds t :
  well_formed t = true ->
  (MINYEAR <= year t <= MAXYEAR) /\ (1 <= month t <= 12) /\
  (1 <= day t <= days_in_month (year t) (month t)) /\
  (0 <= hour t <= 23) /\ (0 <= minute t <= 59) /\
  (0 <= second t <= 59) /\ (0 <= microsecond t <= 999999).
Proof.
  unfold well_formed, check_date_fields, check_time_fields.
  rewrite !andb_true_iff, !Z.leb_le. lia.
Qed.

Lemma well_formed_intro y m d h mi s us :
  MINYEAR <= y <= MAXYEAR -> 1 <= m <= 12 -> 1 <= d <= days_in_month y m ->
  0 <= h <= 23 -> 0 <= mi <= 59 -> 0 <= s <= 59 -> 0 <= us <= 999999 ->
  well_formed (mk_datetime y m d h mi s us) = true.
Proof.
  intros. unfold well_formed, check_date_fields, check_time_fields. simpl.
  rewrite !andb_true_iff, !Z.leb_le. lia.
Qed.

(** On well-formed instants the lexicographic comparison is the
    comparison of keys. *)
Lemma dt_compare_key a b :
  well_formed a = true -> well_formed b = true ->
  dt_compare a b = (instant_key a ?= instant_key b).
Proof.
  intros Ha Hb.
  apply well_formed_bounds in Ha, Hb.
  pose proof (days_in_month_bounds (year a) (month a)).
  pose proof (days_in_month_bounds (year b) (month b)).
  unfold dt_compare, instant_key, date_key.
  repeat match goal with
         | |- context [?x ?= ?y] =>
             lazymatch x with
             | context [Z.mul] => fail
             | _ => destruct (Z.compare_spec x y)
             end
         end;
    symmetry;
    first [ apply Z.compare_eq_iff | apply Z.compare_lt_iff
          | apply Z.compare_gt_iff ]; lia.
Qed.

Lemma dt_ltb_key a b :
  well_formed a = true -> well_formed b = true ->
  dt_ltb a b = true <-> instant_key a < instant_key b.
Proof.
  intros Ha Hb. unfold dt_ltb. rewrite (dt_compare_key a b Ha Hb).
  destruct (Z.compare_spec (instant_key a) (instant_key b)); split;
    intros; try lia; try discriminate; reflexivity.
Qed.

Lemma dt_leb_key a b :
  well_formed a = true -> well_formed b = true ->
  dt_leb a b = true <-> instant_key a <= instant_key b.
Proof.
  intros Ha Hb. unfold dt_leb. rewrite (dt_compare_key a b Ha Hb).
  destruct (Z.compare_spec (instant_key a) (instant_key b)); split;
    intros; try lia; try discriminate; reflexivity.
Qed.

(** A later calendar date is a later instant, whatever the times of day. *)
Lemma later_date_later_instant a b :
  well_formed a = true -> well_formed b = true ->
  date_key a < date_key b -> dt_ltb a b = true.
Proof.
  intros Ha Hb Hd. apply dt_ltb_key; auto.
  apply well_formed_bounds in Ha, Hb. unfold instant_key. lia.
Qed.

Lemma replace_Ok t y m d h mi s us t' :
  replace t y m d h mi s us = Ok t' ->
  t' = {| year := default (year t) y; month := default (month t) m;
          day := default (day t) d; hour := default (hour t) h;
          minute := default (minute t) mi; second := default (second t) s;
          microsecond := default (microsecond t) us |}
  /\ well_formed t' = true.
Proof.
  unfold replace.
  destruct (fits_c_int y && _ && _ && _ && _ && _ && _); [|discriminate].
  destruct (well_formed _) eqn:Hwf; intros H; inversion H; subst; auto.
Qed.

Lemma fits_c_int_default v d lo hi :
  lo <= default d v <= hi -> -2147483648 <= lo -> hi <= 2147483647 ->
  fits_c_int v = true.
Proof.
  destruct v as [z|]; simpl; [|reflexivity].
  intros. apply andb_true_iff. rewrite !Z.leb_le. lia.
Qed.

Lemma replace_well_formed t y m d h mi s us :
  well_formed {| year := default (year t) y; month := default (month t) m;
                 day := default (day t) d; hour := default (hour t) h;
                 minute := default (minute t) mi;
                 second := default (second t) s;
                 microsecond := default (microsecond t) us |} = true ->
  replace t y m d h mi s us =
  Ok {| year := default (year t) y; month := default (month t) m;
        day := default (day t) d; hour := default (hour t) h;
        minute := default (minute t) mi; second := default (second t) s;
        microsecond := default (microsecond t) us |}.
Proof.
  intros Hwf. unfold replace. rewrite Hwf.
  apply well_formed_bounds in Hwf. simpl in Hwf.
  destruct Hwf as (Hy & Hm & Hd & Hh & Hmi & Hs & Hus).
  pose proof (days_in_month_bounds (default (year t) y)
                                   (default (month t) m)) as Hdim.
  unfold MINYEAR, MAXYEAR in Hy.
  rewrite (fits_c_int_default y _ _ _ Hy) by lia.
  rewrite (fits_c_int_default m _ _ _ Hm) by lia.
  rewrite (fits_c_int_default d (day t) 1 31) by lia.
  rewrite (fits_c_int_default h _ _ _ Hh) by lia.
  rewrite (fits_c_int_default mi _ _ _ Hmi) by lia.
  rewrite (fits_c_int_default s _ _ _ Hs) by lia.
  rewrite (fits_c_int_default us _ _ _ Hus) by lia.
  reflexivity.
Qed.

(** The next day is a well-formed instant on a later date, at the same
    time of day. *)
Lemma next_day_Ok t t' :
  well_formed t = true -> next_day t = Ok t' ->
  well_formed t' = true /\ date_key t < date_key t' /\
  hour t' = hour t /\ minute t' = minute t /\ second t' = second t /\
  microsecond t' = microsecond t.
Proof.
  intros Hwf. apply well_formed_bounds in Hwf. unfold next_day.
  pose proof (days_in_month_bounds (year t) (month t)).
  pose proof (days_in_month_bounds (year t) (month t + 1)).
  pose proof (days_in_month_bounds (year t + 1) 1).
  unfold MINYEAR, MAXYEAR in *.
  repeat match goal with
         | |- context [?x <? ?y] => destruct (Z.ltb_spec x y)
         end;
    intros Hnext; inversion Hnext; subst; clear Hnext; unfold date_key; simpl;
    (split; [apply well_formed_intro; unfold MINYEAR, MAXYEAR; lia | lia]).
Qed.

Lemma next_day_total t :
  well_formed t = true -> year t < MAXYEAR -> is_ok (next_day t) = true.
Proof.
  intros _ Hy. unfold next_day.
  repeat match goal with
         | |- context [?x <? ?y] => destruct (Z.ltb_spec x y)
         end; try reflexivity; lia.
Qed.

Lemma next_day_year t t' :
  well_formed t = true -> next_day t = Ok t' -> year t' <= year t + 1.
Proof.
  intros _. unfold next_day.
  repeat match goal with
         | |- context [?x <? ?y] => destruct (Z.ltb_spec x y)
         end; intros Hnext; inversion Hnext; subst; simpl; lia.
Qed.

(** One or more days ahead is a later date, at the same time of day. *)
Lemma iterate_next_day_Ok n t t' :
  well_formed t = true -> iterate next_day (S n) t = Ok t' ->
  well_formed t' = true /\ date_key t < date_key t' /\
  hour t' = hour t /\ minute t' = minute t /\ second t' = second t /\
  microsecond t' = microsecond t.
Proof.
  revert t. induction n as [|n IH]; intros t Hwf.
  - simpl. destruct (next_day t) as [u|] eqn:Hu; [|discriminate].
    simpl. intros Hnext; inversion Hnext; subst. eapply next_day_Ok; eauto.
  - change (iterate next_day (S (S n)) t)
      with (u ← next_day t; iterate next_day (S n) u).
    destruct (next_day t) as [u|] eqn:Hu; [|discriminate].
    destruct (next_day_Ok t u Hwf Hu) as (Hwu & Hlt & Hh & Hm & Hs & Hus).
    intros H. destruct (IH u Hwu H) as (Hw' & Hlt' & Hh' & Hm' & Hs' & Hus').
    repeat split; auto; try congruence; lia.
Qed.

Lemma add_days_positive t n t' :
  well_formed t = true -> 1 <= n -> add_days t n = Ok t' ->
  well_formed t' = true /\ date_key t < date_key t' /\
  hour t' = hour t /\ minute t' = minute t /\ second t' = second t /\
  microsecond t' = microsecond t.
Proof.
  intros Hwf Hn. unfold add_days.
  destruct (999999999 <? Z.abs n); [discriminate|].
  destruct (Z.leb_spec 0 n); [|lia].
  destruct (Z.to_nat n) as [|k] eqn:Hk; [lia|].
  apply iterate_next_day_Ok; auto.
Qed.

(** Days ahead exist as long as the calendar does: every step advances
    the year by at most one. *)
Lemma iterate_next_day_total n t :
  well_formed t = true -> year t + Z.of_nat n <= MAXYEAR ->
  exists t', iterate next_day n t = Ok t' /\ well_formed t' = true.
Proof.
  revert t. induction n as [|n IH]; intros t Hwf Hy.
  - exists t. split; [reflexivity | assumption].
  - change (iterate next_day (S n) t)
      with (u ← next_day t; iterate next_day n u).
    assert (Hlt : year t < MAXYEAR) by lia.
    pose proof (next_day_total t Hwf Hlt) as Hok.
    destruct (next_day t) as [u|] eqn:Hu; [|discriminate].
    destruct (next_day_Ok t u Hwf Hu) as (Hwu & _).
    pose proof (next_day_year t u Hwf Hu).
    apply IH; [assumption | lia].
Qed.

(** ** The recurrence calculators *)

Lemma bind_Ok {A B} (m : result A) (f : A -> result B) b :
  (m ≫= f) = Ok b -> exists a, m = Ok a /\ f a = Ok b.
Proof. destruct m as [a|e]; simpl; [eauto | discriminate]. Qed.


Lemma weekday_range t : 0 <= weekday t <= 6.
Proof.
  unfold weekday.
  pose proof (Z.mod_pos_bound (toordinal t + 6) 7). lia.
Qed.

Lemma daily_after_now s now t :
  well_formed now = true -> Schedule.schedule_type s = "daily" ->
  calculate_next_execution_time s now = Ok t -> dt_ltb now t = true.
Proof.
  intros Hwf Hk. unfold calculate_next_execution_time. rewrite Hk.
  cbn [String.eqb Ascii.eqb Bool.eqb].
  intros H. apply bind_Ok in H as ([h mi] & _ & H).
  apply bind_Ok in H as (next_run & Hrep & H).
  apply replace_Ok in Hrep as [Hnext Hwn]. simpl in Hnext.
  destruct (dt_leb next_run now) eqn:Hle.
  - destruct (add_days_positive next_run 1 t Hwn ltac:(lia) H)
      as (Hwt & Hlt & _).
    apply later_date_later_instant; auto.
    subst next_run. unfold date_key in *. simpl in Hlt. lia.
  - inversion H; subst t. clear H.
    apply dt_ltb_key; auto.
    destruct (Z.le_gt_cases (instant_key next_run) (instant_key now))
      as [Hc | Hc]; [|lia].
    apply (dt_leb_key next_run now Hwn Hwf) in Hc. congruence.
Qed.

Lemma weekly_after_now s now t :
  well_formed now = true -> Schedule.schedule_type s = "weekly" ->
  valid_day_of_week (default ∅ (Schedule.schedule_data s)) = true ->
  calculate_next_execution_time s now = Ok t -> dt_ltb now t = true.
Proof.
  intros Hwf Hk Hdow. unfold calculate_next_execution_time. rewrite Hk.
  cbn [String.eqb Ascii.eqb Bool.eqb].
  intros H. apply bind_Ok in H as ([h mi] & _ & H).
  apply bind_Ok in H as (dow & Hint & H).
  apply bind_Ok in H as (next_run & Hadd & Hrep).
  unfold valid_day_of_week in Hdow.
  destruct (get _ "day_of_week" _) as [|d|]; try discriminate.
  simpl in Hint. inversion Hint; subst dow. clear Hint.
  apply andb_true_iff in Hdow as [Hd1 Hd7].
  apply Z.leb_le in Hd1, Hd7.
  pose proof (weekday_range now) as Hwd.
  assert (Hpos : 1 <= (if d - weekday now <=? 0 then d - weekday now + 7
                       else d - weekday now)).
  { destruct (Z.leb_spec (d - weekday now) 0); lia. }
  destruct (add_days_positive now _ next_run Hwf Hpos Hadd)
    as (Hwn & Hlt & _).
  apply replace_Ok in Hrep as [Ht Hwt]. simpl in Ht.
  apply later_date_later_instant; auto.
  subst t. unfold date_key in *. simpl. lia.
Qed.

Lemma monthly_after_now s now t :
  well_formed now = true -> Schedule.schedule_type s = "monthly" ->
  calculate_next_execution_time s now = Ok t -> dt_ltb now t = true.
Proof.
  intros Hwf Hk. unfold calculate_next_execution_time. rewrite Hk.
  cbn [String.eqb Ascii.eqb Bool.eqb].
  intros H. apply bind_Ok in H as ([h mi] & _ & H).
  apply bind_Ok in H as (dom & _ & H).
  apply bind_Ok in H as (next_run & Hrep & H).
  apply replace_Ok in Hrep as [Hnext Hwn]. simpl in Hnext.
  pose proof (well_formed_bounds now Hwf) as Hb.
  pose proof (well_formed_bounds next_run Hwn) as Hbn.
  pose proof (days_in_month_bounds (year now) (month now)) as Hdim.
  destruct (dt_leb next_run now) eqn:Hle.
  - assert (Hroll : well_formed t = true /\ date_key now < date_key t).
    { destruct (month now =? 12) eqn:Hdec;
        apply replace_Ok in H as [Ht Hwt]; simpl in Ht;
        (split; [assumption|]);
        pose proof (well_formed_bounds t Hwt) as Hbt;
        subst t next_run; unfold date_key in *; simpl in *; lia. }
    destruct Hroll. apply later_date_later_instant; auto.
  - inversion H; subst t. clear H.
    apply dt_ltb_key; auto.
    destruct (Z.le_gt_cases (instant_key next_run) (instant_key now))
      as [Hc | Hc]; [|lia].
    apply (dt_leb_key next_run now Hwn Hwf) in Hc. congruence.
Qed.

Lemma valid_time_of_day_Ok sd :
  valid_time_of_day sd = true ->
  exists h mi, hour_minute (get sd "time" (JStr "09:00")) = Ok (h, mi)
               /\ 0 <= h <= 23 /\ 0 <= mi <= 59.
Proof.
  unfold valid_time_of_day.
  destruct (hour_minute _) as [[h mi]|]; [|discriminate].
  rewrite !andb_true_iff, !Z.leb_le. intros. exists h, mi.
  split; [reflexivity | lia].
Qed.

Lemma replace_time_total t h mi :
  well_formed t = true -> 0 <= h <= 23 -> 0 <= mi <= 59 ->
  replace t None None None (Some h) (Some mi) (Some 0) (Some 0)
  = Ok (mk_datetime (year t) (month t) (day t) h mi 0 0).
Proof.
  intros Hwf Hh Hmi. apply well_formed_bounds in Hwf.
  apply replace_well_formed. simpl.
  apply well_formed_intro; lia.
Qed.

Lemma add_days_total t n :
  well_formed t = true -> 0 <= n -> year t + n <= MAXYEAR ->
  exists t', add_days t n = Ok t' /\ well_formed t' = true.
Proof.
  intros Hwf Hn Hy. unfold add_days.
  pose proof (well_formed_bounds t Hwf) as Hb.
  unfold MINYEAR, MAXYEAR in *.
  destruct (Z.ltb_spec 999999999 (Z.abs n)); [lia|].
  destruct (Z.leb_spec 0 n); [|lia].
  apply iterate_next_day_total; auto. unfold MAXYEAR. lia.
Qed.

(** Away from the end of the calendar a daily schedule has a next run. *)
Lemma daily_returns s now :
  well_formed now = true -> Schedule.schedule_type s = "daily" ->
  valid_time_of_day (default ∅ (Schedule.schedule_data s)) = true ->
  year now + 7 <= MAXYEAR ->
  exists t, calculate_next_execution_time s now = Ok t.
Proof.
  intros Hwf Hk Hv Hy. unfold calculate_next_execution_time. rewrite Hk.
  cbn [String.eqb Ascii.eqb Bool.eqb].
  destruct (valid_time_of_day_Ok _ Hv) as (h & mi & -> & Hh & Hmi).
  simpl. rewrite (replace_time_total now h mi Hwf Hh Hmi). simpl.
  destruct (dt_leb _ now); [|eauto].
  pose proof (well_formed_bounds now Hwf) as Hb.
  destruct (add_days_total (mk_datetime (year now) (month now) (day now)
                                        h mi 0 0) 1)
    as (t & Ht & _); eauto; simpl; try lia.
  apply well_formed_intro; lia.
Qed.

(** Away from the end of the calendar a weekly schedule has a next run. *)
Lemma weekly_returns s now :
  well_formed now = true -> Schedule.schedule_type s = "weekly" ->
  valid_time_of_day (default ∅ (Schedule.schedule_data s)) = true ->
  valid_day_of_week (default ∅ (Schedule.schedule_data s)) = true ->
  year now + 7 <= MAXYEAR ->
  exists t, calculate_next_execution_time s now = Ok t.
Proof.
  intros Hwf Hk Hv Hdow Hy. unfold calculate_next_execution_time. rewrite Hk.
  cbn [String.eqb Ascii.eqb Bool.eqb].
  destruct (valid_time_of_day_Ok _ Hv) as (h & mi & -> & Hh & Hmi).
  unfold valid_day_of_week in Hdow.
  destruct (get _ "day_of_week" _) as [|d|]; try discriminate.
  apply andb_true_iff in Hdow as [Hd1 Hd7].
  apply Z.leb_le in Hd1, Hd7.
  pose proof (weekday_range now) as Hwd. simpl.
  destruct (add_days_total now
              (if d - weekday now <=? 0 then d - weekday now + 7
               else d - weekday now) Hwf)
    as (u & -> & Hwu).
  - destruct (Z.leb_spec (d - weekday now) 0); lia.
  - destruct (Z.leb_spec (d - weekday now) 0); lia.
  - simpl. rewrite (replace_time_total u h mi Hwu Hh Hmi). eauto.
Qed.

(** Where the day exists in every month, a monthly schedule has a next
    run. *)
Lemma monthly_returns s now d :
  well_formed now = true -> Schedule.schedule_type s = "monthly" ->
  valid_time_of_day (default ∅ (Schedule.schedule_data s)) = true ->
  get (default ∅ (Schedule.schedule_data s)) "day_of_month" (JInt 1)
    = JInt d ->
  1 <= d <= 28 -> year now < MAXYEAR ->
  exists t, calculate_next_execution_time s now = Ok t.
Proof.
  intros Hwf Hk Hv Hd Hrange Hy.
  unfold calculate_next_execution_time. rewrite Hk.
  cbn [String.eqb Ascii.eqb Bool.eqb].
  destruct (valid_time_of_day_Ok _ Hv) as (h & mi & -> & Hh & Hmi).
  rewrite Hd. simpl.
  pose proof (well_formed_bounds now Hwf) as Hb.
  unfold MINYEAR, MAXYEAR in *.
  pose proof (days_in_month_bounds (year now) (month now)).
  rewrite replace_well_formed
    by (simpl; apply well_formed_intro; unfold MINYEAR, MAXYEAR; lia).
  simpl. destruct (dt_leb _ now); [|eauto].
  destruct (Z.eqb_spec (month now) 12).
  - pose proof (days_in_month_bounds (year now + 1) 1).
    rewrite replace_well_formed
      by (simpl; apply well_formed_intro; unfold MINYEAR, MAXYEAR; lia).
    eauto.
  - pose proof (days_in_month_bounds (year now) (month now + 1)).
    rewrite replace_well_formed
      by (simpl; apply well_formed_intro; unfold MINYEAR, MAXYEAR; lia).
    eauto.
Qed.

(** C4. A monthly schedule with [day_of_month = 30] and time 09:00, which
    are valid parameters, evaluated on 2025-01-30 at 10:00: the instant of
    this month has passed, the calculators move to February, and
    [replace(month=2)] on the 30th raises [ValueError]. Neither the
    calculator of the task nor the one of the API computes an instant,
    and so none after [now]; likewise with [day_of_month = 29] on
    2025-02-10, where [replace(day=29)] already raises. With the same
    parameters on 2025-03-30 at 10:00, where the following month has a
    30th, both compute 2025-04-30 09:00, which is after [now]. *)
Theorem monthly_day_30_has_no_instant_after_january_30 fromisoformat :
  valid_params "monthly"
    {[ "day_of_month" := JInt 30; "time" := JStr "09:00" ]} = true
  /\ well_formed january_30 = true
  /\ calculate_next_execution_time monthly_30 january_30 = Raise ValueError
  /\ calculate_next_execution fromisoformat "monthly"
       {[ "day_of_month" := JInt 30; "time" := JStr "09:00" ]} january_30
     = Raise ValueError
  /\ ~ (exists t, calculate_next_execution_time monthly_30 january_30 = Ok t
                  /\ dt_ltb january_30 t = true)
  /\ valid_params "monthly"
       {[ "day_of_month" := JInt 29; "time" := JStr "09:00" ]} = true
  /\ calculate_next_execution_time monthly_29 february_10 = Raise ValueError
  /\ calculate_next_execution fromisoformat "monthly"
       {[ "day_of_month" := JInt 29; "time" := JStr "09:00" ]} february_10
     = Raise ValueError
  /\ calculate_next_execution_time monthly_30 march_30 = Ok april_30_9
  /\ calculate_next_execution fromisoformat "monthly"
       {[ "day_of_month" := JInt 30; "time" := JStr "09:00" ]} march_30
     = Ok april_30_9
  /\ dt_ltb march_30 april_30_9 = true.
Proof.
  repeat split; try (vm_compute; reflexivity).
  intros (t & Ht & _). vm_compute in Ht. discriminate.
Qed.

(** C5. A weekly schedule with [day_of_week = 3] (Wednesday, counting
    Monday as 1 as the source documents) and time 09:00, evaluated on a
    Wednesday at 10:00: [now.weekday()] is 2 on a Wednesday, so
    [days_ahead] is 1 and both calculators answer Thursday 09:00, one day
    later, and not the following Wednesday 09:00. *)
Theorem weekly_same_weekday_lands_on_next_day fromisoformat :
  weekday wednesday_10 = 2 /\
  calculate_next_execution_time weekly_wednesday wednesday_10
    = Ok thursday_9 /\
  calculate_next_execution fromisoformat "weekly"
    {[ "day_of_week" := JInt 3; "time" := JStr "09:00" ]} wednesday_10
    = Ok thursday_9 /\
  weekday thursday_9 = 3 /\
  add_days wednesday_9 7 = Ok next_wednesday_9 /\
  thursday_9 <> next_wednesday_9.
Proof.
  repeat split; try (vm_compute; reflexivity). discriminate.
Qed.

(** C9, as stated, fails: the calculators take no [now], they read the
    wall clock themselves. Two invocations with the same kind and the same
    parameters, one when the clock reads Wednesday 10:00 and the next when
    it reads Thursday 10:00, give different results. *)
Lemma same_kind_and_params_differ_as_clock_advances :
  let first := Clocked.calculate_next_execution_time daily_9
                 wednesday_then_thursday in
  let second := Clocked.calculate_next_execution_time daily_9 (snd first) in
  let first_api :=
    Clocked.calculate_next_execution sample_fromisoformat "daily"
      {[ "time" := JStr "09:00" ]} wednesday_then_thursday in
  let second_api :=
    Clocked.calculate_next_execution sample_fromisoformat "daily"
      {[ "time" := JStr "09:00" ]} (snd first_api) in
  fst first = Ok thursday_9 /\ fst second = Ok friday_9
  /\ fst first <> fst second
  /\ fst first_api = Ok thursday_9 /\ fst second_api = Ok friday_9
  /\ fst first_api <> fst second_api.
Proof. repeat split; try (vm_compute; reflexivity); discriminate. Qed.

(** C9, amended. Each calculator reads the wall clock exactly once, on
    entry, and its result is a function of the kind, the parameters and
    that one reading: two invocations that agree on the kind and the
    parameters, made when the clock reads the same instant, give the same
    result, whatever the other fields of the schedule, the earlier and
    later readings of the clock and the number of reads before. *)
Theorem recurrence_determined_by_kind_params_and_clock_reading
    fromisoformat s1 s2 c1 c2 :
  Schedule.schedule_type s1 = Schedule.schedule_type s2 ->
  default ∅ (Schedule.schedule_data s1)
    = default ∅ (Schedule.schedule_data s2) ->
  readings c1 (reads c1) = readings c2 (reads c2) ->
  let run1 := Clocked.calculate_next_execution_time s1 c1 in
  let run2 := Clocked.calculate_next_execution_time s2 c2 in
  let api1 :=
    Clocked.calculate_next_execution fromisoformat
      (Schedule.schedule_type s1) (default ∅ (Schedule.schedule_data s1))
      c1 in
  let api2 :=
    Clocked.calculate_next_execution fromisoformat
      (Schedule.schedule_type s2) (default ∅ (Schedule.schedule_data s2))
      c2 in
  fst run1 = fst run2
  /\ fst api1 = fst api2
  /\ fst run1 = calculate_next_execution_time s1 (readings c1 (reads c1))
  /\ fst api1
     = calculate_next_execution fromisoformat (Schedule.schedule_type s1)
         (default ∅ (Schedule.schedule_data s1)) (readings c1 (reads c1))
  /\ reads (snd run1) = S (reads c1) /\ readings (snd run1) = readings c1
  /\ reads (snd api1) = S (reads c1) /\ readings (snd api1) = readings c1.
Proof.
  intros Hkind Hdata Hnow run1 run2 api1 api2.
  subst run1 run2 api1 api2.
  unfold Clocked.calculate_next_execution_time,
    Clocked.calculate_next_execution, datetime_now.
  cbn [fst snd reads readings].
  rewrite Hnow, Hkind, Hdata. repeat split.
  unfold calculate_next_execution_time. rewrite Hkind, Hdata. reflexivity.
Qed.

Lemma recurrence_determined_by_kind_params_and_clock_reading_witness :
  fst (Clocked.calculate_next_execution_time weekly_wednesday
         wednesday_then_thursday)
  = fst (Clocked.calculate_next_execution_time
           (Schedule.set_current_index 2
              (Schedule.set_is_active false
                 (Schedule.set_last_executed (Some wednesday_9)
                    weekly_wednesday)))
           wednesday_at_fourth_read).
Proof.
  apply (proj1 (recurrence_determined_by_kind_params_and_clock_reading
                  sample_fromisoformat weekly_wednesday
                  (Schedule.set_current_index 2
                     (Schedule.set_is_active false
                        (Schedule.set_last_executed (Some wednesday_9)
                           weekly_wednesday)))
                  wednesday_then_thursday wednesday_at_fourth_read
                  eq_refl eq_refl eq_refl)).
Defined.

(** ** Custom schedules *)

(** C8, as stated, fails: a custom schedule whose expression is no cron
    expression gets the instant one hour after [now], and no error. *)
Lemma custom_unparsable_runs_in_one_hour :
  calculate_next_execution_time custom_unparsable wednesday_10
    = Ok (mk_datetime 2025 1 1 11 0 0 0)
  /\ calculate_next_execution sample_fromisoformat "custom"
       {[ "cron" := JStr "not a cron expression" ]} wednesday_10
     = Ok (mk_datetime 2025 1 1 11 0 0 0)
  /\ ~ (exists e, calculate_next_execution_time custom_unparsable
                    wednesday_10 = Raise e).
Proof.
  repeat split; try (vm_compute; reflexivity).
  intros [e He]. vm_compute in He. discriminate.
Qed.

Lemma add_hours_one t :
  well_formed t = true -> year t < MAXYEAR ->
  exists t', add_hours t 1 = Ok t' /\ dt_ltb t t' = true.
Proof.
  intros Hwf Hy. pose proof (well_formed_bounds t Hwf) as Hb.
  unfold add_hours.
  destruct (Z.eq_dec (hour t) 23) as [H23 | H23].
  - replace ((hour t + 1) / 24) with 1 by (rewrite H23; reflexivity).
    replace ((hour t + 1) mod 24) with 0 by (rewrite H23; reflexivity).
    destruct (add_days_total t 1 Hwf) as (u & Hu & Hwu); try lia.
    rewrite Hu. simpl. eexists. split; [reflexivity|].
    destruct (add_days_positive t 1 u Hwf ltac:(lia) Hu)
      as (_ & Hlt & _ & Hm & Hs & Hus).
    pose proof (well_formed_bounds u Hwu) as Hbu.
    apply later_date_later_instant; auto.
    apply well_formed_intro; simpl; lia.
  - replace ((hour t + 1) / 24) with 0
      by (symmetry; apply Z.div_small; lia).
    replace ((hour t + 1) mod 24) with (hour t + 1)
      by (symmetry; apply Z.mod_small; lia).
    simpl. eexists. split; [reflexivity|].
    apply dt_ltb_key; auto.
    + apply well_formed_intro; simpl; lia.
    + unfold instant_key, date_key. simpl. lia.
Qed.

(** C8, amended. For a schedule of kind custom, whatever its parameters,
    both calculators answer [now] plus one hour, which exists and lies
    after [now] for every instant before the last year of the calendar;
    the parameters are not read, and no parse error is reported. *)
Theorem custom_runs_in_one_hour fromisoformat s sd now :
  Schedule.schedule_type s = "custom" ->
  well_formed now = true -> year now < MAXYEAR ->
  exists t, add_hours now 1 = Ok t /\ dt_ltb now t = true /\
            calculate_next_execution_time s now = Ok t /\
            calculate_next_execution fromisoformat "custom" sd now = Ok t.
Proof.
  intros Hk Hwf Hy.
  destruct (add_hours_one now Hwf Hy) as (t & Ht & Hlt).
  exists t. repeat split; auto.
  unfold calculate_next_execution_time. rewrite Hk. exact Ht.
Qed.

Lemma custom_runs_in_one_hour_witness :
  exists t, add_hours wednesday_10 1 = Ok t /\
            dt_ltb wednesday_10 t = true /\
            calculate_next_execution_time custom_unparsable wednesday_10
              = Ok t /\
            calculate_next_execution sample_fromisoformat "custom"
              {[ "cron" := JStr "not a cron expression" ]} wednesday_10
              = Ok t.
Proof.
  apply (custom_runs_in_one_hour sample_fromisoformat custom_unparsable
           {[ "cron" := JStr "not a cron expression" ]} wednesday_10
           eq_refl eq_refl).
  vm_compute. reflexivity.
Defined.

(** ** The schedule tick *)

Lemma getitem_in_range {A} (q : list A) (i : Z) :
  - Z.of_nat (length q) <= i < Z.of_nat (length q) ->
  exists x, getitem q i = Ok x
            /\ q !! Z.to_nat (i mod Z.of_nat (length q)) = Some x.
Proof.
  intros Hi. unfold getitem.
  set (len := Z.of_nat (length q)) in *.
  assert (Hmod : i mod len = if i <? 0 then i + len else i).
  { destruct (Z.ltb_spec i 0).
    - symmetry. apply (Z.mod_unique i len (-1)); lia.
    - apply Z.mod_small. lia. }
  rewrite Hmod.
  assert (Hj : 0 <= (if i <? 0 then i + len else i) < len)
    by (destruct (Z.ltb_spec i 0); lia).
  destruct (Z.ltb_spec (if i <? 0 then i + len else i) 0); [lia|].
  destruct (lookup_lt_is_Some_2 q (Z.to_nat (if i <? 0 then i + len else i)))
    as [x Hx]; [subst len; lia|].
  exists x. rewrite Hx. auto.
Qed.

Lemma getitem_below_range {A} (q : list A) (i : Z) :
  i < - Z.of_nat (length q) -> getitem q i = Raise IndexError.
Proof.
  intros Hi. unfold getitem.
  destruct (Z.ltb_spec i 0); [|lia].
  destruct (Z.ltb_spec (i + Z.of_nat (length q)) 0); [reflexivity | lia].
Qed.

Lemma find_commit_schedule rows sid s s' :
  List.find (fun x => Schedule.id x =? sid) rows = Some s ->
  Schedule.id s' = sid ->
  List.find (fun x => Schedule.id x =? sid)
            ((fun x => if Schedule.id x =? sid then s' else x) <$> rows)
  = Some s'.
Proof.
  intros Hfind Hid.
  induction rows as [|r rows IH]; [discriminate|].
  simpl in *.
  destruct (Schedule.id r =? sid) eqn:Hr.
  - rewrite Hid, Z.eqb_refl. reflexivity.
  - rewrite Hr. auto.
Qed.

Lemma find_schedule_id rows sid s :
  List.find (fun x => Schedule.id x =? sid) rows = Some s ->
  Schedule.id s = sid.
Proof.
  intros H. apply List.find_some in H as [_ H]. apply Z.eqb_eq in H. exact H.
Qed.

Lemma next_post_id_fresh rows p :
  p ∈ rows -> Post.id p < next_post_id rows.
Proof.
  unfold next_post_id.
  induction 1 as [p rows | p r rows _ IH]; rewrite fmap_cons; cbn [foldr];
    lia.
Qed.

(** The recurrence calculator reads the kind and the parameters only. *)
Lemma calculate_next_execution_time_ext s1 s2 now :
  Schedule.schedule_type s1 = Schedule.schedule_type s2 ->
  Schedule.schedule_data s1 = Schedule.schedule_data s2 ->
  calculate_next_execution_time s1 now = calculate_next_execution_time s2 now.
Proof.
  intros Hk Hd. unfold calculate_next_execution_time.
  rewrite Hk, Hd. reflexivity.
Qed.

(** One run of [execute_schedule] on an active schedule whose queue is
    not empty and whose cursor is not below [-len]: the item under the
    cursor becomes a post, committed at once; the schedule is rewritten
    when the recurrence calculator answers, and left as it was when the
    calculator raises. *)
Lemma execute_schedule_run w sid s t1 t2 t3 :
  List.find (fun x => Schedule.id x =? sid) (schedules w) = Some s ->
  Schedule.is_active s = true ->
  default [] (Schedule.content_queue s) <> [] ->
  - Z.of_nat (length (default [] (Schedule.content_queue s)))
    <= Schedule.current_index s ->
  exists item next_cursor post w1,
    advance (default [] (Schedule.content_queue s))
            (Schedule.current_index s) = Some (item, next_cursor)
    /\ post = Post.set_id (next_post_id (posts w)) (new_post s item t1)
    /\ posts w1 = posts w ++ [post]
    /\ schedules w1 = schedules w
    /\ execute_schedule w sid t1 t2 t3 =
       match calculate_next_execution_time s t3 with
       | Ok next =>
           (commit_schedule
              (Schedule.set_next_execution (Some next)
                 (Schedule.set_last_executed (Some t2)
                    (Schedule.set_current_index next_cursor s))) w1,
            Ok (Executed sid (Post.id post)
                  (if Z.of_nat (length (default [] (Schedule.content_queue s)))
                      <=? Schedule.current_index s
                   then 0 else Schedule.current_index s) next))
       | Raise e => (w1, Raise e)
       end.
Proof.
  intros Hfind Hact Hq Hlow.
  unfold execute_schedule. rewrite Hfind, Hact. simpl negb. cbv iota.
  destruct (default [] (Schedule.content_queue s)) as [|item0 rest] eqn:Eq;
    [contradiction|].
  set (q := item0 :: rest) in *.
  set (len := Z.of_nat (length q)) in *.
  set (cursor := Schedule.current_index s) in *.
  assert (Hlen : 1 <= len) by (subst len q; simpl; lia).
  set (idx := if len <=? cursor then 0 else cursor).
  assert (Hidx : - len <= idx < len)
    by (subst idx; destruct (Z.leb_spec len cursor); lia).
  destruct (getitem_in_range q idx Hidx) as (item & Hget & Hlook).
  fold len in Hlook. rewrite Hget.
  assert (Hstart : (if len <=? cursor then 0 else cursor mod len)
                   = idx mod len).
  { subst idx. destruct (Z.leb_spec len cursor); [|reflexivity].
    symmetry. apply Z.mod_small. lia. }
  assert (Hnext : (idx + 1) mod len = (idx mod len + 1) mod len).
  { rewrite (Z.add_mod idx 1 len) by lia.
    rewrite (Z.add_mod (idx mod len) 1 len) by lia.
    rewrite Z.mod_mod by lia. reflexivity. }
  unfold add_post.
  set (post := Post.set_id (next_post_id (posts w)) (new_post s item t1)).
  set (w0 := mk_world (schedules w) (posts w ++ [post])
                      (social_accounts w) (queue w)).
  set (w1 := match default [] (Schedule.target_platforms s) with
             | [] => w0
             | _ :: _ =>
                 delay (PostToMultiplePlatforms (Post.id post)
                          (default [] (Schedule.target_platforms s))) w0
             end).
  exists item, ((idx mod len + 1) mod len), post, w1.
  split.
  { unfold advance. fold len. rewrite Hstart, Hlook. reflexivity. }
  split; [reflexivity|].
  split; [subst w1; destruct (default [] (Schedule.target_platforms s));
          reflexivity|].
  split; [subst w1; destruct (default [] (Schedule.target_platforms s));
          reflexivity|].
  rewrite Hnext.
  rewrite (calculate_next_execution_time_ext
             (Schedule.set_last_executed (Some t2)
                (Schedule.set_current_index ((idx mod len + 1) mod len) s))
             s t3 eq_refl eq_refl).
  destruct (calculate_next_execution_time s t3); reflexivity.
Qed.

Lemma advance_Some {A} (q : list A) cursor item next_cursor :
  advance q cursor = Some (item, next_cursor) ->
  let len := Z.of_nat (length q) in
  let start := if len <=? cursor then 0 else cursor mod len in
  q !! Z.to_nat start = Some item /\ next_cursor = (start + 1) mod len
  /\ 1 <= len.
Proof.
  unfold advance. cbv zeta.
  destruct (q !! Z.to_nat _) as [x|] eqn:Hx; [|discriminate].
  intros H. inversion H; subst. repeat split; auto.
  apply lookup_lt_Some in Hx. lia.
Qed.

(** C7, as stated, fails on both sides of the queue: a cursor at or past
    the end restarts at the first item instead of wrapping modulo the
    length, and a cursor below [-len] is an [IndexError]. *)
Lemma cursor_past_end_restarts_at_first_item :
  let w := world_of (rotating three_items 10) in
  let run := execute_schedule w 1 wednesday_9 wednesday_9 wednesday_9 in
  advance_modulo three_items 10 = Some ({[ "title" := "second" ]}, 2)
  /\ Post.title <$> materialized w (fst run) = ["first"]
  /\ Schedule.current_index <$> schedules (fst run) = [1]
  /\ snd run = Ok (Executed 1 1 0 thursday_9)
  /\ execute_schedule (world_of (rotating three_items (-4))) 1
                      wednesday_9 wednesday_9 wednesday_9
     = (world_of (rotating three_items (-4)), Raise IndexError).
Proof. repeat split; vm_compute; reflexivity. Qed.

(** C7, amended. On a run of [execute_schedule] for an active schedule
    with queue of length L and cursor not below -L: for L = 0 the run is
    skipped with "No content in queue" and nothing is indexed; for L >= 1
    the post is made from [queue[cursor mod L]] and the next cursor is
    [(cursor + 1) mod L] when the cursor is below L, and from [queue[0]]
    with next cursor [1 mod L] when the cursor is L or more; the next
    cursor lies in [0, L). The run raises only if the recurrence
    calculator does: when it does not, the next cursor is stored, and when
    it does, the post stays and the schedule table, cursor included, is
    as it was. *)
Theorem execute_schedule_advances_cursor w sid s t1 t2 t3 :
  List.find (fun x => Schedule.id x =? sid) (schedules w) = Some s ->
  Schedule.is_active s = true ->
  let q := default [] (Schedule.content_queue s) in
  let len := Z.of_nat (length q) in
  let cursor := Schedule.current_index s in
  - len <= cursor ->
  let run := execute_schedule w sid t1 t2 t3 in
  match advance q cursor with
  | None => len = 0 /\ run = (w, Ok (Skipped "No content in queue"))
  | Some (item, next_cursor) =>
      1 <= len /\ 0 <= next_cursor < len
      /\ (cursor < len ->
          advance_modulo q cursor = Some (item, next_cursor))
      /\ (len <= cursor -> q !! 0%nat = Some item /\ next_cursor = 1 mod len)
      /\ materialized w (fst run)
         = [Post.set_id (next_post_id (posts w)) (new_post s item t1)]
      /\ is_ok (snd run) = is_ok (calculate_next_execution_time s t3)
      /\ (is_ok (snd run) = true ->
          Schedule.current_index
            <$> List.find (fun x => Schedule.id x =? sid)
                          (schedules (fst run))
          = Some next_cursor)
      /\ (is_ok (snd run) = false -> schedules (fst run) = schedules w)
  end.
Proof.
  intros Hfind Hact q len cursor Hlow run.
  assert (Hcases : q = [] \/ q <> [])
    by (destruct q; [left | right]; done).
  destruct Hcases as [Hq | Hne].
  - assert (Hadv : advance q cursor = None).
    { unfold advance. rewrite Hq. rewrite lookup_nil. reflexivity. }
    rewrite Hadv. split; [subst len; rewrite Hq; reflexivity|].
    subst run. unfold execute_schedule. rewrite Hfind, Hact.
    fold q. rewrite Hq. reflexivity.
  - destruct (execute_schedule_run w sid s t1 t2 t3 Hfind Hact Hne Hlow)
      as (item & next_cursor & post & w1 & Hadv & Hpost & Hposts & Hsched
          & Hrun).
    fold q cursor in Hadv. rewrite Hadv.
    destruct (advance_Some q cursor item next_cursor Hadv)
      as (Hitem & Hnext & Hlen).
    fold len in Hitem, Hnext, Hlen.
    split; [exact Hlen|].
    split; [rewrite Hnext; apply Z.mod_pos_bound; lia|].
    split.
    { intros Hlt. unfold advance_modulo. fold len.
      destruct (Z.leb_spec len cursor); [lia|].
      rewrite Hitem, Hnext.
      rewrite (Z.add_mod (cursor mod len) 1 len) by lia.
      rewrite Z.mod_mod by lia.
      rewrite <- (Z.add_mod cursor 1 len) by lia. reflexivity. }
    split.
    { intros Hge. destruct (Z.leb_spec len cursor); [|lia].
      split; [exact Hitem | exact Hnext]. }
    subst run. rewrite Hrun.
    destruct (calculate_next_execution_time s t3) as [next|e]; simpl.
    + unfold materialized, commit_schedule. cbn [posts schedules fst snd].
      split; [rewrite Hposts, drop_app_length, Hpost; reflexivity|].
      split; [reflexivity|]. split; [|discriminate]. intros _.
      rewrite Hsched, (find_schedule_id _ _ _ Hfind).
      erewrite find_commit_schedule; eauto.
      simpl. eapply find_schedule_id; eauto.
    + unfold materialized.
      split; [rewrite Hposts, drop_app_length, Hpost; reflexivity|].
      split; [reflexivity|]. split; [discriminate|].
      intros _. exact Hsched.
Qed.

Lemma execute_schedule_advances_cursor_witness :
  let w := world_of (rotating three_items 2) in
  let run := execute_schedule w 1 wednesday_9 wednesday_9 wednesday_9 in
  Post.title <$> materialized w (fst run) = ["third"]
  /\ Schedule.current_index
       <$> List.find (fun x => Schedule.id x =? 1) (schedules (fst run))
     = Some 0.
Proof.
  pose proof (execute_schedule_advances_cursor
                (world_of (rotating three_items 2)) 1
                (rotating three_items 2)
                wednesday_9 wednesday_9 wednesday_9
                eq_refl eq_refl) as H.
  cbv zeta in H. specialize (H ltac:(vm_compute; discriminate)).
  change (advance (default [] (Schedule.content_queue
                                 (rotating three_items 2)))
                  (Schedule.current_index (rotating three_items 2)))
    with (Some (({[ "title" := "third" ]} : gmap string string), 0)) in H.
  destruct H as (_ & _ & _ & _ & Hpost & _ & Hcur & _).
  cbv zeta. split.
  - rewrite Hpost. reflexivity.
  - apply Hcur. vm_compute. reflexivity.
Defined.

(** After a run the schedule is still there, still active, with the same
    queue and a cursor that the next run accepts. *)
Lemma execute_schedule_step w sid s t1 t2 t3 :
  List.find (fun x => Schedule.id x =? sid) (schedules w) = Some s ->
  Schedule.is_active s = true ->
  default [] (Schedule.content_queue s) <> [] ->
  - Z.of_nat (length (default [] (Schedule.content_queue s)))
    <= Schedule.current_index s ->
  exists item s',
    posts (fst (execute_schedule w sid t1 t2 t3))
    = posts w ++ [Post.set_id (next_post_id (posts w)) (new_post s item t1)]
    /\ List.find (fun x => Schedule.id x =? sid)
                 (schedules (fst (execute_schedule w sid t1 t2 t3)))
       = Some s'
    /\ Schedule.is_active s' = true
    /\ Schedule.content_queue s' = Schedule.content_queue s
    /\ - Z.of_nat (length (default [] (Schedule.content_queue s)))
       <= Schedule.current_index s'.
Proof.
  intros Hfind Hact Hne Hlow.
  destruct (execute_schedule_run w sid s t1 t2 t3 Hfind Hact Hne Hlow)
    as (item & next_cursor & post & w1 & Hadv & Hpost & Hposts & Hsched
        & Hrun).
  destruct (advance_Some _ _ _ _ Hadv) as (_ & Hnext & Hlen).
  rewrite Hrun. subst post.
  destruct (calculate_next_execution_time s t3) as [next|e].
  - exists item. eexists. unfold commit_schedule.
    cbn [posts schedules fst Schedule.id Schedule.set_next_execution
         Schedule.set_last_executed Schedule.set_current_index].
    rewrite Hsched, (find_schedule_id _ _ _ Hfind).
    split; [exact Hposts|].
    split; [eapply find_commit_schedule; eauto;
            simpl; eapply find_schedule_id; eauto|].
    simpl. repeat split; auto.
    pose proof (Z.mod_pos_bound
                  ((if Z.of_nat (length (default [] (Schedule.content_queue s)))
                       <=? Schedule.current_index s
                    then 0
                    else Schedule.current_index s
                         mod Z.of_nat
                               (length (default [] (Schedule.content_queue s))))
                   + 1)
                  (Z.of_nat (length (default [] (Schedule.content_queue s))))).
    lia.
  - exists item, s. cbn [fst]. rewrite Hsched. auto.
Qed.

(** C2, as stated, fails: the message [execute_schedule(1)] delivered
    twice, at the same instant, leaves two posts, both [scheduled]. *)
Lemma redelivery_materializes_second_post :
  let w := world_of (rotating three_items 0) in
  let w1 := fst (execute_schedule w 1 wednesday_9 wednesday_9 wednesday_9) in
  let w2 := fst (execute_schedule w1 1 wednesday_9 wednesday_9 wednesday_9) in
  Post.title <$> materialized w w2 = ["first"; "second"]
  /\ Post.status <$> materialized w w2 = ["scheduled"; "scheduled"]
  /\ length (materialized w w2) <> 1%nat.
Proof. repeat split; vm_compute; try reflexivity; discriminate. Qed.

(** C2, amended. For every active schedule with a queue that is not empty
    (and a cursor not below minus its length), every delivery of
    [execute_schedule] materializes a post of its own: after two
    deliveries, at whatever instants, two posts with different keys have
    been added, both with status [scheduled], and both are kept. *)
Theorem every_delivery_materializes_a_post w sid s t1 t2 t3 t4 t5 t6 :
  List.find (fun x => Schedule.id x =? sid) (schedules w) = Some s ->
  Schedule.is_active s = true ->
  default [] (Schedule.content_queue s) <> [] ->
  - Z.of_nat (length (default [] (Schedule.content_queue s)))
    <= Schedule.current_index s ->
  let w1 := fst (execute_schedule w sid t1 t2 t3) in
  let w2 := fst (execute_schedule w1 sid t4 t5 t6) in
  exists p1 p2,
    materialized w w1 = [p1] /\ materialized w w2 = [p1; p2]
    /\ Post.id p1 <> Post.id p2
    /\ Post.status p1 = "scheduled" /\ Post.status p2 = "scheduled".
Proof.
  intros Hfind Hact Hne Hlow w1 w2.
  destruct (execute_schedule_step w sid s t1 t2 t3 Hfind Hact Hne Hlow)
    as (item1 & s' & Hposts1 & Hfind' & Hact' & Hq' & Hlow').
  fold w1 in Hposts1, Hfind'.
  assert (Hne' : default [] (Schedule.content_queue s') <> [])
    by (rewrite Hq'; exact Hne).
  rewrite <- Hq' in Hlow'.
  destruct (execute_schedule_step w1 sid s' t4 t5 t6 Hfind' Hact' Hne' Hlow')
    as (item2 & _ & Hposts2 & _).
  fold w2 in Hposts2.
  eexists. eexists. unfold materialized.
  rewrite Hposts2, Hposts1, <- app_assoc, !drop_app_length.
  split; [reflexivity|]. split; [reflexivity|].
  split; [|split; reflexivity].
  set (p1 := Post.set_id (next_post_id (posts w)) (new_post s item1 t1)).
  pose proof (next_post_id_fresh (posts w ++ [p1]) p1) as Hfresh.
  simpl in *. intros Heq.
  assert (Hin : p1 ∈ posts w ++ [p1]) by (apply elem_of_app; right; left).
  specialize (Hfresh Hin). subst p1. simpl in Hfresh. lia.
Qed.

Lemma every_delivery_materializes_a_post_witness :
  let w := world_of (rotating three_items 0) in
  let w1 := fst (execute_schedule w 1 wednesday_9 wednesday_9 wednesday_9) in
  let w2 := fst (execute_schedule w1 1 wednesday_9 wednesday_10
                                  wednesday_10) in
  exists p1 p2,
    materialized w w1 = [p1] /\ materialized w w2 = [p1; p2]
    /\ Post.id p1 <> Post.id p2
    /\ Post.status p1 = "scheduled" /\ Post.status p2 = "scheduled".
Proof.
  apply (every_delivery_materializes_a_post
           (world_of (rotating three_items 0)) 1 (rotating three_items 0)
           wednesday_9 wednesday_9 wednesday_9
           wednesday_9 wednesday_10 wednesday_10 eq_refl eq_refl).
  - vm_compute. discriminate.
  - vm_compute. discriminate.
Defined.

(** ** One-time schedules *)

(** C1 on a schedule of kind once, due on Wednesday 09:00 and executed
    then: [calculate_next_execution_time] has no case for once and answers
    its default, so the schedule stays active with [next_execution] one
    hour later; at 10:00 the scan finds it due again and the run
    materializes a second post. The calculator of the API does have the
    case for once. *)
Theorem once_schedule_fires_again :
  let w := world_of once_schedule in
  let run1 := execute_schedule w 1 wednesday_9 wednesday_9 wednesday_9 in
  let scan := check_and_execute_schedules (fst run1) wednesday_10 in
  let run2 :=
    execute_schedule (fst scan) 1 wednesday_10 wednesday_10 wednesday_10 in
  snd run1 = Ok (Executed 1 1 0 wednesday_10)
  /\ Schedule.is_active <$> schedules (fst run1) = [true]
  /\ Schedule.next_execution <$> schedules (fst run1) = [Some wednesday_10]
  /\ queue (fst scan)
     = [PostToMultiplePlatforms 1 ["twitter"; "facebook"]; ExecuteSchedule 1]
  /\ snd scan = 1%nat
  /\ Post.title <$> materialized w (fst run2) = ["first"; "second"]
  /\ calculate_next_execution sample_fromisoformat "once"
       {[ "datetime" := JStr "2025-01-01T09:00:00" ]} wednesday_10
     = Ok wednesday_9.
Proof. repeat split; vm_compute; reflexivity. Qed.

(** The same on every active schedule of kind once with content: after a
    run it is still active and due again one hour after the run. *)
Lemma once_schedule_not_terminal w sid s t1 t2 t3 :
  List.find (fun x => Schedule.id x =? sid) (schedules w) = Some s ->
  Schedule.is_active s = true ->
  Schedule.schedule_type s = "once" ->
  default [] (Schedule.content_queue s) <> [] ->
  - Z.of_nat (length (default [] (Schedule.content_queue s)))
    <= Schedule.current_index s ->
  well_formed t3 = true -> year t3 < MAXYEAR ->
  exists s' next,
    List.find (fun x => Schedule.id x =? sid)
              (schedules (fst (execute_schedule w sid t1 t2 t3))) = Some s'
    /\ Schedule.is_active s' = true
    /\ Schedule.next_execution s' = Some next
    /\ add_hours t3 1 = Ok next.
Proof.
  intros Hfind Hact Hk Hne Hlow Hwf Hy.
  destruct (execute_schedule_run w sid s t1 t2 t3 Hfind Hact Hne Hlow)
    as (item & next_cursor & post & w1 & _ & _ & _ & Hsched & Hrun).
  destruct (add_hours_one t3 Hwf Hy) as (next & Hnext & _).
  assert (Hcalc : calculate_next_execution_time s t3 = Ok next)
    by (unfold calculate_next_execution_time; rewrite Hk; exact Hnext).
  rewrite Hrun, Hcalc. unfold commit_schedule.
  cbn [posts schedules fst Schedule.id Schedule.set_next_execution
       Schedule.set_last_executed Schedule.set_current_index].
  rewrite Hsched, (find_schedule_id _ _ _ Hfind).
  eexists. exists next.
  split; [eapply find_commit_schedule; eauto;
          simpl; eapply find_schedule_id; eauto|].
  simpl. auto.
Qed.

(** ** Monthly schedules *)

(** C6 on a monthly schedule for day 31 at 09:00: in February the call
    [now.replace(day=31, ...)] raises [ValueError], and so does the roll
    from January 31st after 09:00 into February; nothing is clipped. The
    roll from December goes to January of the next year. *)
Theorem monthly_day_31_raises_in_short_month :
  valid_params "monthly"
    {[ "day_of_month" := JInt 31; "time" := JStr "09:00" ]} = true
  /\ calculate_next_execution_time monthly_31 february_10 = Raise ValueError
  /\ calculate_next_execution sample_fromisoformat "monthly"
       {[ "day_of_month" := JInt 31; "time" := JStr "09:00" ]} february_10
     = Raise ValueError
  /\ calculate_next_execution_time monthly_31 january_31 = Raise ValueError
  /\ calculate_next_execution_time monthly_31
       (mk_datetime 2025 12 31 10 0 0 0)
     = Ok (mk_datetime 2026 1 31 9 0 0 0).
Proof. repeat split; vm_compute; reflexivity. Qed.

(** The same for every day of the month that the current month lacks. *)
Lemma monthly_missing_day_raises s now d :
  well_formed now = true -> Schedule.schedule_type s = "monthly" ->
  valid_time_of_day (default ∅ (Schedule.schedule_data s)) = true ->
  get (default ∅ (Schedule.schedule_data s)) "day_of_month" (JInt 1)
    = JInt d ->
  days_in_month (year now) (month now) < d <= 31 ->
  calculate_next_execution_time s now = Raise ValueError.
Proof.
  intros Hwf Hk Hv Hd Hrange.
  unfold calculate_next_execution_time. rewrite Hk.
  cbn [String.eqb Ascii.eqb Bool.eqb].
  destruct (valid_time_of_day_Ok _ Hv) as (h & mi & -> & Hh & Hmi).
  rewrite Hd. simpl.
  pose proof (days_in_month_bounds (year now) (month now)) as Hdim.
  unfold replace, fits_c_int. simpl.
  replace ((-2147483648 <=? d) && (d <=? 2147483647)) with true
    by (symmetry; apply andb_true_iff; rewrite !Z.leb_le; lia).
  replace ((-2147483648 <=? h) && (h <=? 2147483647)) with true
    by (symmetry; apply andb_true_iff; rewrite !Z.leb_le; lia).
  replace ((-2147483648 <=? mi) && (mi <=? 2147483647)) with true
    by (symmetry; apply andb_true_iff; rewrite !Z.leb_le; lia).
  simpl.
  match goal with
  | |- context [well_formed ?t] => destruct (well_formed t) eqn:Hw
  end; [|reflexivity].
  apply well_formed_bounds in Hw. simpl in Hw. lia.
Qed.

(** ** The multi-platform dispatch *)

(** The loop appends one entry per platform, in order. *)
Lemma results_of_loop {A B} (f : A -> B) (l : list A) (acc : list B) :
  foldl (fun results x => results ++ [f x]) acc l = acc ++ (f <$> l).
Proof.
  revert acc. induction l as [|x l IH]; intros acc; simpl.
  - rewrite app_nil_r. reflexivity.
  - rewrite IH, <- app_assoc. reflexivity.
Qed.

(** Every entry is a success or a failure. *)
Lemma post_to_one_status post_content w post platform :
  succeeded (post_to_one post_content w post platform)
  \/ has_failed (post_to_one post_content w post platform).
Proof.
  unfold post_to_one, succeeded, has_failed.
  destruct (List.find _ _); [|right; reflexivity].
  destruct (get_platform_service _ _ _) as [service|]; [|right; reflexivity].
  destruct (service _ _ _); [left | right]; reflexivity.
Qed.

Lemma count_success_le results :
  (count_success results <= length results)%nat.
Proof. unfold count_success. apply List.filter_length_le. Qed.

Lemma count_success_all results :
  Forall succeeded results -> count_success results = length results.
Proof.
  unfold count_success, succeeded.
  induction 1 as [|r l Hr _ IH]; simpl; [reflexivity|].
  rewrite Hr. simpl. rewrite IH. reflexivity.
Qed.

Lemma count_success_none results :
  Forall has_failed results -> count_success results = 0%nat.
Proof.
  unfold count_success, has_failed.
  induction 1 as [|r l Hr _ IH]; simpl; [reflexivity|].
  rewrite Hr. simpl. exact IH.
Qed.

Lemma count_success_some results :
  Exists succeeded results -> (0 < count_success results)%nat.
Proof.
  unfold count_success, succeeded.
  induction 1 as [r l Hr | r l _ IH]; simpl.
  - rewrite Hr. simpl. lia.
  - destruct (String.eqb _ _); simpl; lia.
Qed.

Lemma count_success_not_all results :
  Exists has_failed results -> (count_success results < length results)%nat.
Proof.
  unfold has_failed.
  induction 1 as [r l Hr | r l _ IH].
  - unfold count_success. simpl. rewrite Hr. simpl.
    pose proof (count_success_le l). unfold count_success in *. lia.
  - unfold count_success in *. simpl.
    destruct (String.eqb _ _); simpl; lia.
Qed.

(** The count of successes does not depend on the order of the results. *)
Lemma count_success_Permutation results results' :
  Permutation results results' ->
  count_success results = count_success results'.
Proof.
  unfold count_success.
  induction 1 as [|r l l' _ IH|r r' l|l l' l'' _ IH1 _ IH2]; simpl.
  - reflexivity.
  - destruct (String.eqb _ _); simpl; lia.
  - destruct (String.eqb (r_status r) _), (String.eqb (r_status r') _);
      reflexivity.
  - lia.
Qed.

Lemma find_commit_post rows post_id post post' :
  List.find (fun p => Post.id p =? post_id) rows = Some post ->
  Post.id post' = post_id ->
  List.find (fun p => Post.id p =? post_id)
            ((fun p => if Post.id p =? post_id then post' else p) <$> rows)
  = Some post'.
Proof.
  intros Hfind Hid.
  induction rows as [|r rows IH]; [discriminate|].
  simpl in *.
  destruct (Post.id r =? post_id) eqn:Hr.
  - rewrite Hid, Z.eqb_refl. reflexivity.
  - rewrite Hr. auto.
Qed.

Lemma find_post_id rows post_id post :
  List.find (fun p => Post.id p =? post_id) rows = Some post ->
  Post.id post = post_id.
Proof.
  intros H. apply List.find_some in H as [_ H]. apply Z.eqb_eq in H. exact H.
Qed.

(** What a run stores for the post: the status computed from the entries
    of the loop, and these entries. *)
Lemma post_to_multiple_platforms_stored
    post_content w post_id post platform_ids now :
  List.find (fun p => Post.id p =? post_id) (posts w) = Some post ->
  let results := post_to_one post_content w post <$> platform_ids in
  let run := post_to_multiple_platforms post_content w post_id
                                        platform_ids now in
  List.find (fun p => Post.id p =? post_id) (posts (fst run))
  = Some (Post.set_platform_data (Some (PostingResults results))
            (update_status results (length platform_ids) now post))
  /\ snd run = Ok (mk_dispatch_summary post_id results
                     (count_success results) (length platform_ids)).
Proof.
  intros Hfind results run. subst run.
  unfold post_to_multiple_platforms. rewrite Hfind.
  rewrite results_of_loop. simpl app. fold results.
  split; [|reflexivity].
  unfold commit_post. cbn [fst posts].
  assert (Hid : Post.id (Post.set_platform_data
                           (Some (PostingResults results))
                           (update_status results (length platform_ids)
                                          now post)) = post_id).
  { unfold update_status.
    destruct (0 <? count_success results)%nat; simpl;
      eapply find_post_id; eauto. }
  rewrite Hid. eapply find_commit_post; eauto.
Qed.

(** C3. For a post dispatched to N >= 1 platforms, the status stored is
    [posted] when all N outcomes are successes, [failed] when all are
    failures, and [partially_posted] when they are mixed; every outcome is
    one or the other; and the status stored is the same for every
    permutation of the order in which the platforms are served. *)
Theorem aggregate_status_of_outcomes
    post_content w post_id post platform_ids now :
  List.find (fun p => Post.id p =? post_id) (posts w) = Some post ->
  (1 <= length platform_ids)%nat ->
  let outcomes := post_to_one post_content w post <$> platform_ids in
  let stored ids :=
    Post.status
      <$> List.find (fun p => Post.id p =? post_id)
            (posts (fst (post_to_multiple_platforms post_content w post_id
                                                    ids now))) in
  Forall (fun r => succeeded r \/ has_failed r) outcomes
  /\ (Forall succeeded outcomes -> stored platform_ids = Some "posted")
  /\ (Forall has_failed outcomes -> stored platform_ids = Some "failed")
  /\ (Exists succeeded outcomes -> Exists has_failed outcomes ->
      stored platform_ids = Some "partially_posted")
  /\ (forall ids', Permutation platform_ids ids' ->
                   stored ids' = stored platform_ids).
Proof.
  intros Hfind Hn outcomes stored.
  assert (Hstored : forall ids,
             stored ids
             = Some (Post.status
                       (update_status
                          (post_to_one post_content w post <$> ids)
                          (length ids) now post))).
  { intros ids. subst stored. cbv beta.
    destruct (post_to_multiple_platforms_stored post_content w post_id post
                ids now Hfind) as [-> _].
    reflexivity. }
  assert (Hlen : length outcomes = length platform_ids)
    by (subst outcomes; apply length_fmap).
  split.
  { subst outcomes. apply Forall_fmap, Forall_forall. intros platform _.
    apply post_to_one_status. }
  split.
  { intros Hall. rewrite Hstored. fold outcomes. unfold update_status.
    rewrite (count_success_all outcomes Hall), Hlen.
    destruct (Nat.ltb_spec 0 (length platform_ids)); [|lia].
    rewrite Nat.eqb_refl. reflexivity. }
  split.
  { intros Hnone. rewrite Hstored. fold outcomes. unfold update_status.
    rewrite (count_success_none outcomes Hnone). reflexivity. }
  split.
  { intros Hsome Hfail. rewrite Hstored. fold outcomes. unfold update_status.
    pose proof (count_success_some outcomes Hsome) as Hpos.
    pose proof (count_success_not_all outcomes Hfail) as Hlt.
    destruct (Nat.ltb_spec 0 (count_success outcomes)); [|lia].
    destruct (Nat.eqb_spec (count_success outcomes) (length platform_ids));
      [lia | reflexivity]. }
  intros ids' Hperm. rewrite !Hstored. unfold update_status.
  rewrite (count_success_Permutation
             (post_to_one post_content w post <$> ids')
             (post_to_one post_content w post <$> platform_ids))
    by (apply fmap_Permutation; symmetry; exact Hperm).
  rewrite (Permutation_length Hperm). reflexivity.
Qed.

Lemma aggregate_status_of_outcomes_witness :
  Post.status
    <$> List.find (fun p => Post.id p =? 1)
          (posts (fst (post_to_multiple_platforms sample_post_content
                         world_with_post 1
                         ["twitter"; "facebook"; "youtube"] wednesday_10)))
  = Some "partially_posted"
  /\ Post.status
       <$> List.find (fun p => Post.id p =? 1)
             (posts (fst (post_to_multiple_platforms sample_post_content
                            world_with_post 1
                            ["facebook"; "youtube"; "twitter"] wednesday_10)))
     = Some "partially_posted".
Proof.
  pose proof (aggregate_status_of_outcomes sample_post_content
                world_with_post 1 scheduled_post
                ["twitter"; "facebook"; "youtube"] wednesday_10
                eq_refl ltac:(simpl; lia)) as H.
  cbv zeta in H. destruct H as (_ & _ & _ & Hmixed & Hperm).
  assert (Hstatus := Hmixed ltac:(left; reflexivity)
                            ltac:(right; left; reflexivity)).
  split; [exact Hstatus|].
  rewrite (Hperm ["facebook"; "youtube"; "twitter"]); [exact Hstatus|].
  apply Permutation_cons_append.
Defined.

(** C10. With an empty list of target platforms the run records no
    per-platform result and stores the status [failed], like a total
    failure; [posted_at] is left as it was, unset for a post that was not
    posted before; the call is not rejected. *)
Theorem empty_target_list_is_total_failure
    post_content w post_id post now :
  List.find (fun p => Post.id p =? post_id) (posts w) = Some post ->
  let run := post_to_multiple_platforms post_content w post_id [] now in
  snd run = Ok (mk_dispatch_summary post_id [] 0 0)
  /\ exists post',
       List.find (fun p => Post.id p =? post_id) (posts (fst run))
       = Some post'
       /\ Post.status post' = "failed"
       /\ Post.posted_at post' = Post.posted_at post
       /\ Post.platform_data post' = Some (PostingResults []).
Proof.
  intros Hfind run.
  destruct (post_to_multiple_platforms_stored post_content w post_id post
              [] now Hfind) as [Hstored Hrun].
  fold run in Hstored, Hrun. split; [exact Hrun|].
  eexists. split; [exact Hstored|]. repeat split.
Qed.

Lemma empty_target_list_is_total_failure_witness :
  let run := post_to_multiple_platforms sample_post_content
                                        world_with_post 1 [] wednesday_10 in
  snd run = Ok (mk_dispatch_summary 1 [] 0 0)
  /\ exists post',
       List.find (fun p => Post.id p =? 1) (posts (fst run)) = Some post'
       /\ Post.status post' = "failed"
       /\ Post.posted_at post' = None
       /\ Post.platform_data post' = Some (PostingResults []).
Proof.
  exact (empty_target_list_is_total_failure sample_post_content
           world_with_post 1 scheduled_post wednesday_10 eq_refl).
Defined.

(** * Properties of the further operations *)

(** ** The cursor invariant *)

Lemma find_schedule_In rows sid s :
  List.find (fun x => Schedule.id x =? sid) rows = Some s -> s ∈ rows.
Proof.
  intros H. apply List.find_some in H as [H _].
  apply list_elem_of_In. exact H.
Qed.

Lemma Forall_commit_schedule (P : Schedule.t -> Prop) s' w :
  Forall P (schedules w) -> P s' ->
  Forall P (schedules (commit_schedule s' w)).
Proof.
  intros Hall Hs. unfold commit_schedule. cbn [schedules].
  apply Forall_fmap. eapply Forall_impl; [exact Hall|].
  intros x Hx. simpl. destruct (Schedule.id x =? Schedule.id s'); assumption.
Qed.

Lemma update_schedule_queue_row w sid s new_content :
  List.find (fun x => Schedule.id x =? sid) (schedules w) = Some s ->
  0 <= Schedule.current_index s ->
  exists s',
    List.find (fun x => Schedule.id x =? sid)
              (schedules (fst (update_schedule_queue w sid new_content)))
    = Some s'
    /\ Schedule.content_queue s' = Some new_content
    /\ cursor_in_range s'
    /\ Schedule.current_index s'
       = (if Z.of_nat (length new_content) <=? Schedule.current_index s
          then 0 else Schedule.current_index s)
    /\ Schedule.is_active s' = Schedule.is_active s
    /\ Schedule.schedule_type s' = Schedule.schedule_type s
    /\ Schedule.schedule_data s' = Schedule.schedule_data s
    /\ Schedule.user_id s' = Schedule.user_id s
    /\ posts (fst (update_schedule_queue w sid new_content)) = posts w.
Proof.
  intros Hfind Hpos.
  unfold update_schedule_queue. rewrite Hfind.
  pose proof (find_schedule_id _ _ _ Hfind) as Hid.
  cbn [Schedule.current_index set_content_queue].
  destruct (Z.leb_spec (Z.of_nat (length new_content))
                       (Schedule.current_index s)) as [Hge | Hlt];
    eexists; unfold commit_schedule; cbn [fst snd schedules posts];
    cbn [Schedule.id Schedule.set_current_index set_content_queue];
    rewrite Hid;
    (split; [eapply find_commit_schedule; eauto|]);
    unfold cursor_in_range; simpl; repeat split; auto; lia.
Qed.

(** X1. [update_schedule_queue] stores the new queue and keeps a cursor
    that indexes it, resets to 0 a cursor at or past its end, and so turns
    every cursor that is not negative into one within the new queue; the
    other fields of the schedule and the posts stay as they are. *)
Theorem update_schedule_queue_repairs_cursor w sid s new_content :
  List.find (fun x => Schedule.id x =? sid) (schedules w) = Some s ->
  0 <= Schedule.current_index s ->
  let run := update_schedule_queue w sid new_content in
  exists s',
    List.find (fun x => Schedule.id x =? sid) (schedules (fst run)) = Some s'
    /\ Schedule.content_queue s' = Some new_content
    /\ cursor_in_range s'
    /\ (Schedule.current_index s < Z.of_nat (length new_content) ->
        Schedule.current_index s' = Schedule.current_index s)
    /\ (Z.of_nat (length new_content) <= Schedule.current_index s ->
        Schedule.current_index s' = 0)
    /\ Schedule.is_active s' = Schedule.is_active s
    /\ Schedule.next_execution s' = Schedule.next_execution s
    /\ posts (fst run) = posts w
    /\ snd run = Ok (mk_queue_update sid (length new_content)
                                     (Schedule.current_index s')).
Proof.
  intros Hfind Hpos run. subst run.
  unfold update_schedule_queue. rewrite Hfind.
  pose proof (find_schedule_id _ _ _ Hfind) as Hid.
  cbn [Schedule.current_index set_content_queue].
  destruct (Z.leb_spec (Z.of_nat (length new_content))
                       (Schedule.current_index s)) as [Hge | Hlt].
  - eexists. unfold commit_schedule. cbn [fst snd schedules posts].
    cbn [Schedule.id Schedule.set_current_index set_content_queue].
    rewrite Hid.
    split; [eapply find_commit_schedule; eauto|].
    unfold cursor_in_range. simpl. repeat split; auto; lia.
  - eexists. unfold commit_schedule. cbn [fst snd schedules posts].
    cbn [Schedule.id Schedule.set_current_index set_content_queue].
    rewrite Hid.
    split; [eapply find_commit_schedule; eauto|].
    unfold cursor_in_range. simpl. repeat split; auto; lia.
Qed.

Lemma update_schedule_queue_repairs_cursor_witness :
  exists s',
    List.find (fun x => Schedule.id x =? 1)
              (schedules (fst (update_schedule_queue
                                 (world_of (rotating three_items 2)) 1
                                 [ {[ "title" := "only" ]} ])))
    = Some s'
    /\ Schedule.current_index s' = 0.
Proof.
  destruct (update_schedule_queue_repairs_cursor
              (world_of (rotating three_items 2)) 1 (rotating three_items 2)
              [ {[ "title" := "only" ]} ] eq_refl
              ltac:(vm_compute; discriminate))
    as (s' & Hfind & _ & _ & _ & Hreset & _).
  exists s'. split; [exact Hfind|]. apply Hreset. vm_compute. discriminate.
Defined.

(** X2. Every run of [execute_schedule] and every call of
    [update_schedule_queue] keeps the invariant that the cursor of each
    schedule of the table is an index of its queue (0 for an empty queue),
    whether the run succeeds, is skipped or raises. *)
Theorem cursor_invariant_is_kept w sid t1 t2 t3 new_content :
  Forall cursor_in_range (schedules w) ->
  Forall cursor_in_range (schedules (fst (execute_schedule w sid t1 t2 t3)))
  /\ Forall cursor_in_range
            (schedules (fst (update_schedule_queue w sid new_content))).
Proof.
  intros Hinv. split.
  - destruct (List.find (fun x => Schedule.id x =? sid) (schedules w))
      as [s|] eqn:Hfind;
      [|unfold execute_schedule; rewrite Hfind; exact Hinv].
    destruct (Schedule.is_active s) eqn:Hact;
      [|unfold execute_schedule; rewrite Hfind, Hact; exact Hinv].
    assert (Hs : cursor_in_range s).
    { eapply Forall_forall in Hinv; [exact Hinv|].
      eapply find_schedule_In; eauto. }
    unfold cursor_in_range in Hs.
    assert (Hcases : default [] (Schedule.content_queue s) = []
                     \/ default [] (Schedule.content_queue s) <> [])
      by (destruct (default [] (Schedule.content_queue s));
          [left | right]; done).
    destruct Hcases as [Hq | Hne];
      [unfold execute_schedule; rewrite Hfind, Hact, Hq; exact Hinv|].
    destruct (execute_schedule_run w sid s t1 t2 t3 Hfind Hact Hne
                ltac:(lia))
      as (item & next_cursor & post & w1 & Hadv & _ & _ & Hsched & Hrun).
    destruct (advance_Some _ _ _ _ Hadv) as (_ & Hnext & Hlen).
    rewrite Hrun.
    destruct (calculate_next_execution_time s t3) as [next|e]; cbn [fst].
    + apply Forall_commit_schedule; [rewrite Hsched; exact Hinv|].
      unfold cursor_in_range. simpl.
      pose proof (Z.mod_pos_bound
                    ((if Z.of_nat (length (default []
                                             (Schedule.content_queue s)))
                         <=? Schedule.current_index s
                      then 0
                      else Schedule.current_index s
                           mod Z.of_nat
                                 (length (default []
                                            (Schedule.content_queue s))))
                     + 1)
                    (Z.of_nat (length (default []
                                         (Schedule.content_queue s))))).
      lia.
    + rewrite Hsched. exact Hinv.
  - destruct (List.find (fun x => Schedule.id x =? sid) (schedules w))
      as [s|] eqn:Hfind;
      [|unfold update_schedule_queue; rewrite Hfind; exact Hinv].
    assert (Hs : cursor_in_range s).
    { eapply Forall_forall in Hinv; [exact Hinv|].
      eapply find_schedule_In; eauto. }
    unfold cursor_in_range in Hs.
    unfold update_schedule_queue. rewrite Hfind. cbn [fst].
    apply Forall_commit_schedule; [exact Hinv|].
    cbn [Schedule.current_index set_content_queue].
    destruct (Z.leb_spec (Z.of_nat (length new_content))
                         (Schedule.current_index s));
      unfold cursor_in_range; simpl; lia.
Qed.

Lemma cursor_invariant_is_kept_witness :
  Forall cursor_in_range
         (schedules (fst (execute_schedule
                            (world_of (rotating three_items 2)) 1
                            wednesday_9 wednesday_9 wednesday_9))).
Proof.
  refine (proj1 (cursor_invariant_is_kept
                   (world_of (rotating three_items 2)) 1
                   wednesday_9 wednesday_9 wednesday_9 [] _)).
  constructor; [|constructor].
  unfold cursor_in_range. vm_compute. split; [discriminate | reflexivity].
Defined.

(** ** Replacing the queue, pausing, resuming, toggling *)

(** X3. After [update_schedule_queue] with a queue that is not empty, the
    next run of [execute_schedule] on the (active) schedule posts an item
    of the new queue -- the one under the old cursor when that cursor
    indexes the new queue, the first one otherwise -- whatever the length
    of the old queue; indexing does not fail, and the run raises only if
    the recurrence calculator does. *)
Theorem update_then_execute_posts_from_new_queue
    w sid s new_content t1 t2 t3 :
  List.find (fun x => Schedule.id x =? sid) (schedules w) = Some s ->
  Schedule.is_active s = true ->
  0 <= Schedule.current_index s ->
  new_content <> [] ->
  let w1 := fst (update_schedule_queue w sid new_content) in
  let run := execute_schedule w1 sid t1 t2 t3 in
  let start := if Z.of_nat (length new_content) <=? Schedule.current_index s
               then 0 else Schedule.current_index s in
  exists item post,
    new_content !! Z.to_nat start = Some item
    /\ materialized w (fst run) = [post]
    /\ Post.title post = default "" (item !! "title")
    /\ Post.file_path post = default "" (item !! "file_path")
    /\ Post.user_id post = Schedule.user_id s
    /\ Post.status post = "scheduled"
    /\ is_ok (snd run) = is_ok (calculate_next_execution_time s t3).
Proof.
  intros Hfind Hact Hpos Hne w1 run start.
  destruct (update_schedule_queue_row w sid s new_content
              Hfind Hpos)
    as (s' & Hfind' & Hq' & Hrange & Hcur & Hact' & Hkind & Hdata & Huser
        & Hposts).
  fold w1 in Hfind', Hposts.
  rewrite Hact in Hact'.
  assert (Hne' : default [] (Schedule.content_queue s') <> [])
    by (rewrite Hq'; exact Hne).
  unfold cursor_in_range in Hrange. rewrite Hq' in Hrange. simpl in Hrange.
  assert (Hlen : 1 <= Z.of_nat (length new_content))
    by (destruct new_content; [contradiction | simpl; lia]).
  assert (Hlow : - Z.of_nat (length (default [] (Schedule.content_queue s')))
                 <= Schedule.current_index s')
    by (rewrite Hq'; simpl; lia).
  destruct (execute_schedule_run w1 sid s' t1 t2 t3 Hfind' Hact' Hne' Hlow)
    as (item & next_cursor & post & w2 & Hadv & Hpost & Hposts2 & _ & Hrun).
  destruct (advance_Some _ _ _ _ Hadv) as (Hitem & _ & _).
  rewrite Hq' in Hitem. simpl in Hitem.
  exists item, post.
  assert (Hstart : (if Z.of_nat (length new_content)
                       <=? Schedule.current_index s'
                    then 0
                    else Schedule.current_index s'
                         mod Z.of_nat (length new_content)) = start).
  { subst start. rewrite Hcur.
    destruct (Z.leb_spec (Z.of_nat (length new_content))
                         (Schedule.current_index s)) as [Hge | Hlt].
    - destruct (Z.leb_spec (Z.of_nat (length new_content)) 0);
        [reflexivity | apply Z.mod_0_l; lia].
    - destruct (Z.leb_spec (Z.of_nat (length new_content))
                           (Schedule.current_index s)); [lia|].
      apply Z.mod_small. lia. }
  rewrite Hstart in Hitem.
  split; [exact Hitem|].
  assert (Hmat : materialized w (fst run) = [post]).
  { subst run. rewrite Hrun. unfold materialized.
    destruct (calculate_next_execution_time s' t3); cbn [fst];
      unfold commit_schedule; cbn [posts];
      rewrite Hposts2, Hposts, drop_app_length; reflexivity. }
  split; [exact Hmat|].
  subst post. simpl. rewrite Huser.
  repeat split.
  subst run. rewrite Hrun.
  rewrite (calculate_next_execution_time_ext s' s t3 Hkind Hdata).
  destruct (calculate_next_execution_time s t3); reflexivity.
Qed.

Lemma update_then_execute_posts_from_new_queue_witness :
  exists (item : gmap string string) post,
    [ {[ "title" := "only" ]} ] !! 0%nat = Some item
    /\ materialized (world_of (rotating three_items 2))
         (fst (execute_schedule
                 (fst (update_schedule_queue
                         (world_of (rotating three_items 2)) 1
                         [ {[ "title" := "only" ]} ]))
                 1 wednesday_9 wednesday_9 wednesday_9)) = [post]
    /\ Post.title post = default "" (item !! "title").
Proof.
  destruct (update_then_execute_posts_from_new_queue
              (world_of (rotating three_items 2)) 1 (rotating three_items 2)
              [ {[ "title" := "only" ]} ] wednesday_9 wednesday_9 wednesday_9
              eq_refl eq_refl ltac:(vm_compute; discriminate)
              ltac:(discriminate))
    as (item & post & Hitem & Hmat & Htitle & _).
  exists item, post. auto.
Defined.

(** The scan adds one message per due schedule, in table order, and
    touches nothing else. *)
Lemma check_and_execute_schedules_queue w now :
  queue (fst (check_and_execute_schedules w now))
  = queue w ++ ((fun s => ExecuteSchedule (Schedule.id s))
                  <$> List.filter (is_due now) (schedules w))
  /\ schedules (fst (check_and_execute_schedules w now)) = schedules w
  /\ posts (fst (check_and_execute_schedules w now)) = posts w.
Proof.
  unfold check_and_execute_schedules. cbn [fst].
  generalize (List.filter (is_due now) (schedules w)) as due.
  intros due. revert w.
  induction due as [|s due IH]; intros w; simpl.
  - rewrite app_nil_r. auto.
  - destruct (IH (delay (ExecuteSchedule (Schedule.id s)) w))
      as (Hq & Hs & Hp).
    rewrite Hq, Hs, Hp. unfold delay. cbn [queue schedules posts].
    rewrite <- app_assoc. auto.
Qed.

Lemma commit_schedule_rows s' w x :
  x ∈ schedules (commit_schedule s' w) ->
  x = s' \/ (x ∈ schedules w /\ Schedule.id x <> Schedule.id s').
Proof.
  unfold commit_schedule. cbn [schedules].
  intros Hx. apply list_elem_of_fmap in Hx as (y & -> & Hy).
  destruct (Z.eqb_spec (Schedule.id y) (Schedule.id s')); auto.
Qed.

(** X4. A schedule that has been paused does not run: [execute_schedule]
    on it is skipped and leaves the database as it is, the scan for due
    schedules puts no message for it on the broker at any instant, its
    beat entry is gone, and no post is touched by the pause. *)
Theorem paused_schedule_does_not_run rt sid s now t1 t2 t3 :
  List.find (fun x => Schedule.id x =? sid) (schedules (world rt)) = Some s ->
  let rt1 := fst (pause_schedule rt sid) in
  snd (pause_schedule rt sid) = Ok sid
  /\ execute_schedule (world rt1) sid t1 t2 t3
     = (world rt1, Ok (Skipped "Schedule not found or inactive"))
  /\ (ExecuteSchedule sid
      ∉ enqueued (world rt1)
                 (fst (check_and_execute_schedules (world rt1) now)))
  /\ beat_schedule rt1 !! task_name sid = None
  /\ posts (world rt1) = posts (world rt).
Proof.
  intros Hfind rt1.
  pose proof (find_schedule_id _ _ _ Hfind) as Hid.
  assert (Hworld : world rt1
                   = commit_schedule (Schedule.set_is_active false s)
                                     (world rt)).
  { subst rt1. unfold pause_schedule. rewrite Hfind. cbn [fst].
    unfold with_world, with_beat_schedule. cbn [beat_schedule world sent].
    destruct (beat_schedule rt !! task_name sid); reflexivity. }
  split; [unfold pause_schedule; rewrite Hfind; reflexivity|].
  split.
  { rewrite Hworld. unfold execute_schedule.
    assert (Hf : List.find (fun x => Schedule.id x =? sid)
                   (schedules (commit_schedule
                                 (Schedule.set_is_active false s) (world rt)))
                 = Some (Schedule.set_is_active false s)).
    { unfold commit_schedule. cbn [schedules].
      cbn [Schedule.id Schedule.set_is_active]. rewrite Hid.
      eapply find_commit_schedule; eauto. }
    rewrite Hf. reflexivity. }
  split.
  { unfold enqueued.
    destruct (check_and_execute_schedules_queue (world rt1) now)
      as (Hq & _). rewrite Hq, drop_app_length.
    intros Hin. apply list_elem_of_fmap in Hin as (x & Hx & Hdue).
    apply list_elem_of_In, List.filter_In in Hdue as [Hrow Hdue].
    apply list_elem_of_In in Hrow. rewrite Hworld in Hrow.
    inversion Hx as [Hxid].
    apply commit_schedule_rows in Hrow as [-> | [_ Hne]].
    - unfold is_due in Hdue. simpl in Hdue. discriminate.
    - simpl in Hne. congruence. }
  split.
  { subst rt1. unfold pause_schedule. rewrite Hfind. cbn [fst].
    unfold with_world, with_beat_schedule. cbn [beat_schedule world sent].
    destruct (beat_schedule rt !! task_name sid) eqn:Hb;
      cbn [beat_schedule]; [apply lookup_delete_eq | exact Hb]. }
  rewrite Hworld. reflexivity.
Qed.

Lemma paused_schedule_does_not_run_witness :
  execute_schedule
    (world (fst (pause_schedule (runtime_of (world_of weekly_wednesday)) 1)))
    1 wednesday_10 wednesday_10 wednesday_10
  = (world (fst (pause_schedule (runtime_of (world_of weekly_wednesday)) 1)),
     Ok (Skipped "Schedule not found or inactive")).
Proof.
  exact (proj1 (proj2 (paused_schedule_does_not_run
                         (runtime_of (world_of weekly_wednesday)) 1
                         weekly_wednesday wednesday_10
                         wednesday_10 wednesday_10 wednesday_10 eq_refl))).
Defined.

Lemma commit_schedule_idempotent s' w :
  commit_schedule s' (commit_schedule s' w) = commit_schedule s' w.
Proof.
  unfold commit_schedule. cbn [schedules posts social_accounts queue].
  f_equal. rewrite <- list_fmap_compose. apply list_fmap_ext.
  intros i x _. simpl.
  destruct (Z.eqb_spec (Schedule.id x) (Schedule.id s')) as [He | Hne].
  - rewrite Z.eqb_refl. reflexivity.
  - destruct (Z.eqb_spec (Schedule.id x) (Schedule.id s')); [contradiction|].
    reflexivity.
Qed.

(** What a pause does to a schedule that exists. *)
Lemma pause_schedule_found rt sid s :
  List.find (fun x => Schedule.id x =? sid) (schedules (world rt)) = Some s ->
  pause_schedule rt sid
  = (mk_runtime (commit_schedule (Schedule.set_is_active false s) (world rt))
                (sent rt) (delete (task_name sid) (beat_schedule rt)),
     Ok sid).
Proof.
  intros Hfind. unfold pause_schedule. rewrite Hfind.
  unfold with_world, with_beat_schedule. cbn [beat_schedule world sent].
  destruct (beat_schedule rt !! task_name sid) eqn:Hb;
    cbn [beat_schedule world sent]; [reflexivity|].
  rewrite (delete_id _ _ Hb). reflexivity.
Qed.

(** X5. Pausing is idempotent: a second [pause_schedule] for the same
    schedule, as after a redelivery of the task, changes neither the
    database nor the beat schedule, and gives the same answer. *)
Theorem pause_schedule_idempotent rt sid :
  pause_schedule (fst (pause_schedule rt sid)) sid = pause_schedule rt sid.
Proof.
  destruct (List.find (fun x => Schedule.id x =? sid) (schedules (world rt)))
    as [s|] eqn:Hfind.
  - pose proof (find_schedule_id _ _ _ Hfind) as Hid.
    assert (Hf : List.find (fun x => Schedule.id x =? sid)
                   (schedules (commit_schedule
                                 (Schedule.set_is_active false s) (world rt)))
                 = Some (Schedule.set_is_active false s)).
    { unfold commit_schedule. cbn [schedules].
      cbn [Schedule.id Schedule.set_is_active]. rewrite Hid.
      eapply find_commit_schedule; eauto. }
    rewrite (pause_schedule_found rt sid s Hfind). cbn [fst].
    rewrite (pause_schedule_found
               (mk_runtime (commit_schedule (Schedule.set_is_active false s)
                                            (world rt))
                           (sent rt) (delete (task_name sid)
                                             (beat_schedule rt)))
               sid (Schedule.set_is_active false s) Hf).
    cbn [world sent beat_schedule].
    rewrite delete_delete_eq.
    change (Schedule.set_is_active false (Schedule.set_is_active false s))
      with (Schedule.set_is_active false s).
    rewrite commit_schedule_idempotent. reflexivity.
  - unfold pause_schedule at 2. rewrite Hfind. cbn [fst].
    unfold pause_schedule. rewrite Hfind. reflexivity.
Qed.

Lemma dt_ltb_not_leb a b : dt_ltb a b = true -> dt_leb b a = false.
Proof.
  unfold dt_ltb, dt_leb, dt_compare.
  rewrite (Z.compare_antisym (year a) (year b)),
          (Z.compare_antisym (month a) (month b)),
          (Z.compare_antisym (day a) (day b)),
          (Z.compare_antisym (hour a) (hour b)),
          (Z.compare_antisym (minute a) (minute b)),
          (Z.compare_antisym (second a) (second b)),
          (Z.compare_antisym (microsecond a) (microsecond b)).
  destruct (year a ?= year b); simpl; try congruence.
  destruct (month a ?= month b); simpl; try congruence.
  destruct (day a ?= day b); simpl; try congruence.
  destruct (hour a ?= hour b); simpl; try congruence.
  destruct (minute a ?= minute b); simpl; try congruence.
  destruct (second a ?= second b); simpl; try congruence.
  destruct (microsecond a ?= microsecond b); simpl; congruence.
Qed.

Lemma recurring_after_now s now t :
  well_formed now = true ->
  recurring (Schedule.schedule_type s) ->
  valid_params (Schedule.schedule_type s)
               (default ∅ (Schedule.schedule_data s)) = true ->
  calculate_next_execution_time s now = Ok t -> dt_ltb now t = true.
Proof.
  intros Hwf Hrec Hvalid Ht. unfold valid_params in Hvalid.
  destruct Hrec as [Hk | [Hk | Hk]].
  - eapply daily_after_now; eauto.
  - rewrite Hk in Hvalid. simpl in Hvalid.
    apply andb_true_iff in Hvalid as [Hvalid _].
    apply andb_true_iff in Hvalid as [_ Hdow].
    eapply weekly_after_now; eauto.
  - eapply monthly_after_now; eauto.
Qed.

(** X6. [resume_schedule] on a schedule of a recurring kind with valid
    parameters either raises and leaves everything as it was (the schedule
    stays paused), or reactivates the schedule with a [next_execution]
    strictly after [now], so that the resumed schedule is not due at the
    instant of the resume; cursor and queue are kept, and
    [create_recurring_schedule] is put on the broker. *)
Theorem resume_schedule_outcome rt sid s now :
  List.find (fun x => Schedule.id x =? sid) (schedules (world rt)) = Some s ->
  recurring (Schedule.schedule_type s) ->
  valid_params (Schedule.schedule_type s)
               (default ∅ (Schedule.schedule_data s)) = true ->
  well_formed now = true ->
  let run := resume_schedule rt sid now in
  match snd run with
  | Ok next =>
      dt_ltb now next = true
      /\ sent (fst run) = sent rt ++ [CreateRecurringSchedule sid]
      /\ exists s',
           List.find (fun x => Schedule.id x =? sid)
                     (schedules (world (fst run))) = Some s'
           /\ Schedule.is_active s' = true
           /\ Schedule.next_execution s' = Some next
           /\ is_due now s' = false
           /\ Schedule.current_index s' = Schedule.current_index s
           /\ Schedule.content_queue s' = Schedule.content_queue s
  | Raise e => fst run = rt
  end.
Proof.
  intros Hfind Hrec Hvalid Hwf run. subst run.
  pose proof (find_schedule_id _ _ _ Hfind) as Hid.
  unfold resume_schedule. rewrite Hfind.
  rewrite (calculate_next_execution_time_ext
             (Schedule.set_is_active true s) s now eq_refl eq_refl).
  destruct (calculate_next_execution_time s now) as [next|e] eqn:Hcalc;
    [|reflexivity].
  pose proof (recurring_after_now s now next Hwf Hrec Hvalid Hcalc) as Hlt.
  cbn [fst snd]. split; [exact Hlt|].
  split; [reflexivity|].
  eexists. unfold send, with_world, commit_schedule.
  cbn [world schedules].
  cbn [Schedule.id Schedule.set_next_execution Schedule.set_is_active].
  rewrite Hid.
  split; [eapply find_commit_schedule; eauto|].
  unfold is_due. simpl. rewrite (dt_ltb_not_leb _ _ Hlt). auto.
Qed.

Lemma resume_schedule_outcome_witness :
  snd (resume_schedule
         (fst (pause_schedule (runtime_of (world_of weekly_wednesday)) 1))
         1 wednesday_10) = Ok thursday_9
  /\ dt_ltb wednesday_10 thursday_9 = true.
Proof.
  pose proof (resume_schedule_outcome
                (fst (pause_schedule
                        (runtime_of (world_of weekly_wednesday)) 1)) 1
                (Schedule.set_is_active false weekly_wednesday) wednesday_10
                eq_refl (or_intror (or_introl eq_refl)) eq_refl eq_refl) as H.
  cbv zeta in H.
  assert (Hrun : snd (resume_schedule
                        (fst (pause_schedule
                                (runtime_of (world_of weekly_wednesday)) 1))
                        1 wednesday_10) = Ok thursday_9)
    by (vm_compute; reflexivity).
  rewrite Hrun in H. split; [exact Hrun | exact (proj1 H)].
Defined.

Lemma unique_ids_same_row rows (x y : Schedule.t) :
  NoDup (Schedule.id <$> rows) -> x ∈ rows -> y ∈ rows ->
  Schedule.id x = Schedule.id y -> x = y.
Proof.
  induction rows as [|r rows IH]; intros Hnd Hx Hy Heq.
  - inversion Hx.
  - rewrite fmap_cons in Hnd. apply NoDup_cons in Hnd as [Hnotin Hnd].
    apply elem_of_cons in Hx as [-> | Hx];
      apply elem_of_cons in Hy as [-> | Hy]; auto.
    + exfalso. apply Hnotin. rewrite Heq.
      apply list_elem_of_fmap. eauto.
    + exfalso. apply Hnotin. rewrite <- Heq.
      apply list_elem_of_fmap. eauto.
Qed.

Lemma owned_schedule_In w sid uid s :
  owned_schedule w sid uid = Some s ->
  s ∈ schedules w /\ Schedule.id s = sid /\ Schedule.user_id s = uid.
Proof.
  unfold owned_schedule. intros H. apply List.find_some in H as [Hin H].
  apply andb_true_iff in H as [H1 H2].
  apply Z.eqb_eq in H1, H2. split; [apply list_elem_of_In; exact Hin | auto].
Qed.

Lemma owned_schedule_commit w sid uid s s' :
  owned_schedule w sid uid = Some s ->
  Schedule.id s' = sid -> Schedule.user_id s' = uid ->
  owned_schedule (commit_schedule s' w) sid uid = Some s'.
Proof.
  unfold owned_schedule, commit_schedule. cbn [schedules].
  intros Hfind Hid Huid. rewrite Hid.
  induction (schedules w) as [|r rows IH]; [discriminate|].
  simpl in *.
  destruct (Z.eqb_spec (Schedule.id r) sid) as [He | Hne].
  - rewrite Hid, Huid, !Z.eqb_refl. reflexivity.
  - simpl in Hfind.
    destruct (Z.eqb_spec (Schedule.id r) sid); [contradiction|].
    simpl. auto.
Qed.

(** In the columns a row of the model holds, a second toggle undoes the
    first. *)
Lemma toggle_schedule_rows w sid uid s :
  unique_schedule_ids w ->
  owned_schedule w sid uid = Some s ->
  let w1 := fst (toggle_schedule w sid uid) in
  snd (toggle_schedule w sid uid) = Respond (negb (Schedule.is_active s))
  /\ toggle_schedule w1 sid uid = (w, Respond (Schedule.is_active s)).
Proof.
  intros Huniq Hfind w1.
  destruct (owned_schedule_In _ _ _ _ Hfind) as (Hin & Hid & Huid).
  assert (Hw1 : w1 = commit_schedule
                       (Schedule.set_is_active (negb (Schedule.is_active s)) s)
                       w)
    by (subst w1; unfold toggle_schedule; rewrite Hfind; reflexivity).
  split; [unfold toggle_schedule; rewrite Hfind; reflexivity|].
  unfold toggle_schedule at 1. rewrite Hw1.
  rewrite (owned_schedule_commit w sid uid s
             (Schedule.set_is_active (negb (Schedule.is_active s)) s)
             Hfind Hid Huid).
  cbn [Schedule.set_is_active Schedule.is_active Schedule.id Schedule.user_id
       Schedule.name Schedule.schedule_type Schedule.schedule_data
       Schedule.content_queue Schedule.current_index
       Schedule.target_platforms Schedule.last_executed
       Schedule.next_execution].
  rewrite negb_involutive. f_equal.
  unfold commit_schedule.
  cbn [schedules posts social_accounts queue Schedule.id].
  destruct w as [rows ps accounts q]. cbn [schedules posts social_accounts queue] in *.
  f_equal. rewrite <- list_fmap_compose.
  rewrite <- (list_fmap_id rows) at 2.
  apply Forall_fmap_ext_1, Forall_forall. intros x Hx. simpl.
  destruct (Z.eqb_spec (Schedule.id x) (Schedule.id s)) as [He | Hne].
  - rewrite Z.eqb_refl.
    rewrite (unique_ids_same_row rows x s Huniq Hx Hin He).
    destruct s; reflexivity.
  - destruct (Z.eqb_spec (Schedule.id x) (Schedule.id s)); [contradiction|].
    reflexivity.
Qed.

(** X7. Where the keys of the schedule table are unique, toggling a
    schedule twice brings [is_active] back: the first call stores and
    answers the negated flag, the second stores and answers the original
    one. After both calls the row has the name, kind, parameters, queue,
    cursor, platforms, [last_executed] and [next_execution] it had, the
    rows of the other schedules are the same, and posts, accounts and
    pending messages are untouched. (The column [updated_at], which the
    database sets itself at every update, is not among the columns of
    the model and nothing is said about it.) *)
Theorem toggle_schedule_twice_restores_flag w sid uid s :
  unique_schedule_ids w ->
  owned_schedule w sid uid = Some s ->
  let run1 := toggle_schedule w sid uid in
  let run2 := toggle_schedule (fst run1) sid uid in
  snd run1 = Respond (negb (Schedule.is_active s))
  /\ (exists s1, owned_schedule (fst run1) sid uid = Some s1
                 /\ Schedule.is_active s1 = negb (Schedule.is_active s))
  /\ snd run2 = Respond (Schedule.is_active s)
  /\ (exists s2,
        owned_schedule (fst run2) sid uid = Some s2
        /\ Schedule.is_active s2 = Schedule.is_active s
        /\ Schedule.name s2 = Schedule.name s
        /\ Schedule.schedule_type s2 = Schedule.schedule_type s
        /\ Schedule.schedule_data s2 = Schedule.schedule_data s
        /\ Schedule.content_queue s2 = Schedule.content_queue s
        /\ Schedule.current_index s2 = Schedule.current_index s
        /\ Schedule.target_platforms s2 = Schedule.target_platforms s
        /\ Schedule.last_executed s2 = Schedule.last_executed s
        /\ Schedule.next_execution s2 = Schedule.next_execution s)
  /\ (forall x, Schedule.id x <> sid ->
                x ∈ schedules (fst run2) <-> x ∈ schedules w)
  /\ posts (fst run2) = posts w
  /\ social_accounts (fst run2) = social_accounts w
  /\ queue (fst run2) = queue w.
Proof.
  intros Huniq Hfind run1 run2.
  destruct (toggle_schedule_rows w sid uid s Huniq Hfind) as [Hfirst Hsecond].
  cbv zeta in Hsecond.
  destruct (owned_schedule_In _ _ _ _ Hfind) as (Hin & Hid & Huid).
  assert (Hrun2 : run2 = (w, Respond (Schedule.is_active s)))
    by (subst run2 run1; exact Hsecond).
  split; [exact Hfirst|].
  split.
  { exists (Schedule.set_is_active (negb (Schedule.is_active s)) s).
    split; [|reflexivity].
    subst run1. unfold toggle_schedule. rewrite Hfind. cbn [fst].
    apply (owned_schedule_commit w sid uid s
             (Schedule.set_is_active (negb (Schedule.is_active s)) s)
             Hfind Hid Huid). }
  rewrite Hrun2. cbn [fst snd].
  split; [reflexivity|].
  split; [exists s; repeat split; exact Hfind|].
  split; [intros x _; reflexivity|].
  repeat split.
Qed.

Lemma toggle_schedule_twice_restores_flag_witness :
  let run1 := toggle_schedule (world_of weekly_wednesday) 1 7 in
  let run2 := toggle_schedule (fst run1) 1 7 in
  snd run1 = Respond false /\ snd run2 = Respond true
  /\ Schedule.is_active <$> schedules (fst run1) = [false]
  /\ Schedule.is_active <$> schedules (fst run2) = [true].
Proof.
  assert (Huniq : unique_schedule_ids (world_of weekly_wednesday))
    by (unfold unique_schedule_ids; simpl; apply NoDup_singleton).
  destruct (toggle_schedule_twice_restores_flag (world_of weekly_wednesday)
              1 7 weekly_wednesday Huniq eq_refl)
    as (Hfirst & _ & Hsecond & _).
  cbv zeta. split; [exact Hfirst|]. split; [exact Hsecond|].
  split; vm_compute; reflexivity.
Defined.

(** ** The beat schedule *)

Lemma task_name_inj a b : task_name a = task_name b -> a = b.
Proof.
  unfold task_name. intros H.
  apply String.app_inj in H. apply (inj pretty) in H. exact H.
Qed.

Lemma static_name_not_task_name key sid :
  is_Some (initial_beat_schedule !! key) -> key <> task_name sid.
Proof.
  intros [e He] ->. unfold initial_beat_schedule, task_name in He.
  rewrite !lookup_insert_ne in He by (simpl; discriminate).
  rewrite lookup_singleton_ne in He by (simpl; discriminate).
  discriminate.
Qed.

Lemma create_recurring_schedule_beat crontab_raises rt sid :
  beat_schedule (fst (create_recurring_schedule crontab_raises rt sid))
  = beat_schedule rt
  \/ exists e,
       beat_schedule (fst (create_recurring_schedule crontab_raises rt sid))
       = <[task_name sid := e]> (beat_schedule rt)
       /\ beat_task e = "app.tasks.posting_tasks.execute_schedule"
       /\ beat_args e = [sid].
Proof.
  unfold create_recurring_schedule.
  destruct (List.find _ _) as [s|]; [|left; reflexivity].
  destruct (String.eqb (Schedule.schedule_type s) "daily").
  { destruct (data_get s "time" _) as [v|]; [|left; reflexivity]. simpl.
    destruct (hour_minute v) as [[h mi]|]; [|left; reflexivity]. simpl.
    destruct (crontab _ _) as [c|]; [|left; reflexivity]. simpl.
    right. eexists. split; [reflexivity | split; reflexivity]. }
  destruct (String.eqb (Schedule.schedule_type s) "weekly").
  { destruct (data_get s "day_of_week" _) as [d|]; [|left; reflexivity].
    simpl.
    destruct (data_get s "time" _) as [v|]; [|left; reflexivity]. simpl.
    destruct (hour_minute v) as [[h mi]|]; [|left; reflexivity]. simpl.
    destruct (crontab _ _) as [c|]; [|left; reflexivity]. simpl.
    right. eexists. split; [reflexivity | split; reflexivity]. }
  destruct (String.eqb (Schedule.schedule_type s) "monthly").
  { destruct (data_get s "day_of_month" _) as [d|]; [|left; reflexivity].
    simpl.
    destruct (data_get s "time" _) as [v|]; [|left; reflexivity]. simpl.
    destruct (hour_minute v) as [[h mi]|]; [|left; reflexivity]. simpl.
    destruct (crontab _ _) as [c|]; [|left; reflexivity]. simpl.
    right. eexists. split; [reflexivity | split; reflexivity]. }
  left. reflexivity.
Qed.

Lemma pause_schedule_beat rt sid :
  beat_schedule (fst (pause_schedule rt sid)) = beat_schedule rt
  \/ beat_schedule (fst (pause_schedule rt sid))
     = delete (task_name sid) (beat_schedule rt).
Proof.
  destruct (List.find (fun x => Schedule.id x =? sid) (schedules (world rt)))
    as [s|] eqn:Hfind.
  - right. rewrite (pause_schedule_found rt sid s Hfind). reflexivity.
  - left. unfold pause_schedule. rewrite Hfind. reflexivity.
Qed.

(** X8. [create_recurring_schedule] and [pause_schedule] touch no entry of
    the beat schedule but the one named after their own schedule: the
    entry of every other schedule and the periodic tasks configured at
    start ([process-scheduled-posts] and the others) stay as they are,
    since the names [schedule_<id>] are distinct for distinct keys and
    differ from the configured names. *)
Theorem beat_entries_of_others_are_kept crontab_raises rt sid key :
  (exists other, other <> sid /\ key = task_name other)
  \/ is_Some (initial_beat_schedule !! key) ->
  beat_schedule (fst (create_recurring_schedule crontab_raises rt sid)) !! key
  = beat_schedule rt !! key
  /\ beat_schedule (fst (pause_schedule rt sid)) !! key
     = beat_schedule rt !! key.
Proof.
  intros Hkey.
  assert (Hne : task_name sid <> key).
  { destruct Hkey as [(other & Hother & ->) | Hstatic].
    - intros H. apply task_name_inj in H. congruence.
    - intros H. symmetry in H. revert H.
      apply static_name_not_task_name. exact Hstatic. }
  split.
  - destruct (create_recurring_schedule_beat crontab_raises rt sid)
      as [-> | (e & -> & _)]; [reflexivity|].
    apply lookup_insert_ne. exact Hne.
  - destruct (pause_schedule_beat rt sid) as [-> | ->]; [reflexivity|].
    apply lookup_delete_ne. exact Hne.
Qed.

Lemma beat_entries_of_others_are_kept_witness :
  beat_schedule (fst (pause_schedule
                        (runtime_of (world_of weekly_wednesday)) 1))
  !! "process-scheduled-posts"
  = initial_beat_schedule !! "process-scheduled-posts".
Proof.
  refine (proj2 (beat_entries_of_others_are_kept
                   (fun _ => None) (runtime_of (world_of weekly_wednesday))
                   1 "process-scheduled-posts" _)).
  right. vm_compute. eexists. reflexivity.
Defined.

(** X9. A call of [create_recurring_schedule] that returns leaves the
    database as it is, answers the name [schedule_<id>] and broadcasts
    [add_consumer] for it; for a schedule with no beat entry before, a
    following [pause_schedule] brings the beat schedule back to what it
    was, whether or not the kind of the schedule had an entry
    registered. *)
Theorem create_then_pause_restores_beat crontab_raises rt sid name :
  beat_schedule rt !! task_name sid = None ->
  snd (create_recurring_schedule crontab_raises rt sid) = Ok name ->
  let rt1 := fst (create_recurring_schedule crontab_raises rt sid) in
  name = task_name sid
  /\ world rt1 = world rt
  /\ sent rt1 = sent rt ++ [AddConsumer name]
  /\ beat_schedule (fst (pause_schedule rt1 sid)) = beat_schedule rt.
Proof.
  intros Hnone Hrun rt1.
  assert (Hshape : name = task_name sid /\ world rt1 = world rt
                   /\ sent rt1 = sent rt ++ [AddConsumer name]
                   /\ exists s,
                        List.find (fun x => Schedule.id x =? sid)
                                  (schedules (world rt)) = Some s).
  { subst rt1. revert Hrun. unfold create_recurring_schedule.
    destruct (List.find _ _) as [s|]; [|discriminate].
    match goal with
    | |- context [match ?r with Ok _ => _ | Raise _ => _ end] =>
        destruct r as [rt'|] eqn:Hreg
    end; [|discriminate].
    cbn [fst snd]. intros Hname. inversion Hname; subst name.
    assert (Hrt' : world rt' = world rt /\ sent rt' = sent rt).
    { revert Hreg.
      repeat match goal with
             | |- context [String.eqb ?a ?b] => destruct (String.eqb a b)
             end;
        repeat match goal with
               | |- context [data_get ?a ?b ?c] =>
                   destruct (data_get a b c); simpl; try discriminate
               | |- context [hour_minute ?v] =>
                   destruct (hour_minute v) as [[? ?]|]; simpl;
                   try discriminate
               | |- context [crontab ?a ?b] =>
                   destruct (crontab a b); simpl; try discriminate
               end;
        intros Hreg; inversion Hreg; subst; auto. }
    destruct Hrt' as [Hw Hs]. unfold send. cbn [world sent].
    rewrite Hw, Hs. eauto. }
  destruct Hshape as (Hname & Hworld & Hsent & s & Hfind).
  split; [exact Hname|]. split; [exact Hworld|]. split; [exact Hsent|].
  rewrite <- Hworld in Hfind.
  rewrite (pause_schedule_found rt1 sid s Hfind). cbn [fst beat_schedule].
  subst rt1.
  destruct (create_recurring_schedule_beat crontab_raises rt sid)
    as [-> | (e & -> & _)].
  - apply delete_id. exact Hnone.
  - apply delete_insert_id. exact Hnone.
Qed.

Lemma create_then_pause_restores_beat_witness :
  beat_schedule
    (fst (pause_schedule
            (fst (create_recurring_schedule
                    (fun _ => None)
                    (runtime_of (world_of weekly_wednesday)) 1)) 1))
  = initial_beat_schedule.
Proof.
  refine (proj2 (proj2 (proj2
            (create_then_pause_restores_beat
               (fun _ => None) (runtime_of (world_of weekly_wednesday)) 1
               "schedule_1" _ _)))).
  - vm_compute. reflexivity.
  - vm_compute. reflexivity.
Defined.

(** The next execution of a recurring schedule is at the time of day of
    its parameters, on the minute. *)
Lemma next_execution_time_of_day s now t h mi :
  recurring (Schedule.schedule_type s) ->
  hour_minute (get (default ∅ (Schedule.schedule_data s)) "time"
                   (JStr "09:00")) = Ok (h, mi) ->
  calculate_next_execution_time s now = Ok t ->
  hour t = h /\ minute t = mi /\ second t = 0 /\ microsecond t = 0.
Proof.
  intros Hrec Hhm. unfold calculate_next_execution_time.
  destruct Hrec as [Hk | [Hk | Hk]]; rewrite Hk;
    cbn [String.eqb Ascii.eqb Bool.eqb]; rewrite Hhm; simpl.
  - intros H. apply bind_Ok in H as (next_run & Hrep & H).
    apply replace_Ok in Hrep as [Hnext Hwn]. simpl in Hnext.
    destruct (dt_leb next_run now).
    + destruct (add_days_positive next_run 1 t Hwn ltac:(lia) H)
        as (_ & _ & Hh & Hm & Hs & Hus).
      subst next_run. simpl in *. auto.
    + inversion H; subst. simpl. auto.
  - intros H. apply bind_Ok in H as (dow & _ & H).
    apply bind_Ok in H as (next_run & _ & Hrep).
    apply replace_Ok in Hrep as [Ht _]. subst t. simpl. auto.
  - intros H. apply bind_Ok in H as (dom & _ & H).
    apply bind_Ok in H as (next_run & Hrep & H).
    apply replace_Ok in Hrep as [Hnext _]. simpl in Hnext.
    destruct (dt_leb next_run now).
    + destruct (month now =? 12);
        apply replace_Ok in H as [Ht _]; subst t next_run; simpl; auto.
    + inversion H; subst. simpl. auto.
Qed.

(** X10. For a schedule of a recurring kind with parameters, a beat
    entry registered by [create_recurring_schedule] runs
    [execute_schedule] for that schedule at the hour and minute at which
    [calculate_next_execution_time] places the next execution, which is on
    the minute (seconds and microseconds 0). *)
Theorem beat_entry_matches_next_execution
    crontab_raises rt sid s d name now t :
  List.find (fun x => Schedule.id x =? sid) (schedules (world rt)) = Some s ->
  recurring (Schedule.schedule_type s) ->
  Schedule.schedule_data s = Some d ->
  snd (create_recurring_schedule crontab_raises rt sid) = Ok name ->
  calculate_next_execution_time s now = Ok t ->
  exists e,
    beat_schedule (fst (create_recurring_schedule crontab_raises rt sid))
    !! task_name sid = Some e
    /\ beat_task e = "app.tasks.posting_tasks.execute_schedule"
    /\ beat_args e = [sid]
    /\ Crontab.hour (beat_crontab e) = JInt (hour t)
    /\ Crontab.minute (beat_crontab e) = JInt (minute t)
    /\ second t = 0 /\ microsecond t = 0.
Proof.
  intros Hfind Hrec Hd Hrun Hcalc.
  revert Hrun. unfold create_recurring_schedule. rewrite Hfind.
  unfold data_get. rewrite Hd.
  assert (Htime : forall h mi,
             hour_minute (get d "time" (JStr "09:00")) = Ok (h, mi) ->
             hour t = h /\ minute t = mi /\ second t = 0
             /\ microsecond t = 0).
  { intros h mi Hhm.
    apply (next_execution_time_of_day s now t h mi Hrec); [|exact Hcalc].
    rewrite Hd. exact Hhm. }
  destruct Hrec as [Hk | [Hk | Hk]]; rewrite Hk;
    cbn [String.eqb Ascii.eqb Bool.eqb]; simpl;
    destruct (hour_minute (get d "time" (JStr "09:00")))
      as [[h mi]|] eqn:Hhm; simpl; try discriminate;
    destruct (crontab _ _) as [c|] eqn:Hc; simpl; try discriminate;
    intros _; destruct (Htime h mi eq_refl) as (Hh & Hm & Hs & Hus);
    unfold crontab in Hc;
    destruct (crontab_raises _); try discriminate;
    inversion Hc; subst c;
    eexists; (split; [apply lookup_insert_eq|]); simpl;
    rewrite Hh, Hm; repeat split; assumption.
Qed.

Lemma beat_entry_matches_next_execution_witness :
  exists e,
    beat_schedule (fst (create_recurring_schedule
                          (fun _ => None)
                          (runtime_of (world_of weekly_wednesday)) 1))
    !! "schedule_1" = Some e
    /\ Crontab.hour (beat_crontab e) = JInt 9
    /\ Crontab.minute (beat_crontab e) = JInt 0.
Proof.
  destruct (beat_entry_matches_next_execution
              (fun _ => None) (runtime_of (world_of weekly_wednesday)) 1
              weekly_wednesday
              {[ "day_of_week" := JInt 3; "time" := JStr "09:00" ]}
              "schedule_1" wednesday_10 thursday_9
              eq_refl (or_intror (or_introl eq_refl)) eq_refl
              ltac:(vm_compute; reflexivity) ltac:(vm_compute; reflexivity))
    as (e & He & _ & _ & Hh & Hm & _).
  exists e. auto.
Defined.

(** ** Cleaning up one-time schedules *)

Lemma filter_filter {A} (f g : A -> bool) (l : list A) :
  List.filter f (List.filter g l) = List.filter (fun x => g x && f x) l.
Proof.
  induction l as [|x l IH]; simpl; [reflexivity|].
  destruct (g x); simpl; [destruct (f x)|]; rewrite IH; reflexivity.
Qed.

Lemma filter_ext_members {A} (f g : A -> bool) (l : list A) :
  (forall x, x ∈ l -> f x = g x) -> List.filter f l = List.filter g l.
Proof.
  induction l as [|x l IH]; intros H; simpl; [reflexivity|].
  rewrite (H x) by left. rewrite IH; [reflexivity|].
  intros y Hy. apply H. right. exact Hy.
Qed.

(** The loop of the cleanup: the rows with the key of a completed
    schedule go, and so do the beat entries named after them. *)
Lemma cleanup_loop rt completed :
  let step := fun rt schedule =>
    let rt :=
      match beat_schedule rt !! task_name (Schedule.id schedule) with
      | Some _ =>
          with_beat_schedule
            (delete (task_name (Schedule.id schedule)) (beat_schedule rt)) rt
      | None => rt
      end in
    with_world (delete_schedule_row schedule (world rt)) rt in
  let rt' := foldl step rt completed in
  schedules (world rt')
  = List.filter
      (fun s => forallb (fun c => negb (Schedule.id s =? Schedule.id c))
                        completed)
      (schedules (world rt))
  /\ posts (world rt') = posts (world rt)
  /\ social_accounts (world rt') = social_accounts (world rt)
  /\ queue (world rt') = queue (world rt)
  /\ sent rt' = sent rt
  /\ (forall key, (forall c, c ∈ completed ->
                             key <> task_name (Schedule.id c)) ->
                  beat_schedule rt' !! key = beat_schedule rt !! key).
Proof.
  intros step. revert rt.
  induction completed as [|c completed IH]; intros rt; cbn zeta.
  - simpl. repeat split; auto.
    induction (schedules (world rt)) as [|x l IHl]; simpl; congruence.
  - simpl foldl.
    destruct (IH (step rt c)) as (Hrows & Hp & Ha & Hq & Hsent & Hbeat).
    assert (Hstep : schedules (world (step rt c))
                    = List.filter
                        (fun s => negb (Schedule.id s =? Schedule.id c))
                        (schedules (world rt))
                    /\ posts (world (step rt c)) = posts (world rt)
                    /\ social_accounts (world (step rt c))
                       = social_accounts (world rt)
                    /\ queue (world (step rt c)) = queue (world rt)
                    /\ sent (step rt c) = sent rt
                    /\ forall key, key <> task_name (Schedule.id c) ->
                                   beat_schedule (step rt c) !! key
                                   = beat_schedule rt !! key).
    { subst step. cbv beta zeta.
      destruct (beat_schedule rt !! task_name (Schedule.id c));
        unfold with_world, with_beat_schedule, delete_schedule_row;
        cbn [world sent beat_schedule schedules posts social_accounts queue];
        repeat split; auto.
      intros key Hkey. apply lookup_delete_ne. congruence. }
    destruct Hstep as (Hrows1 & Hp1 & Ha1 & Hq1 & Hsent1 & Hbeat1).
    rewrite Hrows, Hrows1, filter_filter.
    rewrite Hp, Hp1, Ha, Ha1, Hq, Hq1, Hsent, Hsent1.
    repeat split; auto.
    intros key Hkey. rewrite Hbeat, Hbeat1; auto.
    + apply Hkey. left.
    + intros c' Hc'. apply Hkey. right. exact Hc'.
Qed.

(** What a run of the cleanup leaves, in terms of the filter of its
    query. *)
Lemma cleanup_completed_schedules_rows rt now threshold :
  add_hours now (-1) = Ok threshold ->
  unique_schedule_ids (world rt) ->
  let run := cleanup_completed_schedules rt now in
  let rt' := fst run in
  schedules (world rt')
  = List.filter (fun s => negb (is_completed threshold s))
                (schedules (world rt))
  /\ posts (world rt') = posts (world rt)
  /\ social_accounts (world rt') = social_accounts (world rt)
  /\ queue (world rt') = queue (world rt)
  /\ sent rt' = sent rt
  /\ (forall s, s ∈ schedules (world rt') ->
                beat_schedule rt' !! task_name (Schedule.id s)
                = beat_schedule rt !! task_name (Schedule.id s))
  /\ snd run
     = Ok (length (schedules (world rt)) - length (schedules (world rt')))%nat.
Proof.
  intros Hthr Huniq run rt'.
  set (completed := List.filter (is_completed threshold)
                                (schedules (world rt))).
  destruct (cleanup_loop rt completed)
    as (Hrows & Hp & Ha & Hq & Hsent & Hbeat).
  cbn zeta in Hrows, Hp, Ha, Hq, Hsent, Hbeat.
  assert (Hrun : run = (rt', Ok (length completed))).
  { subst rt' run. unfold cleanup_completed_schedules. rewrite Hthr.
    reflexivity. }
  assert (Hrt' : rt' = foldl
                   (fun rt schedule =>
                      with_world
                        (delete_schedule_row schedule
                           (world
                              match beat_schedule rt
                                    !! task_name (Schedule.id schedule) with
                              | Some _ =>
                                  with_beat_schedule
                                    (delete (task_name (Schedule.id schedule))
                                            (beat_schedule rt)) rt
                              | None => rt
                              end))
                        match beat_schedule rt
                              !! task_name (Schedule.id schedule) with
                        | Some _ =>
                            with_beat_schedule
                              (delete (task_name (Schedule.id schedule))
                                      (beat_schedule rt)) rt
                        | None => rt
                        end) rt completed).
  { subst rt' run. unfold cleanup_completed_schedules. rewrite Hthr.
    reflexivity. }
  rewrite <- Hrt' in Hrows, Hp, Ha, Hq, Hsent, Hbeat.
  assert (Hsame : forall s c, s ∈ schedules (world rt) -> c ∈ completed ->
                              Schedule.id s = Schedule.id c ->
                              is_completed threshold s = true).
  { intros s c Hs Hc Heq. subst completed.
    apply list_elem_of_In, List.filter_In in Hc as [Hc Hcompleted].
    apply list_elem_of_In in Hc.
    rewrite (unique_ids_same_row _ s c Huniq Hs Hc Heq). exact Hcompleted. }
  assert (Hfilter : schedules (world rt')
                    = List.filter (fun s => negb (is_completed threshold s))
                                  (schedules (world rt))).
  { rewrite Hrows. apply filter_ext_members. intros s Hs.
    destruct (is_completed threshold s) eqn:Hc; simpl.
    - apply not_true_is_false. intros Hall.
      rewrite forallb_forall in Hall.
      assert (Hin : In s completed)
        by (subst completed; apply List.filter_In;
            split; [apply list_elem_of_In; exact Hs | exact Hc]).
      specialize (Hall s Hin). rewrite Z.eqb_refl in Hall. discriminate.
    - apply forallb_forall. intros c Hc'.
      apply negb_true_iff, Z.eqb_neq. intros Heq.
      apply list_elem_of_In in Hc'.
      rewrite (Hsame s c Hs Hc' Heq) in Hc. discriminate. }
  split; [exact Hfilter|].
  repeat (split; [assumption|]).
  split.
  { intros s Hs. apply Hbeat. intros c Hc Heq.
    apply task_name_inj in Heq.
    rewrite Hfilter in Hs.
    apply list_elem_of_In, List.filter_In in Hs as [Hs Hnot].
    apply list_elem_of_In in Hs.
    rewrite (Hsame s c Hs Hc Heq) in Hnot. discriminate. }
  rewrite Hrun. cbn [snd]. f_equal. rewrite Hfilter. subst completed.
  pose proof (List.filter_length (is_completed threshold)
                                 (schedules (world rt))).
  lia.
Qed.

(** X11. [cleanup_completed_schedules] deletes the schedules of kind
    once that have a [last_executed] and whose [next_execution] is before
    [now] minus one hour, and nothing else: a schedule of another kind,
    one never executed, or one without [next_execution] or with a later
    one stays. What is left of the table are the other schedules, in
    their order (keys being unique); posts, accounts and pending messages
    are untouched, the beat entries of the schedules that stay are kept,
    and the count returned is the number of schedules deleted. *)
Theorem cleanup_deletes_completed_once_schedules rt now threshold :
  add_hours now (-1) = Ok threshold ->
  unique_schedule_ids (world rt) ->
  let run := cleanup_completed_schedules rt now in
  let rt' := fst run in
  schedules (world rt')
  = List.filter
      (fun s =>
         negb (String.eqb (Schedule.schedule_type s) "once"
               && match Schedule.next_execution s with
                  | Some t => dt_ltb t threshold
                  | None => false
                  end
               && match Schedule.last_executed s with
                  | Some _ => true
                  | None => false
                  end))
      (schedules (world rt))
  /\ (forall s, s ∈ schedules (world rt) ->
        s ∉ schedules (world rt')
        <-> Schedule.schedule_type s = "once"
            /\ (exists t, Schedule.next_execution s = Some t
                          /\ dt_ltb t threshold = true)
            /\ is_Some (Schedule.last_executed s))
  /\ posts (world rt') = posts (world rt)
  /\ social_accounts (world rt') = social_accounts (world rt)
  /\ queue (world rt') = queue (world rt)
  /\ sent rt' = sent rt
  /\ (forall s, s ∈ schedules (world rt') ->
                beat_schedule rt' !! task_name (Schedule.id s)
                = beat_schedule rt !! task_name (Schedule.id s))
  /\ snd run
     = Ok (length (schedules (world rt)) - length (schedules (world rt')))%nat.
Proof.
  intros Hthr Huniq run rt'.
  destruct (cleanup_completed_schedules_rows rt now threshold Hthr Huniq)
    as (Hrows & Hrest).
  fold run rt' in Hrows, Hrest.
  unfold is_completed, sql_ltb in Hrows.
  split; [exact Hrows|].
  split; [|exact Hrest].
  intros s Hs. rewrite Hrows.
  split.
  - intros Hgone.
    destruct (String.eqb_spec (Schedule.schedule_type s) "once") as [Hk | Hk].
    + destruct (Schedule.next_execution s) as [t|] eqn:Hnext.
      * destruct (dt_ltb t threshold) eqn:Hlt.
        -- destruct (Schedule.last_executed s) as [u|] eqn:Hlast.
           ++ split; [exact Hk|]. split; [eauto | eauto].
           ++ exfalso. apply Hgone. apply list_elem_of_In, List.filter_In.
              split; [apply list_elem_of_In; exact Hs|].
              rewrite Hnext, Hlast, andb_false_r. reflexivity.
        -- exfalso. apply Hgone. apply list_elem_of_In, List.filter_In.
           split; [apply list_elem_of_In; exact Hs|].
           rewrite Hnext, Hlt, andb_false_r. reflexivity.
      * exfalso. apply Hgone. apply list_elem_of_In, List.filter_In.
        split; [apply list_elem_of_In; exact Hs|].
        rewrite Hnext, andb_false_r. reflexivity.
    + exfalso. apply Hgone. apply list_elem_of_In, List.filter_In.
      split; [apply list_elem_of_In; exact Hs|].
      apply String.eqb_neq in Hk. rewrite Hk. reflexivity.
  - intros (Hk & (t & Hnext & Hlt) & [u Hlast]) Hstays.
    apply list_elem_of_In, List.filter_In in Hstays as [_ Hstays].
    rewrite Hk, Hnext, Hlt, Hlast in Hstays. discriminate.
Qed.

Lemma cleanup_deletes_completed_once_schedules_witness :
  schedules (world (fst (cleanup_completed_schedules
                           (runtime_of
                              (mk_world
                                 [ Schedule.set_last_executed
                                     (Some wednesday_9) once_schedule;
                                   Schedule.set_current_index 1
                                     (Schedule.mk 2 7 "other" true "daily"
                                        None None 0 None None None) ]
                                 [] [] []))
                           thursday_9)))
  = [ Schedule.set_current_index 1
        (Schedule.mk 2 7 "other" true "daily" None None 0 None None None) ].
Proof.
  refine (proj1 (cleanup_deletes_completed_once_schedules
                   _ thursday_9 (mk_datetime 2025 1 2 8 0 0 0) _ _)).
  - vm_compute. reflexivity.
  - unfold unique_schedule_ids. simpl.
    apply NoDup_cons. split; [|apply NoDup_singleton].
    intros H. apply list_elem_of_singleton in H. discriminate.
Defined.

(** ** Scheduled posts *)

(** The loop of [process_scheduled_posts] reads the tables and writes
    none; a post with requested platforms gets its message on the
    queue. *)
Lemma process_loop rt scheduled_posts :
  let rt' := foldl process_one rt scheduled_posts in
  posts (world rt') = posts (world rt)
  /\ schedules (world rt') = schedules (world rt)
  /\ social_accounts (world rt') = social_accounts (world rt)
  /\ beat_schedule rt' = beat_schedule rt
  /\ (exists added, queue (world rt') = queue (world rt) ++ added
        /\ forall post, post ∈ scheduled_posts ->
                        requested_platforms post <> [] ->
                        PostToMultiplePlatforms (Post.id post)
                                                (requested_platforms post)
                        ∈ added).
Proof.
  revert rt. induction scheduled_posts as [|p l IH]; intros rt; cbn zeta.
  - simpl. repeat split; auto. exists []. rewrite app_nil_r.
    split; [reflexivity|]. intros post Hpost. inversion Hpost.
  - simpl foldl.
    destruct (IH (process_one rt p))
      as (Hp & Hs & Ha & Hb & added & Hq & Hadded).
    assert (Hone : posts (world (process_one rt p)) = posts (world rt)
                   /\ schedules (world (process_one rt p))
                      = schedules (world rt)
                   /\ social_accounts (world (process_one rt p))
                      = social_accounts (world rt)
                   /\ beat_schedule (process_one rt p) = beat_schedule rt
                   /\ exists first,
                        queue (world (process_one rt p))
                        = queue (world rt) ++ first
                        /\ (requested_platforms p <> [] ->
                            PostToMultiplePlatforms (Post.id p)
                                                    (requested_platforms p)
                            ∈ first)).
    { unfold process_one.
      destruct (requested_platforms p) as [|x xs] eqn:Hreq.
      - destruct (List.find _ _); cbn; repeat split; auto;
          exists []; rewrite app_nil_r; split; auto; congruence.
      - cbn. repeat split; auto. eexists. split; [reflexivity|].
        intros _. left. }
    destruct Hone as (Hp1 & Hs1 & Ha1 & Hb1 & first & Hq1 & Hfirst).
    rewrite Hp, Hp1, Hs, Hs1, Ha, Ha1, Hb, Hb1.
    repeat split; auto.
    exists (first ++ added). rewrite Hq, Hq1, <- app_assoc.
    split; [reflexivity|].
    intros post Hpost Hreq. apply elem_of_app.
    apply elem_of_cons in Hpost as [-> | Hpost]; [left | right]; auto.
Qed.

(** X12. [process_scheduled_posts] writes no table: a post it hands to
    the posting task keeps the status [scheduled]. So every run at an
    instant whose window contains the post puts a dispatch message for it
    on the queue again: two runs leave two messages for the same post, and
    the posts table is as it was. *)
Theorem due_post_is_dispatched_by_every_run
    rt now1 now2 buffer1 not_before1 buffer2 not_before2 post :
  add_minutes now1 1 = Ok buffer1 ->
  add_minutes now1 (-5) = Ok not_before1 ->
  add_minutes now2 1 = Ok buffer2 ->
  add_minutes now2 (-5) = Ok not_before2 ->
  post ∈ posts (world rt) ->
  in_window not_before1 buffer1 post = true ->
  in_window not_before2 buffer2 post = true ->
  requested_platforms post <> [] ->
  let rt1 := fst (process_scheduled_posts rt now1) in
  let rt2 := fst (process_scheduled_posts rt1 now2) in
  let dispatch :=
    PostToMultiplePlatforms (Post.id post) (requested_platforms post) in
  dispatch ∈ enqueued (world rt) (world rt1)
  /\ dispatch ∈ enqueued (world rt1) (world rt2)
  /\ posts (world rt2) = posts (world rt).
Proof.
  intros Hb1 Hn1 Hb2 Hn2 Hpost Hw1 Hw2 Hreq rt1 rt2 dispatch.
  assert (Hrt1 : rt1 = foldl process_one rt
                         (List.filter (in_window not_before1 buffer1)
                                      (posts (world rt))))
    by (subst rt1; unfold process_scheduled_posts; rewrite Hb1, Hn1;
        reflexivity).
  destruct (process_loop rt (List.filter (in_window not_before1 buffer1)
                                         (posts (world rt))))
    as (Hp1 & _ & _ & _ & added1 & Hq1 & Hadded1).
  cbn zeta in Hp1, Hq1. rewrite <- Hrt1 in Hp1, Hq1.
  assert (Hrt2 : rt2 = foldl process_one rt1
                         (List.filter (in_window not_before2 buffer2)
                                      (posts (world rt1))))
    by (subst rt2; unfold process_scheduled_posts; rewrite Hb2, Hn2;
        reflexivity).
  destruct (process_loop rt1 (List.filter (in_window not_before2 buffer2)
                                          (posts (world rt1))))
    as (Hp2 & _ & _ & _ & added2 & Hq2 & Hadded2).
  cbn zeta in Hp2, Hq2. rewrite <- Hrt2 in Hp2, Hq2.
  split.
  { unfold enqueued. rewrite Hq1, drop_app_length.
    apply Hadded1; [|exact Hreq].
    apply list_elem_of_In, List.filter_In.
    split; [apply list_elem_of_In; exact Hpost | exact Hw1]. }
  split.
  { unfold enqueued. rewrite Hq2, drop_app_length.
    apply Hadded2; [|exact Hreq].
    apply list_elem_of_In, List.filter_In. rewrite Hp1.
    split; [apply list_elem_of_In; exact Hpost | exact Hw2]. }
  rewrite Hp2, Hp1. reflexivity.
Qed.

Lemma due_post_is_dispatched_by_every_run_witness :
  let rt1 := fst (process_scheduled_posts runtime_with_post wednesday_10) in
  let rt2 := fst (process_scheduled_posts
                    rt1 (mk_datetime 2025 1 1 10 1 0 0)) in
  PostToMultiplePlatforms 1 ["twitter"; "facebook"]
  ∈ enqueued (world runtime_with_post) (world rt1)
  /\ PostToMultiplePlatforms 1 ["twitter"; "facebook"]
     ∈ enqueued (world rt1) (world rt2)
  /\ posts (world rt2) = posts (world runtime_with_post).
Proof.
  refine (due_post_is_dispatched_by_every_run
            runtime_with_post wednesday_10 (mk_datetime 2025 1 1 10 1 0 0)
            (mk_datetime 2025 1 1 10 1 0 0) (mk_datetime 2025 1 1 9 55 0 0)
            (mk_datetime 2025 1 1 10 2 0 0) (mk_datetime 2025 1 1 9 56 0 0)
            api_scheduled_post _ _ _ _ _ _ _ _);
    try (vm_compute; reflexivity).
  - left.
  - discriminate.
Defined.

Lemma find_some_member {A} (f : A -> bool) (l : list A) x :
  x ∈ l -> f x = true -> exists y, List.find f l = Some y.
Proof.
  intros Hx Hf. destruct (List.find f l) as [y|] eqn:Hfind; [eauto|].
  apply list_elem_of_In in Hx.
  rewrite (List.find_none f l Hfind x Hx) in Hf. discriminate.
Qed.

Lemma commit_post_member w post_id p0 p' :
  List.find (fun p => Post.id p =? post_id) (posts w) = Some p0 ->
  Post.id p' = post_id ->
  List.find (fun p => Post.id p =? post_id) (posts (commit_post p' w))
  = Some p'
  /\ p' ∈ posts (commit_post p' w).
Proof.
  intros Hfind Hid.
  assert (Hf : List.find (fun p => Post.id p =? post_id)
                         (posts (commit_post p' w)) = Some p').
  { unfold commit_post. cbn [posts]. rewrite Hid.
    eapply find_commit_post; eauto. }
  split; [exact Hf|].
  apply List.find_some in Hf as [Hin _]. apply list_elem_of_In. exact Hin.
Qed.

(** X13. A post scheduled through [schedule_single_post] for an instant
    within the coming minute is dispatched twice: the background call of
    [schedule_post_task] sends the posting task with that instant as
    [eta], and [process_scheduled_posts], running in the same minute,
    finds the post [scheduled] within its window and puts the posting
    task on the queue for the same platforms. *)
Theorem api_scheduled_post_is_dispatched_twice
    rt request uid post now buffer_time not_before :
  List.find (fun p => (Post.id p =? ps_post_id request)
                      && (Post.user_id p =? uid)) (posts (world rt))
  = Some post ->
  ps_platform_ids request <> [] ->
  dt_leb (ps_scheduled_time request) now = false ->
  add_minutes now 1 = Ok buffer_time ->
  add_minutes now (-5) = Ok not_before ->
  dt_leb (ps_scheduled_time request) buffer_time = true ->
  dt_leb not_before (ps_scheduled_time request) = true ->
  let rt1 := fst (schedule_single_post rt request uid) in
  let rt2 := fst (schedule_post_task rt1 (ps_post_id request)
                    (ps_platform_ids request) (ps_scheduled_time request)
                    now) in
  let rt3 := fst (process_scheduled_posts rt2 now) in
  sent rt1 = sent rt ++ [SchedulePostTask (ps_post_id request)
                           (ps_platform_ids request)
                           (ps_scheduled_time request)]
  /\ sent rt2 = sent rt1 ++ [PostToMultiplePlatformsAt
                               (ps_scheduled_time request)
                               (ps_post_id request)
                               (ps_platform_ids request)]
  /\ PostToMultiplePlatforms (ps_post_id request) (ps_platform_ids request)
     ∈ enqueued (world rt2) (world rt3).
Proof.
  intros Hfind Hids Hfuture Hbuf Hnb Hle Hge rt1 rt2 rt3.
  pose proof Hfind as Hrow.
  apply List.find_some in Hrow as [Hin Hkey].
  apply andb_true_iff in Hkey as [Hpid _]. apply Z.eqb_eq in Hpid.
  destruct (find_some_member (fun p => Post.id p =? ps_post_id request)
              (posts (world rt)) post)
    as [p0 Hp0]; [apply list_elem_of_In; exact Hin
                 | apply Z.eqb_eq; exact Hpid |].
  set (post1 := Post.set_platform_data
                  (Some (Platforms (ps_caption request) (ps_hashtags request)
                                   (ps_platform_ids request)))
                  (Post.set_status "scheduled"
                     (set_scheduled_time (Some (ps_scheduled_time request))
                                         post))).
  assert (Hrt1 : rt1 = send (SchedulePostTask (ps_post_id request)
                               (ps_platform_ids request)
                               (ps_scheduled_time request))
                            (with_world (commit_post post1 (world rt)) rt)).
  { subst rt1. unfold schedule_single_post. rewrite Hfind. cbn [fst].
    subst post1. simpl Post.id. rewrite Hpid. reflexivity. }
  destruct (commit_post_member (world rt) (ps_post_id request) p0 post1 Hp0)
    as [Hfind1 _]; [subst post1; simpl; exact Hpid|].
  set (post2 := set_scheduled_time (Some (ps_scheduled_time request))
                  (Post.set_status "scheduled" post1)).
  assert (Hrt2 : rt2 = with_world
                         (commit_post post2 (world rt1))
                         (send (PostToMultiplePlatformsAt
                                  (ps_scheduled_time request)
                                  (ps_post_id request)
                                  (ps_platform_ids request)) rt1)).
  { subst rt2. unfold schedule_post_task.
    rewrite Hrt1 at 1. unfold send at 1, with_world at 1. cbn [world].
    rewrite Hfind1, Hfuture. cbn [fst]. rewrite Hrt1. reflexivity. }
  assert (Hfind1' : List.find (fun p => Post.id p =? ps_post_id request)
                              (posts (world rt1)) = Some post1)
    by (rewrite Hrt1; exact Hfind1).
  destruct (commit_post_member (world rt1) (ps_post_id request) post1 post2
              Hfind1')
    as [_ Hin2]; [subst post2 post1; simpl; exact Hpid|].
  split; [rewrite Hrt1; reflexivity|].
  split; [rewrite Hrt2; reflexivity|].
  assert (Hrt3 : rt3 = foldl process_one rt2
                         (List.filter (in_window not_before buffer_time)
                                      (posts (world rt2))))
    by (subst rt3; unfold process_scheduled_posts; rewrite Hbuf, Hnb;
        reflexivity).
  destruct (process_loop rt2 (List.filter (in_window not_before buffer_time)
                                          (posts (world rt2))))
    as (_ & _ & _ & _ & added & Hq & Hadded).
  cbn zeta in Hq. rewrite <- Hrt3 in Hq.
  unfold enqueued. rewrite Hq, drop_app_length.
  assert (Hreq : requested_platforms post2 = ps_platform_ids request)
    by reflexivity.
  assert (Hid2 : Post.id post2 = ps_post_id request)
    by (subst post2 post1; simpl; exact Hpid).
  rewrite <- Hreq, <- Hid2. apply Hadded.
  - apply list_elem_of_In, List.filter_In. split.
    + apply list_elem_of_In. rewrite Hrt2. exact Hin2.
    + unfold in_window. subst post2 post1. simpl. rewrite Hle, Hge.
      reflexivity.
  - rewrite Hreq. exact Hids.
Qed.

Lemma api_scheduled_post_is_dispatched_twice_witness :
  let request :=
    mk_post_schedule_request 1 ["twitter"] (mk_datetime 2025 1 1 10 0 30 0)
                             None None in
  let rt1 := fst (schedule_single_post runtime_with_post request 7) in
  let rt2 := fst (schedule_post_task rt1 1 ["twitter"]
                    (mk_datetime 2025 1 1 10 0 30 0) wednesday_10) in
  let rt3 := fst (process_scheduled_posts rt2 wednesday_10) in
  PostToMultiplePlatformsAt (mk_datetime 2025 1 1 10 0 30 0) 1 ["twitter"]
  ∈ sent rt2
  /\ PostToMultiplePlatforms 1 ["twitter"] ∈ enqueued (world rt2) (world rt3).
Proof.
  destruct (api_scheduled_post_is_dispatched_twice
              runtime_with_post
              (mk_post_schedule_request 1 ["twitter"]
                 (mk_datetime 2025 1 1 10 0 30 0) None None)
              7 api_scheduled_post wednesday_10
              (mk_datetime 2025 1 1 10 1 0 0) (mk_datetime 2025 1 1 9 55 0 0)
              eq_refl ltac:(discriminate) eq_refl eq_refl eq_refl
              eq_refl eq_refl) as (_ & Hsent & Hqueue).
  cbv zeta. split; [|exact Hqueue].
  simpl ps_scheduled_time in Hsent. simpl ps_post_id in Hsent.
  simpl ps_platform_ids in Hsent. rewrite Hsent.
  apply elem_of_app. right. left.
Defined.

(** ** Posting to one platform *)

(** X14. [post_to_platform] on a post that does not exist raises
    [AttributeError] -- the handler's own [post.status = "failed"] fails on
    [None] -- and writes nothing. On a post that exists it stores
    [posted], the instant and the account exactly when it returns, which
    needs the account to exist and the platform to be one of the five
    known; in every other case it stores [failed], leaves [posted_at] and
    [platform_data] as they were, and raises. *)
Theorem post_to_platform_outcome
    post_content updated w post_id platform account_id now :
  let run := post_to_platform post_content updated w post_id platform
                              account_id now in
  match List.find (fun p => Post.id p =? post_id) (posts w) with
  | None => run = (w, Raise AttributeError)
  | Some post =>
    exists post',
      List.find (fun p => Post.id p =? post_id) (posts (fst run)) = Some post'
      /\ match snd run with
         | Ok r =>
             Post.status post' = "posted"
             /\ Post.posted_at post' = Some now
             /\ Post.social_account_id post' = Some account_id
             /\ Post.platform_post_id post' = pp_platform_post_id r
             /\ platform ∈ services
             /\ is_Some (List.find
                           (fun a => SocialAccount.id a =? account_id)
                           (social_accounts w))
         | Raise e =>
             Post.status post' = "failed"
             /\ Post.posted_at post' = Post.posted_at post
             /\ Post.platform_data post' = Post.platform_data post
         end
  end.
Proof.
  intros run. subst run. unfold post_to_platform.
  destruct (List.find (fun p => Post.id p =? post_id) (posts w))
    as [post|] eqn:Hfind.
  - pose proof (find_post_id _ _ _ Hfind) as Hid.
    destruct (post_content_of post_content (Some post) _ platform)
      as [result|e] eqn:Hcall.
    + eexists. cbn [fst snd].
      split; [eapply commit_post_member; eauto; simpl; exact Hid|].
      simpl. repeat split.
      * unfold post_content_of in Hcall.
        destruct (List.find _ (social_accounts w)); [|discriminate].
        unfold get_platform_service in Hcall.
        destruct (bool_decide (platform ∈ services)) eqn:Hp;
          [apply bool_decide_eq_true in Hp; exact Hp | discriminate].
      * unfold post_content_of in Hcall.
        destruct (List.find _ (social_accounts w)); [eauto | discriminate].
    + eexists. cbn [fst snd].
      split; [eapply commit_post_member; eauto; simpl; exact Hid|].
      simpl. auto.
  - destruct (post_content_of _ _ _ _); reflexivity.
Qed.

(** ** Creating and deleting schedules *)




Lemma find_deleted_row rows sid :
  List.find (fun x => Schedule.id x =? sid)
            (List.filter (fun x => negb (Schedule.id x =? sid)) rows) = None.
Proof.
  induction rows as [|r rows IH]; simpl; [reflexivity|].
  destruct (Schedule.id r =? sid) eqn:Hr; simpl; [exact IH|].
  rewrite Hr. exact IH.
Qed.

(** X16. After [delete_schedule] the schedule is gone: a run of
    [execute_schedule] for its key is skipped and writes nothing -- a beat
    entry or a message still naming the key does no harm --, the rows of
    the other keys are all there, in order, and no post is touched. *)
Theorem deleted_schedule_does_not_run w sid uid s t1 t2 t3 :
  owned_schedule w sid uid = Some s ->
  let w1 := fst (delete_schedule w sid uid) in
  snd (delete_schedule w sid uid) = Respond "Schedule deleted successfully"
  /\ execute_schedule w1 sid t1 t2 t3
     = (w1, Ok (Skipped "Schedule not found or inactive"))
  /\ schedules w1
     = List.filter (fun x => negb (Schedule.id x =? sid)) (schedules w)
  /\ posts w1 = posts w.
Proof.
  intros Hfind w1.
  destruct (owned_schedule_In _ _ _ _ Hfind) as (_ & Hid & _).
  assert (Hw1 : w1 = delete_schedule_row s w)
    by (subst w1; unfold delete_schedule; rewrite Hfind; reflexivity).
  split; [unfold delete_schedule; rewrite Hfind; reflexivity|].
  assert (Hrows : schedules w1
                  = List.filter (fun x => negb (Schedule.id x =? sid))
                                (schedules w))
    by (rewrite Hw1; unfold delete_schedule_row; cbn [schedules];
        rewrite Hid; reflexivity).
  split.
  { unfold execute_schedule. rewrite Hrows, find_deleted_row. reflexivity. }
  split; [exact Hrows|]. rewrite Hw1. reflexivity.
Qed.

Lemma deleted_schedule_does_not_run_witness :
  execute_schedule (fst (delete_schedule (world_of weekly_wednesday) 1 7)) 1
                   wednesday_10 wednesday_10 wednesday_10
  = (fst (delete_schedule (world_of weekly_wednesday) 1 7),
     Ok (Skipped "Schedule not found or inactive")).
Proof.
  exact (proj1 (proj2 (deleted_schedule_does_not_run
                         (world_of weekly_wednesday) 1 7 weekly_wednesday
                         wednesday_10 wednesday_10 wednesday_10 eq_refl))).
Defined.

(** ** A run whose recurrence calculation fails *)

(** X17. When the recurrence calculator raises, the run of
    [execute_schedule] raises the same exception after the post has been
    committed: the post stays, the schedule row is as before, cursor
    included. So a second run that fails in the same way materializes a
    second post with the same content. *)
Theorem failed_calculation_keeps_post_and_cursor w sid s e e' t1 t2 t3 t4 t5 t6 :
  List.find (fun x => Schedule.id x =? sid) (schedules w) = Some s ->
  Schedule.is_active s = true ->
  default [] (Schedule.content_queue s) <> [] ->
  - Z.of_nat (length (default [] (Schedule.content_queue s)))
    <= Schedule.current_index s ->
  calculate_next_execution_time s t3 = Raise e ->
  calculate_next_execution_time s t6 = Raise e' ->
  let run1 := execute_schedule w sid t1 t2 t3 in
  let run2 := execute_schedule (fst run1) sid t4 t5 t6 in
  snd run1 = Raise e /\ snd run2 = Raise e'
  /\ schedules (fst run2) = schedules w
  /\ exists post1 post2,
       materialized w (fst run2) = [post1; post2]
       /\ Post.title post2 = Post.title post1
       /\ Post.description post2 = Post.description post1
       /\ Post.file_path post2 = Post.file_path post1
       /\ Post.id post2 <> Post.id post1.
Proof.
  intros Hfind Hact Hne Hlow Hcalc Hcalc' run1 run2.
  destruct (execute_schedule_run w sid s t1 t2 t3 Hfind Hact Hne Hlow)
    as (item & next_cursor & post1 & w1 & Hadv & Hpost1 & Hposts1 & Hsched1
        & Hrun1).
  rewrite Hcalc in Hrun1.
  assert (Hw1 : fst run1 = w1) by (subst run1; rewrite Hrun1; reflexivity).
  assert (Hfind1 : List.find (fun x => Schedule.id x =? sid)
                             (schedules (fst run1)) = Some s)
    by (rewrite Hw1, Hsched1; exact Hfind).
  destruct (execute_schedule_run (fst run1) sid s t4 t5 t6 Hfind1 Hact Hne
              Hlow)
    as (item2 & next_cursor2 & post2 & w2 & Hadv2 & Hpost2 & Hposts2
        & Hsched2 & Hrun2).
  rewrite Hcalc' in Hrun2. rewrite Hadv in Hadv2.
  inversion Hadv2; subst item2 next_cursor2.
  split; [subst run1; rewrite Hrun1; reflexivity|].
  split; [subst run2; rewrite Hrun2; reflexivity|].
  assert (Hw2 : fst run2 = w2) by (subst run2; rewrite Hrun2; reflexivity).
  split; [rewrite Hw2, Hsched2, Hw1, Hsched1; reflexivity|].
  exists post1, post2. unfold materialized.
  rewrite Hw2, Hposts2, Hw1, Hposts1, <- app_assoc, drop_app_length.
  split; [reflexivity|].
  subst post1 post2. simpl. repeat split.
  rewrite Hw1, Hposts1.
  set (p1 := Post.set_id (next_post_id (posts w)) (new_post s item t1)).
  pose proof (next_post_id_fresh (posts w ++ [p1]) p1) as Hfresh.
  assert (Hin : p1 ∈ posts w ++ [p1]) by (apply elem_of_app; right; left).
  specialize (Hfresh Hin). subst p1. simpl in Hfresh. lia.
Qed.

Lemma failed_calculation_keeps_post_and_cursor_witness :
  let w := world_of monthly_31 in
  let run1 := execute_schedule w 1 february_10 february_10 february_10 in
  let run2 :=
    execute_schedule (fst run1) 1 february_10 february_10 february_10 in
  snd run1 = Raise ValueError
  /\ Post.title <$> materialized w (fst run2) = ["first"; "first"].
Proof.
  destruct (failed_calculation_keeps_post_and_cursor
              (world_of monthly_31) 1 monthly_31 ValueError ValueError
              february_10 february_10 february_10
              february_10 february_10 february_10
              eq_refl eq_refl ltac:(vm_compute; discriminate)
              ltac:(vm_compute; discriminate)
              ltac:(vm_compute; reflexivity) ltac:(vm_compute; reflexivity))
    as (Hr1 & _ & _ & post1 & post2 & Hmat & _).
  cbv zeta. split; [exact Hr1|]. vm_compute. reflexivity.
Defined.

(** ** The preview of a schedule *)

Lemma iterate_app f a b t :
  iterate f (a + b) t = (iterate f a t ≫= iterate f b).
Proof.
  revert t. induction a as [|a IH]; intros t; simpl; [reflexivity|].
  destruct (f t) as [u|e]; simpl; [apply IH | reflexivity].
Qed.

Lemma add_days_add t a b t' :
  0 <= a -> 0 <= b -> a + b <= 999999999 ->
  add_days t a = Ok t' -> add_days t (a + b) = add_days t' b.
Proof.
  intros Ha Hb Hab. unfold add_days.
  destruct (Z.ltb_spec 999999999 (Z.abs a)); [discriminate|].
  destruct (Z.ltb_spec 999999999 (Z.abs (a + b))); [lia|].
  destruct (Z.ltb_spec 999999999 (Z.abs b)); [lia|].
  destruct (Z.leb_spec 0 a); [|lia].
  destruct (Z.leb_spec 0 (a + b)); [|lia].
  destruct (Z.leb_spec 0 b); [|lia].
  intros Hta. rewrite Z2Nat.inj_add by lia.
  rewrite iterate_app, Hta. reflexivity.
Qed.

Lemma iterate_next_day_year n t t' :
  well_formed t = true -> iterate next_day n t = Ok t' ->
  year t' <= year t + Z.of_nat n.
Proof.
  revert t. induction n as [|n IH]; intros t Hwf.
  - simpl. intros H; inversion H; subst. lia.
  - change (iterate next_day (S n) t)
      with (u ← next_day t; iterate next_day n u).
    destruct (next_day t) as [u|] eqn:Hu; [|discriminate].
    destruct (next_day_Ok t u Hwf Hu) as (Hwu & _).
    pose proof (next_day_year t u Hwf Hu).
    simpl. intros H'. specialize (IH u Hwu H'). lia.
Qed.

Lemma add_days_year t n t' :
  well_formed t = true -> 0 <= n -> add_days t n = Ok t' ->
  year t' <= year t + n.
Proof.
  intros Hwf Hn. unfold add_days.
  destruct (999999999 <? Z.abs n); [discriminate|].
  destruct (Z.leb_spec 0 n); [|lia].
  intros Hrun. pose proof (iterate_next_day_year _ _ _ Hwf Hrun). lia.
Qed.

Lemma preview_period_nonneg schedule_type :
  0 <= preview_period schedule_type <= 30.
Proof.
  unfold preview_period.
  repeat match goal with |- context [if ?b then _ else _] => destruct b end;
    lia.
Qed.

Lemma preview_step_period schedule_type t :
  preview_step schedule_type t = add_days t (preview_period schedule_type).
Proof.
  unfold preview_step, preview_period.
  repeat match goal with |- context [if ?b then _ else _] => destruct b end;
    reflexivity.
Qed.

(** The loop of the preview, from any round on. *)
Lemma preview_loop_spec s q n : forall i t acc,
  well_formed t = true ->
  year t + preview_period (Schedule.schedule_type s) * Z.of_nat n
    <= MAXYEAR ->
  (n <> 0%nat -> q <> []) ->
  exists out,
    preview_loop s q n i t acc = Ok (acc ++ out)
    /\ length out = n
    /\ forall (k : nat) item, out !! k = Some item ->
         q !! Z.to_nat ((Schedule.current_index s + i + Z.of_nat k)
                        mod Z.of_nat (length q)) = Some (pv_content item)
         /\ pv_platforms item = Schedule.target_platforms s
         /\ add_days t (preview_period (Schedule.schedule_type s)
                        * Z.of_nat k) = Ok (pv_scheduled_time item).
Proof.
  pose proof (preview_period_nonneg (Schedule.schedule_type s)) as Hp.
  induction n as [|n IH]; intros i t acc Hwf Hroom Hq.
  - exists []. rewrite app_nil_r. split; [reflexivity|].
    split; [reflexivity|].
    intros k item Hk. rewrite lookup_nil in Hk. discriminate.
  - assert (Hlen : 1 <= Z.of_nat (length q)).
    { destruct q; [exfalso; apply Hq; auto|]. simpl length. lia. }
    pose proof (well_formed_bounds t Hwf) as Hb. unfold MINYEAR, MAXYEAR in *.
    simpl preview_loop.
    pose proof (Z.mod_pos_bound (Schedule.current_index s + i)
                  (Z.of_nat (length q)) ltac:(lia)) as Hmod.
    destruct (getitem_in_range q
                ((Schedule.current_index s + i) mod Z.of_nat (length q))
                ltac:(lia)) as (x & Hget & Hlook).
    rewrite Z.mod_mod in Hlook by lia.
    rewrite Hget. simpl.
    rewrite preview_step_period.
    destruct (add_days_total t (preview_period (Schedule.schedule_type s))
                Hwf ltac:(lia) ltac:(unfold MAXYEAR; nia))
      as (t1 & Ht1 & Hwf1).
    rewrite Ht1. simpl.
    pose proof (add_days_year t (preview_period (Schedule.schedule_type s))
                  t1 Hwf ltac:(lia) Ht1) as Hy1.
    destruct (IH (i + 1) t1
                 (acc ++ [mk_preview_item t x (Schedule.target_platforms s)])
                 Hwf1 ltac:(nia)
                 ltac:(intros _; destruct q; [simpl in Hlen; lia | discriminate]))
      as (out & Hrun & Hout & Hitems).
    exists (mk_preview_item t x (Schedule.target_platforms s) :: out).
    rewrite Hrun, <- app_assoc. split; [reflexivity|].
    split; [simpl; rewrite Hout; reflexivity|].
    intros [|k] item Hk.
    + simpl in Hk. inversion Hk; subst item. simpl.
      rewrite Z.add_0_r, Z.mul_0_r. repeat split; auto.
    + simpl in Hk. destruct (Hitems k item Hk) as (Hc & Hpl & Htime).
      split.
      { rewrite <- Hc. do 3 f_equal. lia. }
      split; [exact Hpl|].
      rewrite <- Htime.
      replace (preview_period (Schedule.schedule_type s) * Z.of_nat (S k))
        with (preview_period (Schedule.schedule_type s)
              + preview_period (Schedule.schedule_type s) * Z.of_nat k)
        by lia.
      apply add_days_add; [lia | nia | | exact Ht1].
      apply lookup_lt_Some in Hk. nia.
Qed.

(** X18. Away from the end of the calendar [generate_schedule_preview]
    returns, whatever the cursor: it never indexes outside the queue. The
    preview has [min(days, len(queue))] entries, none when that is
    negative or the queue is empty; entry [k] shows the item
    [queue[(cursor + k) mod len]] and the schedule's platforms, at the
    start instant -- [next_execution], or [now] when there is none -- plus
    [k] periods of 1, 7 or 30 days for daily, weekly and monthly, and at
    the start instant itself for every other kind. *)
Theorem preview_rotates_through_queue s days now :
  let queue := default [] (Schedule.content_queue s) in
  let start := default now (Schedule.next_execution s) in
  let period := preview_period (Schedule.schedule_type s) in
  well_formed start = true ->
  year start + period * days <= MAXYEAR ->
  exists preview,
    generate_schedule_preview s days now = Ok preview
    /\ Z.of_nat (length preview)
       = Z.max 0 (Z.min days (Z.of_nat (length queue)))
    /\ forall (k : nat) item, preview !! k = Some item ->
         queue !! Z.to_nat ((Schedule.current_index s + Z.of_nat k)
                            mod Z.of_nat (length queue))
         = Some (pv_content item)
         /\ pv_platforms item = Schedule.target_platforms s
         /\ add_days start (period * Z.of_nat k)
            = Ok (pv_scheduled_time item).
Proof.
  intros queue start period Hwf Hroom.
  pose proof (preview_period_nonneg (Schedule.schedule_type s)) as Hp.
  pose proof (well_formed_bounds start Hwf) as Hb.
  unfold MINYEAR, MAXYEAR in *. fold period in Hp.
  unfold generate_schedule_preview. fold queue start.
  set (n := Z.to_nat (Z.min days (Z.of_nat (length queue)))).
  destruct (preview_loop_spec s queue n 0 start [] Hwf)
    as (out & Hrun & Hout & Hitems).
  { fold period. unfold MAXYEAR. subst n. nia. }
  { subst n. intros Hn Hq. rewrite Hq in Hn. simpl in Hn. apply Hn. lia. }
  exists out. split; [exact Hrun|].
  split; [rewrite Hout; subst n; lia|].
  intros k item Hk. destruct (Hitems k item Hk) as (Hc & Hpl & Htime).
  rewrite Z.add_0_r in Hc. auto.
Qed.

Lemma preview_rotates_through_queue_witness :
  exists preview,
    generate_schedule_preview (rotating three_items 2) 7 wednesday_10
    = Ok preview
    /\ pv_content <$> preview
       = [ {[ "title" := "third" ]}; {[ "title" := "first" ]};
           {[ "title" := "second" ]} ]
    /\ pv_scheduled_time <$> preview
       = [ wednesday_9; thursday_9; mk_datetime 2025 1 3 9 0 0 0 ].
Proof.
  destruct (preview_rotates_through_queue (rotating three_items 2) 7
              wednesday_10 eq_refl ltac:(vm_compute; discriminate))
    as (preview & Hrun & _).
  exists preview. split; [exact Hrun|].
  vm_compute in Hrun. inversion Hrun; subst preview.
  split; reflexivity.
Defined.

(** X19. With the cursor inside [-len .. len-1] the first entry of the
    preview is the item the next run of [execute_schedule] posts: the
    post that run adds has the title, description, file and file type of
    that entry. *)
Theorem preview_starts_with_next_post w sid s days now t1 t2 t3 :
  let queue := default [] (Schedule.content_queue s) in
  let start := default now (Schedule.next_execution s) in
  List.find (fun x => Schedule.id x =? sid) (schedules w) = Some s ->
  Schedule.is_active s = true ->
  queue <> [] ->
  - Z.of_nat (length queue) <= Schedule.current_index s
    < Z.of_nat (length queue) ->
  1 <= days ->
  well_formed start = true ->
  year start + preview_period (Schedule.schedule_type s) * days <= MAXYEAR ->
  exists item rest post,
    generate_schedule_preview s days now = Ok (item :: rest)
    /\ materialized w (fst (execute_schedule w sid t1 t2 t3)) = [post]
    /\ Post.title post = default "" (pv_content item !! "title")
    /\ Post.description post = default "" (pv_content item !! "description")
    /\ Post.file_path post = default "" (pv_content item !! "file_path")
    /\ Post.file_type post = default "image" (pv_content item !! "file_type")
    /\ Post.user_id post = Schedule.user_id s.
Proof.
  intros queue start Hfind Hact Hne Hcur Hdays Hwf Hroom.
  destruct (preview_rotates_through_queue s days now Hwf Hroom)
    as (preview & Hrun & Hlen & Hitems).
  fold queue in Hlen, Hitems.
  destruct preview as [|item rest].
  { simpl in Hlen. destruct queue; [contradiction | simpl length in *; lia]. }
  destruct (Hitems 0%nat item eq_refl) as (Hc & _).
  rewrite Z.add_0_r in Hc.
  destruct (execute_schedule_run w sid s t1 t2 t3 Hfind Hact Hne
              ltac:(fold queue; lia))
    as (item' & next_cursor & post & w1 & Hadv & Hpost & Hposts & _ & Hexec).
  fold queue in Hadv.
  destruct (advance_Some _ _ _ _ Hadv) as (Hlook & _ & _).
  cbv zeta in Hlook.
  destruct (Z.leb_spec (Z.of_nat (length queue)) (Schedule.current_index s));
    [lia|].
  rewrite Hc in Hlook. inversion Hlook; subst item'.
  exists item, rest, post. split; [exact Hrun|].
  assert (Hw : posts (fst (execute_schedule w sid t1 t2 t3)) = posts w1).
  { rewrite Hexec.
    destruct (calculate_next_execution_time s t3); reflexivity. }
  split.
  { unfold materialized. rewrite Hw, Hposts, drop_app_length. reflexivity. }
  subst post. repeat split.
Qed.

Lemma preview_starts_with_next_post_witness :
  exists item rest post,
    generate_schedule_preview (rotating three_items 2) 7 wednesday_10
    = Ok (item :: rest)
    /\ materialized (world_of (rotating three_items 2))
         (fst (execute_schedule (world_of (rotating three_items 2)) 1
                 wednesday_9 wednesday_9 wednesday_9)) = [post]
    /\ Post.title post = default "" (pv_content item !! "title")
    /\ Post.title post = "third".
Proof.
  destruct (preview_starts_with_next_post
              (world_of (rotating three_items 2)) 1 (rotating three_items 2)
              7 wednesday_10 wednesday_9 wednesday_9 wednesday_9
              eq_refl eq_refl ltac:(vm_compute; discriminate)
              ltac:(vm_compute; split; [discriminate | reflexivity])
              ltac:(lia) eq_refl ltac:(vm_compute; discriminate))
    as (item & rest & post & Hrun & Hmat & Htitle & _).
  exists item, rest, post.
  split; [exact Hrun|]. split; [exact Hmat|]. split; [exact Htitle|].
  vm_compute in Hmat. inversion Hmat; subst post. reflexivity.
Defined.

(** ** What the posting task reports and leaves behind *)

Lemma post_to_one_platform post_content w post platform :
  r_platform (post_to_one post_content w post platform) = platform.
Proof.
  unfold post_to_one.
  destruct (List.find _ _); [|reflexivity].
  destruct (get_platform_service _ _ _) as [service|]; [|reflexivity].
  destruct (service _ _ _); reflexivity.
Qed.

Lemma post_to_one_unknown_platform post_content w post platform :
  platform ∉ services ->
  has_failed (post_to_one post_content w post platform).
Proof.
  intros Hunknown. unfold post_to_one, has_failed.
  destruct (List.find _ _); [|reflexivity].
  unfold get_platform_service.
  rewrite bool_decide_eq_false_2 by exact Hunknown. reflexivity.
Qed.

Lemma update_status_settled results total now post :
  Post.status (update_status results total now post) <> "scheduled".
Proof.
  unfold update_status.
  destruct (0 <? count_success results)%nat; simpl; [|discriminate].
  destruct (count_success results =? total)%nat; discriminate.
Qed.

(** X20. For a post that exists [post_to_multiple_platforms] never
    raises, whatever the platform clients do: it returns one entry per
    requested platform, in the order requested, each a success or a
    failure, and a failure for every platform name that is not one of the
    five known. It stores these entries on the post, sets [posted_at] to
    the instant of the run exactly when the count of successes is
    positive and leaves it as it was otherwise, and touches no schedule,
    no account and no message on the queue. *)
Theorem dispatch_reports_every_platform
    post_content w post_id post platform_ids now :
  List.find (fun p => Post.id p =? post_id) (posts w) = Some post ->
  let run := post_to_multiple_platforms post_content w post_id
                                        platform_ids now in
  exists summary post',
    snd run = Ok summary
    /\ r_platform <$> d_results summary = platform_ids
    /\ Forall (fun r => succeeded r \/ has_failed r) (d_results summary)
    /\ (forall (k : nat) platform r,
          platform_ids !! k = Some platform ->
          d_results summary !! k = Some r ->
          platform ∉ services -> has_failed r)
    /\ d_total_platforms summary = length platform_ids
    /\ (d_success_count summary <= d_total_platforms summary)%nat
    /\ List.find (fun p => Post.id p =? post_id) (posts (fst run))
       = Some post'
    /\ Post.platform_data post' = Some (PostingResults (d_results summary))
    /\ Post.posted_at post'
       = (if (0 <? d_success_count summary)%nat then Some now
          else Post.posted_at post)
    /\ schedules (fst run) = schedules w
    /\ social_accounts (fst run) = social_accounts w
    /\ queue (fst run) = queue w.
Proof.
  intros Hfind run.
  destruct (post_to_multiple_platforms_stored post_content w post_id post
              platform_ids now Hfind) as (Hstored & Hrun).
  cbv zeta in Hstored, Hrun. fold run in Hstored, Hrun.
  set (results := post_to_one post_content w post <$> platform_ids) in *.
  eexists _, _. split; [exact Hrun|]. cbn [d_results d_total_platforms
                                           d_success_count].
  split.
  { subst results. rewrite <- list_fmap_compose.
    rewrite <- (list_fmap_id platform_ids) at 2.
    apply list_fmap_ext. intros k platform _. simpl.
    apply post_to_one_platform. }
  split.
  { subst results. apply Forall_fmap, Forall_forall. intros platform _.
    apply post_to_one_status. }
  split.
  { intros k platform r Hk Hr Hunknown. subst results.
    rewrite list_lookup_fmap, Hk in Hr. inversion Hr; subst r.
    apply post_to_one_unknown_platform. exact Hunknown. }
  split; [reflexivity|].
  split.
  { pose proof (count_success_le results) as Hle.
    subst results. rewrite length_fmap in Hle. exact Hle. }
  split; [exact Hstored|].
  split; [reflexivity|].
  split.
  { unfold update_status.
    destruct (0 <? count_success results)%nat; reflexivity. }
  subst run. unfold post_to_multiple_platforms. rewrite Hfind.
  repeat split.
Qed.

Lemma dispatch_reports_every_platform_witness :
  exists summary,
    snd (post_to_multiple_platforms sample_post_content world_with_post 1
           ["twitter"; "facebook"; "mastodon"] wednesday_10) = Ok summary
    /\ r_platform <$> d_results summary = ["twitter"; "facebook"; "mastodon"]
    /\ r_status <$> d_results summary = ["success"; "failed"; "failed"]
    /\ d_success_count summary = 1%nat.
Proof.
  destruct (dispatch_reports_every_platform sample_post_content
              world_with_post 1 scheduled_post
              ["twitter"; "facebook"; "mastodon"] wednesday_10 eq_refl)
    as (summary & post' & Hrun & Hplatforms & _).
  exists summary. split; [exact Hrun|]. split; [exact Hplatforms|].
  vm_compute in Hrun. inversion Hrun; subst summary. split; reflexivity.
Defined.

(** The messages of [process_scheduled_posts] name posts of its window
    only. *)
Lemma process_loop_sources rt scheduled_posts :
  let rt' := foldl process_one rt scheduled_posts in
  (exists added, queue (world rt') = queue (world rt) ++ added
     /\ forall m, m ∈ added ->
          exists post platforms,
            post ∈ scheduled_posts
            /\ m = PostToMultiplePlatforms (Post.id post) platforms)
  /\ (exists added, sent rt' = sent rt ++ added
        /\ forall m, m ∈ added ->
             exists post platform account_id,
               post ∈ scheduled_posts
               /\ m = PostToPlatform (Post.id post) platform account_id).
Proof.
  revert rt. induction scheduled_posts as [|p l IH]; intros rt; cbn zeta.
  - simpl. split; exists []; rewrite app_nil_r;
      (split; [reflexivity|]); intros m Hm; inversion Hm.
  - simpl foldl.
    destruct (IH (process_one rt p))
      as ((added & Hq & Hadded) & (posted & Hs & Hposted)).
    assert (Hone :
      (queue (world (process_one rt p)) = queue (world rt)
       \/ exists platforms,
            queue (world (process_one rt p))
            = queue (world rt) ++ [PostToMultiplePlatforms (Post.id p)
                                                          platforms])
      /\ (sent (process_one rt p) = sent rt
          \/ exists platform account_id,
               sent (process_one rt p)
               = sent rt ++ [PostToPlatform (Post.id p) platform
                                            account_id])).
    { unfold process_one.
      destruct (requested_platforms p) as [|x platforms].
      - destruct (List.find _ _) as [a|]; split; auto.
        right. eexists _, _. reflexivity.
      - split; [right | left]; [eexists|]; reflexivity. }
    destruct Hone as (Hq1 & Hs1). split.
    + destruct Hq1 as [Hq1 | (platforms & Hq1)].
      * exists added. rewrite Hq, Hq1. split; [reflexivity|].
        intros m Hm. destruct (Hadded m Hm) as (post & pl & Hin & ->).
        exists post, pl. split; [right; exact Hin | reflexivity].
      * exists (PostToMultiplePlatforms (Post.id p) platforms :: added).
        rewrite Hq, Hq1, <- app_assoc. split; [reflexivity|].
        intros m Hm. apply elem_of_cons in Hm as [-> | Hm].
        -- exists p, platforms. split; [left | reflexivity].
        -- destruct (Hadded m Hm) as (post & pl & Hin & ->).
           exists post, pl. split; [right; exact Hin | reflexivity].
    + destruct Hs1 as [Hs1 | (platform & account_id & Hs1)].
      * exists posted. rewrite Hs, Hs1. split; [reflexivity|].
        intros m Hm. destruct (Hposted m Hm) as (post & pl & a & Hin & ->).
        exists post, pl, a. split; [right; exact Hin | reflexivity].
      * exists (PostToPlatform (Post.id p) platform account_id :: posted).
        rewrite Hs, Hs1, <- app_assoc. split; [reflexivity|].
        intros m Hm. apply elem_of_cons in Hm as [-> | Hm].
        -- exists p, platform, account_id. split; [left | reflexivity].
        -- destruct (Hposted m Hm) as (post & pl & a & Hin & ->).
           exists post, pl, a. split; [right; exact Hin | reflexivity].
Qed.

(** X21. Once [post_to_multiple_platforms] has run for a post, the post
    is out of reach of [process_scheduled_posts]: whatever the outcome,
    the status stored is no longer [scheduled], so no later run, at any
    instant, sends a posting task for that post. *)
Theorem dispatched_post_is_not_processed_again
    post_content rt post_id post platform_ids now later :
  List.find (fun p => Post.id p =? post_id) (posts (world rt)) = Some post ->
  let w1 := fst (post_to_multiple_platforms post_content (world rt) post_id
                   platform_ids now) in
  let rt1 := with_world w1 rt in
  let rt2 := fst (process_scheduled_posts rt1 later) in
  (forall platforms,
     PostToMultiplePlatforms post_id platforms
     ∉ enqueued (world rt1) (world rt2))
  /\ (forall platform account_id,
        PostToPlatform post_id platform account_id
        ∉ drop (length (sent rt1)) (sent rt2)).
Proof.
  intros Hfind w1 rt1 rt2.
  pose proof (find_post_id _ _ _ Hfind) as Hid.
  assert (Hsettled : forall p, p ∈ posts (world rt1) -> Post.id p = post_id ->
                               Post.status p <> "scheduled").
  { intros p Hp Hpid. subst rt1 w1. cbn [with_world world] in Hp.
    unfold post_to_multiple_platforms in Hp. rewrite Hfind in Hp.
    cbn [fst] in Hp. unfold commit_post in Hp. cbn [posts] in Hp.
    apply list_elem_of_fmap in Hp as (p0 & -> & Hp0).
    cbn [Post.id Post.set_platform_data] in *.
    destruct (Post.id p0 =? _) eqn:He.
    - cbn [Post.status Post.set_platform_data]. apply update_status_settled.
    - exfalso. revert He Hpid. unfold update_status.
      destruct (0 <? _)%nat; cbn [Post.id Post.set_posted_at Post.set_status];
        intros He Hpid; apply Z.eqb_neq in He; congruence. }
  assert (Hwindow : forall not_before buffer_time p,
            p ∈ List.filter (in_window not_before buffer_time)
                            (posts (world rt1)) ->
            Post.id p <> post_id).
  { intros nb bt p Hp Hpid.
    apply list_elem_of_In, List.filter_In in Hp as [Hp Hin].
    apply list_elem_of_In in Hp.
    unfold in_window in Hin. apply andb_true_iff in Hin as [Hin _].
    apply andb_true_iff in Hin as [Hst _]. apply String.eqb_eq in Hst.
    exact (Hsettled p Hp Hpid Hst). }
  subst rt2. unfold process_scheduled_posts.
  destruct (add_minutes later 1) as [buffer_time|e];
    [|cbn [fst]; unfold enqueued; rewrite !drop_all;
      split; intros; apply not_elem_of_nil].
  destruct (add_minutes later (-5)) as [not_before|e];
    [|cbn [fst]; unfold enqueued; rewrite !drop_all;
      split; intros; apply not_elem_of_nil].
  cbn [fst].
  destruct (process_loop_sources rt1
              (List.filter (in_window not_before buffer_time)
                           (posts (world rt1))))
    as ((added & Hq & Hadded) & (posted & Hs & Hposted)).
  cbv zeta in Hq, Hs. unfold enqueued.
  rewrite Hq, Hs, !drop_app_length. split.
  - intros platforms Hm.
    destruct (Hadded _ Hm) as (p & pl & Hp & Heq).
    inversion Heq; subst. eapply Hwindow; eauto.
  - intros platform account_id Hm.
    destruct (Hposted _ Hm) as (p & pl & a & Hp & Heq).
    inversion Heq; subst. eapply Hwindow; eauto.
Qed.

Lemma dispatched_post_is_not_processed_again_witness :
  let rt1 :=
    with_world
      (fst (post_to_multiple_platforms sample_post_content
              (world runtime_with_post) 1 ["twitter"; "facebook"]
              wednesday_10))
      runtime_with_post in
  PostToMultiplePlatforms 1 ["twitter"; "facebook"]
  ∈ enqueued (world runtime_with_post)
             (world (fst (process_scheduled_posts runtime_with_post
                            wednesday_10)))
  /\ PostToMultiplePlatforms 1 ["twitter"; "facebook"]
     ∉ enqueued (world rt1)
                (world (fst (process_scheduled_posts rt1 wednesday_10))).
Proof.
  cbv zeta. split.
  - vm_compute. left.
  - exact (proj1 (dispatched_post_is_not_processed_again
                    sample_post_content runtime_with_post 1
                    api_scheduled_post ["twitter"; "facebook"]
                    wednesday_10 wednesday_10 eq_refl)
                 ["twitter"; "facebook"]).
Defined.

(** ** Scheduling posts in bulk *)

Lemma bulk_loop_spec base_time interval_minutes platforms post_ids :
  forall i rt scheduled failed,
  0 <= i ->
  exists added failures,
    bulk_loop base_time interval_minutes platforms i post_ids rt scheduled
              failed
    = (mk_runtime (world rt) (sent rt ++ (message_of <$> added))
                  (beat_schedule rt),
       scheduled ++ added, failed ++ failures)
    /\ (se_post_id <$> added) ++ (fe_post_id <$> failures) ≡ₚ post_ids
    /\ forall (k : nat) post_id, post_ids !! k = Some post_id ->
         match add_minutes base_time ((i + Z.of_nat k) * interval_minutes)
         with
         | Ok scheduled_time =>
             mk_scheduled_entry post_id scheduled_time platforms ∈ added
         | Raise e => mk_failed_entry post_id (ErrorOf e) ∈ failures
         end.
Proof.
  induction post_ids as [|post_id post_ids IH]; intros i rt scheduled failed Hi.
  - exists [], []. simpl. rewrite !app_nil_r. destruct rt.
    split; [reflexivity|]. split; [reflexivity|].
    intros k p Hk. rewrite lookup_nil in Hk. discriminate.
  - simpl bulk_loop.
    destruct (add_minutes base_time (i * interval_minutes))
      as [scheduled_time|e] eqn:Htime.
    + destruct (IH (i + 1)
                   (send (SchedulePostTask post_id platforms scheduled_time)
                         rt)
                   (scheduled ++ [mk_scheduled_entry post_id scheduled_time
                                                     platforms])
                   failed ltac:(lia))
        as (added & failures & Hrun & Hperm & Hitems).
      exists (mk_scheduled_entry post_id scheduled_time platforms :: added),
             failures.
      rewrite Hrun. unfold send. cbn [world sent beat_schedule].
      rewrite <- !app_assoc. split; [reflexivity|].
      split; [simpl; rewrite Hperm; reflexivity|].
      intros [|k] p Hk; simpl in Hk.
      * inversion Hk; subst p. rewrite Z.add_0_r, Htime. left.
      * specialize (Hitems k p Hk).
        replace (i + Z.of_nat (S k)) with (i + 1 + Z.of_nat k) by lia.
        revert Hitems.
        destruct (add_minutes base_time
                    ((i + 1 + Z.of_nat k) * interval_minutes));
          intros Hitems; [apply elem_of_cons; right|]; exact Hitems.
    + destruct (IH (i + 1) rt scheduled
                   (failed ++ [mk_failed_entry post_id (ErrorOf e)])
                   ltac:(lia))
        as (added & failures & Hrun & Hperm & Hitems).
      exists added, (mk_failed_entry post_id (ErrorOf e) :: failures).
      rewrite Hrun, <- !app_assoc. split; [reflexivity|].
      split.
      { simpl. rewrite <- Hperm. symmetry. apply Permutation_middle. }
      intros [|k] p Hk; simpl in Hk.
      * inversion Hk; subst p. rewrite Z.add_0_r, Htime. left.
      * specialize (Hitems k p Hk).
        replace (i + Z.of_nat (S k)) with (i + 1 + Z.of_nat k) by lia.
        revert Hitems.
        destruct (add_minutes base_time
                    ((i + 1 + Z.of_nat k) * interval_minutes));
          intros Hitems; [|apply elem_of_cons; right]; exact Hitems.
Qed.

(** X22. [bulk_schedule_posts] fails as a whole only when the start time
    is missing ([TypeError]) or does not parse, and then sends nothing.
    Otherwise it returns and accounts for every post id exactly once,
    duplicates included: the id at position [k] is scheduled for the start
    time plus [k] intervals (60 minutes when none is given) when that
    instant exists, and is listed as failed with the exception of the time
    computation when it does not. The two counts add up to the number of
    ids, one [schedule_post_task] message is sent per scheduled entry, in
    order, and the database is neither read nor written -- a post id
    need not exist. *)
Theorem bulk_schedule_accounts_for_every_post
    fromisoformat rt post_ids schedule_config :
  let run := bulk_schedule_posts fromisoformat rt post_ids schedule_config in
  let interval_minutes := default 60 (bc_interval_minutes schedule_config) in
  let platforms := default [] (bc_platforms schedule_config) in
  match base_time_of fromisoformat schedule_config with
  | Raise e => run = (rt, Raise e)
  | Ok base_time =>
    exists r,
      snd run = Ok r
      /\ (b_success_count r + b_failure_count r)%nat = length post_ids
      /\ b_success_count r = length (b_scheduled_posts r)
      /\ (se_post_id <$> b_scheduled_posts r)
         ++ (fe_post_id <$> b_failed_posts r) ≡ₚ post_ids
      /\ (forall (k : nat) post_id, post_ids !! k = Some post_id ->
            match add_minutes base_time (Z.of_nat k * interval_minutes) with
            | Ok scheduled_time =>
                mk_scheduled_entry post_id scheduled_time platforms
                ∈ b_scheduled_posts r
            | Raise e =>
                mk_failed_entry post_id (ErrorOf e) ∈ b_failed_posts r
            end)
      /\ sent (fst run) = sent rt ++ (message_of <$> b_scheduled_posts r)
      /\ world (fst run) = world rt
      /\ beat_schedule (fst run) = beat_schedule rt
  end.
Proof.
  intros run interval_minutes platforms. subst run.
  unfold bulk_schedule_posts.
  destruct (base_time_of fromisoformat schedule_config) as [base_time|e];
    [|reflexivity].
  fold interval_minutes platforms.
  destruct (bulk_loop_spec base_time interval_minutes platforms post_ids
              0 rt [] [] ltac:(lia))
    as (added & failures & Hrun & Hperm & Hitems).
  rewrite Hrun. simpl app. cbn [fst snd].
  eexists. split; [reflexivity|].
  cbn [b_success_count b_failure_count b_scheduled_posts b_failed_posts
       sent world beat_schedule].
  split.
  { rewrite <- (Permutation_length Hperm), length_app, !length_fmap.
    reflexivity. }
  split; [reflexivity|].
  split; [exact Hperm|].
  split; [|repeat split].
  intros k post_id Hk. specialize (Hitems k post_id Hk).
  rewrite Z.add_0_l in Hitems. exact Hitems.
Qed.

(** ** A recurring schedule after its run *)

(** X23. A run of [execute_schedule] on an active schedule of a
    recurring kind with valid parameters and a queue that is not empty is
    never skipped: it raises only what the recurrence calculator raises,
    and otherwise stores a [next_execution] strictly after the instant
    [now_next] it read, so that [check_and_execute_schedules] sends no
    [execute_schedule] message for the schedule at any instant before
    that [next_execution] -- the instant of the run included. *)
Theorem executed_recurring_schedule_is_not_due_again w sid s t1 t2 now_next :
  List.find (fun x => Schedule.id x =? sid) (schedules w) = Some s ->
  Schedule.is_active s = true ->
  recurring (Schedule.schedule_type s) ->
  valid_params (Schedule.schedule_type s)
               (default ∅ (Schedule.schedule_data s)) = true ->
  default [] (Schedule.content_queue s) <> [] ->
  - Z.of_nat (length (default [] (Schedule.content_queue s)))
    <= Schedule.current_index s ->
  well_formed now_next = true ->
  let run := execute_schedule w sid t1 t2 now_next in
  match snd run with
  | Ok (Executed _ _ _ next) =>
      dt_ltb now_next next = true
      /\ forall now, dt_ltb now next = true ->
           ExecuteSchedule sid
           ∉ enqueued (fst run)
                      (fst (check_and_execute_schedules (fst run) now))
  | Ok (Skipped _) => False
  | Raise e => calculate_next_execution_time s now_next = Raise e
  end.
Proof.
  intros Hfind Hact Hrec Hvalid Hne Hlow Hwf run.
  pose proof (find_schedule_id _ _ _ Hfind) as Hid.
  destruct (execute_schedule_run w sid s t1 t2 now_next Hfind Hact Hne Hlow)
    as (item & next_cursor & post & w1 & _ & _ & _ & _ & Hexec).
  subst run. rewrite Hexec.
  destruct (calculate_next_execution_time s now_next) as [next|e] eqn:Hcalc;
    [|reflexivity].
  cbn [fst snd].
  pose proof (recurring_after_now s now_next next Hwf Hrec Hvalid Hcalc)
    as Hlt.
  split; [exact Hlt|].
  intros now Hnow Hin.
  set (s' := Schedule.set_next_execution (Some next)
               (Schedule.set_last_executed (Some t2)
                  (Schedule.set_current_index next_cursor s))) in *.
  destruct (check_and_execute_schedules_queue (commit_schedule s' w1) now)
    as (Hq & _ & _).
  unfold enqueued in Hin. rewrite Hq, drop_app_length in Hin.
  apply list_elem_of_fmap in Hin as (x & Hx & Hdue).
  inversion Hx as [Hxid].
  apply list_elem_of_In, List.filter_In in Hdue as [Hrow Hdue].
  apply list_elem_of_In, commit_schedule_rows in Hrow as [-> | [_ Hother]].
  - unfold is_due in Hdue. subst s'. simpl in Hdue.
    rewrite (dt_ltb_not_leb _ _ Hnow), andb_false_r in Hdue. discriminate.
  - apply Hother. subst s'. simpl. congruence.
Qed.

Lemma executed_recurring_schedule_is_not_due_again_witness :
  let w := world_of weekly_wednesday in
  let run := execute_schedule w 1 wednesday_10 wednesday_10 wednesday_10 in
  ExecuteSchedule 1
  ∈ enqueued w (fst (check_and_execute_schedules w wednesday_10))
  /\ ExecuteSchedule 1
     ∉ enqueued (fst run)
                (fst (check_and_execute_schedules (fst run) wednesday_10)).
Proof.
  cbv zeta. split; [vm_compute; left|].
  pose proof (executed_recurring_schedule_is_not_due_again
                (world_of weekly_wednesday) 1 weekly_wednesday
                wednesday_10 wednesday_10 wednesday_10
                eq_refl eq_refl (or_intror (or_introl eq_refl)) eq_refl
                ltac:(vm_compute; discriminate)
                ltac:(vm_compute; discriminate) eq_refl) as H.
  cbv zeta in H.
  destruct (snd (execute_schedule (world_of weekly_wednesday) 1 wednesday_10
                   wednesday_10 wednesday_10))
    as [[reason | sid pid idx next] | e] eqn:Hrun;
    [contradiction | | vm_compute in Hrun; discriminate].
  destruct H as [Hlt Hnot]. apply Hnot.
  vm_compute in Hrun. inversion Hrun; subst. reflexivity.
Defined.
